(** * ESP32 quiz motor controller: a shallow embedding of
      [esp32_quiz_motor/esp32_quiz_motor.ino] and its verified properties.

    The sketch is a single-threaded cooperative loop.  Every global of the
    sketch becomes a field of a state record, every handler and the body of
    [loop()] a function on that record.  What the sketch reads from the
    outside world during one iteration (the pending HTTP request, the values
    returned by the successive [millis()] calls, the two [digitalRead]
    levels, and whether the motion library finds a step due) is gathered in
    the record [LoopInput].  [Serial] diagnostics are write-only and are left
    out. *)

From Stdlib Require Import String Ascii DecimalString ZArith List Bool Lia.
From Stdlib Require DecimalPos.
Import ListNotations.
Local Open Scope Z_scope.

(* ================================================================= *)
(** ** Arduino core: machine integers and the [String] class          *)
(* ================================================================= *)

Module Arduino.

(** [long] and [int] are 32-bit two's complement on the ESP32,
    [unsigned long] and [unsigned int] are 32-bit. *)
Definition LONG_MIN : Z := - 2 ^ 31.
Definition LONG_MAX : Z := 2 ^ 31 - 1.

Definition wrap_long (z : Z) : Z := (z + 2 ^ 31) mod 2 ^ 32 - 2 ^ 31.
Definition wrap_ulong (z : Z) : Z := z mod 2 ^ 32.

(** [abs] on a [long]: the negation wraps at [LONG_MIN]. *)
Definition labs (x : Z) : Z := wrap_long (Z.abs x).

(** An Arduino [String] is its sequence of characters. *)
Definition WString : Type := list ascii.

Definition lit (s : string) : WString := list_ascii_of_string s.

Definition WString_eqb (a b : WString) : bool :=
  if list_eq_dec ascii_dec a b then true else false.

(** [String(long)]: decimal text, with a leading minus sign when negative. *)
Definition String_of_long (z : Z) : WString :=
  lit (NilZero.string_of_int (Z.to_int z)).

Definition newline : WString := [ascii_of_nat 10].
Definition dquote : WString := [ascii_of_nat 34].

(** [String::substring(left, right)], arguments are [unsigned int]:
    swaps the bounds when out of order, yields the empty string when [left]
    is past the end, clips [right] to the length. *)
Definition substring (s : WString) (left right : nat) : WString :=
  let l := if (right <? left)%nat then right else left in
  let r := if (right <? left)%nat then left else right in
  if (length s <=? l)%nat then []
  else firstn (Nat.min r (length s) - l) (skipn l s).

(** [String::substring(left)] is [substring(left, length)]. *)
Definition substring_from (s : WString) (left : nat) : WString :=
  substring s left (length s).

(** [String::operator[]]: the character at [i], NUL when out of range. *)
Definition charAt (s : WString) (i : nat) : ascii := nth i s zero.

(** [String::toInt] is C [atol] ([strtol] in base 10): leading white space
    is skipped, an optional sign is read, then the longest run of decimal
    digits; anything after it is ignored, no digit at all gives 0, and the
    value saturates at the ends of [long]. *)
Definition isspace (c : ascii) : bool :=
  let n := nat_of_ascii c in
  ((n =? 32) || ((9 <=? n) && (n <=? 13)))%nat.

Definition isdigit (c : ascii) : bool :=
  let n := nat_of_ascii c in ((48 <=? n) && (n <=? 57))%nat.

Definition digit_value (c : ascii) : Z := Z.of_nat (nat_of_ascii c) - 48.

Fixpoint skip_space (s : WString) : WString :=
  match s with
  | c :: r => if isspace c then skip_space r else s
  | [] => []
  end.

Fixpoint digits (acc : Z) (s : WString) : Z :=
  match s with
  | c :: r => if isdigit c then digits (acc * 10 + digit_value c) r else acc
  | [] => acc
  end.

Definition toInt (s : WString) : Z :=
  match skip_space s with
  | [] => 0
  | c :: r =>
      if Ascii.eqb c "-"%char then Z.max LONG_MIN (- digits 0 r)
      else if Ascii.eqb c "+"%char then Z.min LONG_MAX (digits 0 r)
      else Z.min LONG_MAX (digits 0 (c :: r))
  end.

End Arduino.
Export Arduino.

(* ================================================================= *)
(** ** The motion library object [stepper]                            *)
(* ================================================================= *)

Module AccelStepper.

(** Modelled from the spec: the class [AccelStepper] (header
    [AccelStepper.h]) is a library the sketch links against; its source is
    not part of the repository.  The model follows the Motion Controller
    contract of the specification: the controller owns an absolute step
    position and a target; [enqueueRelativeMove(delta)] sets
    [targetPosition = currentPosition + delta]; [advanceOneTick] applies at
    most one micro-step per invocation, and only while
    [currentPosition != targetPosition]; the drive lines can be energised
    and de-energised.  The trapezoidal speed profile of the library only
    decides _when_ a step is due (floating point arithmetic on a
    microsecond clock); that decision is the boolean [due] handed to
    [run]. *)
Record t : Type := mk {
  currentPos : Z;
  targetPos : Z;
  outputsEnabled : bool
}.

(** [AccelStepper stepper(...)]: at rest at position 0. *)
Definition init : t :=
  {| currentPos := 0; targetPos := 0; outputsEnabled := true |}.

Definition currentPosition (s : t) : Z := currentPos s.
Definition distanceToGo (s : t) : Z := targetPos s - currentPos s.

Definition enableOutputs (s : t) : t :=
  {| currentPos := currentPos s; targetPos := targetPos s;
     outputsEnabled := true |}.

Definition disableOutputs (s : t) : t :=
  {| currentPos := currentPos s; targetPos := targetPos s;
     outputsEnabled := false |}.

(** Modelled from the spec: [move(relative)] is the contract's
    [enqueueRelativeMove(delta)], which "sets [targetPosition =
    currentPosition + delta]". *)
Definition move (relative : Z) (s : t) : t :=
  {| currentPos := currentPos s; targetPos := currentPos s + relative;
     outputsEnabled := outputsEnabled s |}.

(** Modelled from the spec: [run()] is the contract's [advanceOneTick()]:
    "if [currentPosition != targetPosition], it computes the next
    micro-step ... and applies it", at most one per invocation, towards the
    target. *)
Definition run (due : bool) (s : t) : t :=
  if distanceToGo s =? 0 then s
  else if due then
    {| currentPos := currentPos s + Z.sgn (distanceToGo s);
       targetPos := targetPos s;
       outputsEnabled := outputsEnabled s |}
  else s.

(** [while (stepper.distanceToGo() != 0) stepper.run();] with the successive
    answers of the step clock as fuel: the loop is left when the motor is
    idle, or with the motor still moving when the clock readings run out. *)
Fixpoint runToIdle (clock : list bool) (s : t) : t :=
  if distanceToGo s =? 0 then s
  else match clock with
       | [] => s
       | due :: clock' => runToIdle clock' (run due s)
       end.

End AccelStepper.

(* ================================================================= *)
(** ** The display object [lcd]                                       *)
(* ================================================================= *)

Module Lcd.

(** Modelled from the spec: [LiquidCrystal_I2C] is a library whose source
    is not part of the repository.  The display surface exposes "set
    cursor", "write character run" and "clear" over two lines of 16
    characters: a character written at a visible column replaces the one
    shown there and moves the cursor one column to the right; columns past
    the sixteenth are not shown. *)
Record t : Type := mk {
  col : nat;
  row : nat;
  line0 : list ascii;
  line1 : list ascii
}.

Definition width : nat := 16.

Definition blank : list ascii := repeat " "%char width.

Definition clear (l : t) : t :=
  {| col := 0; row := 0; line0 := blank; line1 := blank |}.

Definition init : t := clear {| col := 0; row := 0; line0 := []; line1 := [] |}.

Definition setCursor (c r : nat) (l : t) : t :=
  {| col := c; row := r; line0 := line0 l; line1 := line1 l |}.

Fixpoint put (n : nat) (c : ascii) (line : list ascii) : list ascii :=
  match line, n with
  | [], _ => []
  | _ :: rest, O => c :: rest
  | x :: rest, S n' => x :: put n' c rest
  end.

Definition write (c : ascii) (l : t) : t :=
  match row l with
  | O => {| col := S (col l); row := row l;
            line0 := put (col l) c (line0 l); line1 := line1 l |}
  | _ => {| col := S (col l); row := row l;
            line0 := line0 l; line1 := put (col l) c (line1 l) |}
  end.

Definition print (s : WString) (l : t) : t :=
  fold_left (fun acc c => write c acc) s l.

Definition line (r : nat) (l : t) : list ascii :=
  match r with O => line0 l | _ => line1 l end.

End Lcd.

(* ================================================================= *)
(** ** The sketch                                                     *)
(* ================================================================= *)

Module Firmware.

(** *** Constants *)

Definition LEGACY_STEPS : Z := 68.
Definition MAX_STEPS : Z := 8192.

Definition LOW : Z := 0.
Definition HIGH : Z := 1.
Definition TRIGGER_STATE : Z := LOW.
Definition VOTE_COOLDOWN : Z := 3000.

Definition LCD_PAGE_INTERVAL : Z := 4000.
Definition SCROLL_INTERVAL : Z := 400.

(** The text appended to a scrolling buffer. *)
Definition separator : WString := lit "   ***   ".

(** [String(MAX_SPEED)] for the [float] constant 800.0. *)
Definition MAX_SPEED_text : WString := lit "800.00".

(** *** Globals *)

Record Votes : Type := mkVotes {
  pendingVotesA : Z;
  pendingVotesB : Z;
  lastLdrState1 : Z;
  lastLdrState2 : Z;
  lastVoteTime : Z
}.

Record Display : Type := mkDisplay {
  quizText : WString;
  ans1Text : WString;
  ans2Text : WString;
  qLine1 : WString;
  qLine2 : WString;
  scrollQ : bool;
  scrollA1 : bool;
  scrollA2 : bool;
  lastLcdUpdate : Z;
  showQuestion : bool;
  lastPageSwap : Z;
  scrollPosQ : Z;
  scrollPosA1 : Z;
  scrollPosA2 : Z
}.

Record State : Type := mkState {
  stepper : AccelStepper.t;
  votes : Votes;
  display : Display;
  lcd : Lcd.t;
  serverBegun : bool
}.

(** The initialisers of the globals. *)
Definition initialVotes : Votes :=
  {| pendingVotesA := 0; pendingVotesB := 0;
     lastLdrState1 := -1; lastLdrState2 := -1; lastVoteTime := 0 |}.

Definition initialDisplay : Display :=
  {| quizText := lit "Attesa quiz..."; ans1Text := lit "Pronto";
     ans2Text := lit "online";
     qLine1 := lit "Attesa quiz..."; qLine2 := [];
     scrollQ := false; scrollA1 := false; scrollA2 := false;
     lastLcdUpdate := 0; showQuestion := true; lastPageSwap := 0;
     scrollPosQ := 0; scrollPosA1 := 0; scrollPosA2 := 0 |}.

Definition initial : State :=
  {| stepper := AccelStepper.init; votes := initialVotes;
     display := initialDisplay; lcd := Lcd.init; serverBegun := false |}.

Definition with_stepper (m : AccelStepper.t) (st : State) : State :=
  {| stepper := m; votes := votes st; display := display st;
     lcd := lcd st; serverBegun := serverBegun st |}.

Definition with_votes (v : Votes) (st : State) : State :=
  {| stepper := stepper st; votes := v; display := display st;
     lcd := lcd st; serverBegun := serverBegun st |}.

Definition with_display (d : Display) (st : State) : State :=
  {| stepper := stepper st; votes := votes st; display := d;
     lcd := lcd st; serverBegun := serverBegun st |}.

Definition with_lcd (l : Lcd.t) (st : State) : State :=
  {| stepper := stepper st; votes := votes st; display := display st;
     lcd := l; serverBegun := serverBegun st |}.

(** *** [formatQuestion] *)

(** The search loop [for (int i = start; i >= 0; i--)]: [n] is [i + 1]. *)
Fixpoint findSplit (text : WString) (n : nat) : Z :=
  match n with
  | O => -1
  | S i => if Ascii.eqb (charAt text i) " "%char then Z.of_nat i
           else findSplit text i
  end.

Definition with_layout (l1 l2 : WString) (sc : bool) (d : Display) : Display :=
  {| quizText := quizText d; ans1Text := ans1Text d; ans2Text := ans2Text d;
     qLine1 := l1; qLine2 := l2; scrollQ := sc;
     scrollA1 := scrollA1 d; scrollA2 := scrollA2 d;
     lastLcdUpdate := lastLcdUpdate d; showQuestion := showQuestion d;
     lastPageSwap := lastPageSwap d;
     scrollPosQ := scrollPosQ d; scrollPosA1 := scrollPosA1 d;
     scrollPosA2 := scrollPosA2 d |}.

Definition formatQuestion (d : Display) : Display :=
  let text := quizText d in
  let len := length text in
  if (len <=? 16)%nat then with_layout text [] false d
  else if (len <=? 32)%nat then
    let splitIdx := findSplit text (S (Nat.min 16 (len - 1))) in
    if 0 <? splitIdx then
      let firstPart := substring text 0 (Z.to_nat splitIdx) in
      let secondPart := substring_from text (Z.to_nat splitIdx + 1) in
      if ((length firstPart <=? 16) && (length secondPart <=? 16))%nat
      then with_layout firstPart secondPart false d
      else with_layout [] [] true d
    else with_layout [] [] true d
  else with_layout [] [] true d.

(** *** The HTTP server *)

Inductive HTTPMethod : Type := HTTP_GET | HTTP_POST.

Record Request : Type := mkRequest {
  method : HTTPMethod;
  uri : WString;
  args : list (WString * WString)
}.

Record Response : Type := mkResponse {
  status : Z;
  contentType : WString;
  body : WString
}.

Fixpoint findArg (name : WString) (l : list (WString * WString))
  : option WString :=
  match l with
  | [] => None
  | (k, v) :: rest => if WString_eqb k name then Some v else findArg name rest
  end.

Definition hasArg (r : Request) (name : WString) : bool :=
  match findArg name (args r) with Some _ => true | None => false end.

Definition arg (r : Request) (name : WString) : WString :=
  match findArg name (args r) with Some v => v | None => [] end.

Definition send (code : Z) (type content : WString) : Response :=
  {| status := code; contentType := type; body := content |}.

Definition text_plain : WString := lit "text/plain".

Definition handleRoot (st : State) : State * Response :=
  let body :=
    lit "ESP32 Quiz Motor (AccelStepper) — Online" ++ newline ++ newline
    ++ lit "Endpoint:" ++ newline
    ++ lit "  GET /step           -> " ++ String_of_long LEGACY_STEPS
    ++ lit " passi avanti" ++ newline
    ++ lit "  GET /move?steps=N   -> N half-steps (neg=indietro, max="
    ++ String_of_long MAX_STEPS ++ lit ")" ++ newline ++ newline
    ++ lit "Posizione attuale: "
    ++ String_of_long (AccelStepper.currentPosition (stepper st))
    ++ lit " steps" ++ newline
    ++ lit "Velocita' max: " ++ MAX_SPEED_text ++ lit " step/s" ++ newline in
  (st, send 200 text_plain body).

Definition handleStep (st : State) : State * Response :=
  let m := AccelStepper.enableOutputs (stepper st) in
  let m := AccelStepper.move LEGACY_STEPS m in
  (with_stepper m st,
   send 200 text_plain
     (lit "OK - /step: " ++ String_of_long LEGACY_STEPS
      ++ lit " passi impostati")).

Definition handleMove (r : Request) (st : State) : State * Response :=
  if negb (hasArg r (lit "steps")) then
    (st, send 400 text_plain
           (lit "ERRORE: parametro 'steps' mancante. Usa /move?steps=N"))
  else
    let raw := arg r (lit "steps") in
    let steps := toInt raw in
    if (steps =? 0) && negb (WString_eqb raw (lit "0")) then
      (st, send 400 text_plain (lit "ERRORE: valore non numerico: " ++ raw))
    else if labs steps >? MAX_STEPS then
      (st, send 400 text_plain
             (lit "ERRORE: troppi passi (" ++ String_of_long steps
              ++ lit "). Max: " ++ String_of_long MAX_STEPS))
    else
      let m := AccelStepper.enableOutputs (stepper st) in
      let m := AccelStepper.move steps m in
      (with_stepper m st, send 200 text_plain (lit "OK - Movimento impostato")).

(** [millis] is the value returned by the handler's call of [millis()]. *)
Definition handleQuiz (r : Request) (millis : Z) (st : State)
  : State * Response :=
  let d := display st in
  let quiz := if hasArg r (lit "q") then arg r (lit "q") else quizText d in
  let ans1 := if hasArg r (lit "a1") then arg r (lit "a1") else ans1Text d in
  let ans2 := if hasArg r (lit "a2") then arg r (lit "a2") else ans2Text d in
  let d := formatQuestion
    {| quizText := quiz; ans1Text := ans1; ans2Text := ans2;
       qLine1 := qLine1 d; qLine2 := qLine2 d; scrollQ := scrollQ d;
       scrollA1 := scrollA1 d; scrollA2 := scrollA2 d;
       lastLcdUpdate := lastLcdUpdate d; showQuestion := showQuestion d;
       lastPageSwap := lastPageSwap d;
       scrollPosQ := scrollPosQ d; scrollPosA1 := scrollPosA1 d;
       scrollPosA2 := scrollPosA2 d |} in
  let sA1 := (16 <? length ans1)%nat in
  let sA2 := (16 <? length ans2)%nat in
  let d :=
    {| quizText := if scrollQ d then quizText d ++ separator else quizText d;
       ans1Text := if sA1 then ans1 ++ separator else ans1;
       ans2Text := if sA2 then ans2 ++ separator else ans2;
       qLine1 := qLine1 d; qLine2 := qLine2 d; scrollQ := scrollQ d;
       scrollA1 := sA1; scrollA2 := sA2;
       lastLcdUpdate := lastLcdUpdate d; showQuestion := true;
       lastPageSwap := wrap_ulong (millis - LCD_PAGE_INTERVAL);
       scrollPosQ := 0; scrollPosA1 := 0; scrollPosA2 := 0 |} in
  (with_display d st, send 200 text_plain (lit "OK - Quiz aggiornato su LCD")).

Definition with_pending (a b : Z) (v : Votes) : Votes :=
  {| pendingVotesA := a; pendingVotesB := b;
     lastLdrState1 := lastLdrState1 v; lastLdrState2 := lastLdrState2 v;
     lastVoteTime := lastVoteTime v |}.

(** The reply [{"A":a,"B":b}]. *)
Definition votesJson (a b : Z) : WString :=
  lit "{" ++ dquote ++ lit "A" ++ dquote ++ lit ":" ++ String_of_long a
  ++ lit "," ++ dquote ++ lit "B" ++ dquote ++ lit ":" ++ String_of_long b
  ++ lit "}".

Definition handlePollVotes (st : State) : State * Response :=
  let json := votesJson (pendingVotesA (votes st)) (pendingVotesB (votes st)) in
  let v := with_pending 0 (pendingVotesB (votes st)) (votes st) in
  let v := with_pending (pendingVotesA v) 0 v in
  (with_votes v st, send 200 (lit "application/json") json).

(** [server.handleClient()]: the pending request, when there is one and the
    server was started, goes to the handler registered for its path with
    [server.on(path, HTTP_GET, handler)]; any other request is answered by
    the server library itself with a 404, which no handler of the sketch
    sees. *)
Definition handleClient (req : option Request) (millis : Z) (st : State)
  : State * option Response :=
  match req with
  | None => (st, None)
  | Some r =>
      if negb (serverBegun st) then (st, None)
      else
        let reply (p : State * Response) := (fst p, Some (snd p)) in
        match method r with
        | HTTP_GET =>
            if WString_eqb (uri r) (lit "/") then reply (handleRoot st)
            else if WString_eqb (uri r) (lit "/step") then
              reply (handleStep st)
            else if WString_eqb (uri r) (lit "/move") then
              reply (handleMove r st)
            else if WString_eqb (uri r) (lit "/quiz") then
              reply (handleQuiz r millis st)
            else if WString_eqb (uri r) (lit "/poll_votes") then
              reply (handlePollVotes st)
            else (st, Some (send 404 text_plain (lit "Not found: " ++ uri r)))
        | HTTP_POST =>
            (st, Some (send 404 text_plain (lit "Not found: " ++ uri r)))
        end
  end.

(** *** [printLcdLine] *)

(** Conversion of an [int] to [unsigned int], as an index. *)
Definition to_index (i : Z) : nat := Z.to_nat (wrap_ulong i).

(** [for (int i = text.length(); i < 16; i++) lcd.print(" ");] run for [n]
    rounds. *)
Fixpoint padLoop (n : nat) (l : Lcd.t) : Lcd.t :=
  match n with
  | O => l
  | S n' => padLoop n' (Lcd.print (lit " ") l)
  end.

(** The window shown in scroll mode. *)
Definition scrollWindow (text : WString) (pos : Z) : WString :=
  let disp := substring text (to_index pos) (to_index (pos + 16)) in
  if (length disp <? 16)%nat
  then disp ++ substring text 0 (16 - length disp)
  else disp.

(** The characters sent to the display in static mode. *)
Definition staticRun (text : WString) : WString :=
  text ++ repeat " "%char (16 - length text).

(** [pos] is passed by reference: the function returns its new value. *)
Definition printLcdLine (row : nat) (text : WString) (pos : Z) (scroll : bool)
  (l : Lcd.t) : Lcd.t * Z :=
  let l := Lcd.setCursor 0 row l in
  if negb scroll then
    let l := Lcd.print text l in
    (padLoop (16 - length text) l, pos)
  else
    let l := Lcd.print (scrollWindow text pos) l in
    let pos := wrap_long (pos + 1) in
    if Z.of_nat (length text) <=? wrap_ulong pos then (l, 0) else (l, pos).

(** *** [loop] *)

(** What one iteration of [loop()] reads from the outside world, in the
    order the sketch asks for it. *)
Record LoopInput : Type := mkLoopInput {
  request : option Request;   (* served by [server.handleClient()] *)
  millis_quiz : Z;            (* [millis()] inside [handleQuiz] *)
  millis_now : Z;             (* [unsigned long now = millis()] *)
  step_due : bool;            (* whether [stepper.run()] finds a step due *)
  ldr1 : Z;                   (* [digitalRead(LDR_PIN_1)] *)
  ldr2 : Z;                   (* [digitalRead(LDR_PIN_2)] *)
  millis_check1 : Z;          (* [millis()] in the cooldown test, sensor 1 *)
  millis_vote1 : Z;           (* [lastVoteTime = millis()], sensor 1 *)
  millis_check2 : Z;          (* [millis()] in the cooldown test, sensor 2 *)
  millis_vote2 : Z            (* [lastVoteTime = millis()], sensor 2 *)
}.

(** Which of the two exclusive activities an iteration performed. *)
Inductive Activity : Type := AdvanceMotion | PollSensors.

Definition currentInterval (d : Display) : Z :=
  if showQuestion d then
    if scrollQ d then
      wrap_ulong (Z.of_nat (length (quizText d)) * SCROLL_INTERVAL + 1500)
    else LCD_PAGE_INTERVAL
  else
    if scrollA1 d || scrollA2 d then
      let maxLen := length (ans1Text d) in
      let maxLen := if (maxLen <? length (ans2Text d))%nat
                    then length (ans2Text d) else maxLen in
      wrap_ulong (Z.of_nat maxLen * SCROLL_INTERVAL + 1500)
    else LCD_PAGE_INTERVAL.

Definition with_page (page : bool) (swapTime : Z) (pQ pA1 pA2 : Z)
  (d : Display) : Display :=
  {| quizText := quizText d; ans1Text := ans1Text d; ans2Text := ans2Text d;
     qLine1 := qLine1 d; qLine2 := qLine2 d; scrollQ := scrollQ d;
     scrollA1 := scrollA1 d; scrollA2 := scrollA2 d;
     lastLcdUpdate := lastLcdUpdate d; showQuestion := page;
     lastPageSwap := swapTime;
     scrollPosQ := pQ; scrollPosA1 := pA1; scrollPosA2 := pA2 |}.

Definition with_lastLcdUpdate (t : Z) (d : Display) : Display :=
  {| quizText := quizText d; ans1Text := ans1Text d; ans2Text := ans2Text d;
     qLine1 := qLine1 d; qLine2 := qLine2 d; scrollQ := scrollQ d;
     scrollA1 := scrollA1 d; scrollA2 := scrollA2 d;
     lastLcdUpdate := t; showQuestion := showQuestion d;
     lastPageSwap := lastPageSwap d;
     scrollPosQ := scrollPosQ d; scrollPosA1 := scrollPosA1 d;
     scrollPosA2 := scrollPosA2 d |}.

(** "Scambia pagina ogni currentInterval". *)
Definition swapPage (now : Z) (st : State) : State :=
  let d := display st in
  if wrap_ulong (now - lastPageSwap d) >? currentInterval d then
    with_lcd (Lcd.clear (lcd st))
      (with_display (with_page (negb (showQuestion d)) now 0 0 0 d) st)
  else st.

(** "Aggiorna LCD ogni SCROLL_INTERVAL". *)
Definition refreshLcd (now : Z) (st : State) : State :=
  let d := display st in
  if wrap_ulong (now - lastLcdUpdate d) >? SCROLL_INTERVAL then
    let '(l, d) :=
      if showQuestion d then
        if scrollQ d then
          let l := Lcd.setCursor 0 0 (lcd st) in
          let l := Lcd.print (lit "Domanda:        ") l in
          let '(l, p) := printLcdLine 1 (quizText d) (scrollPosQ d) true l in
          (l, with_page (showQuestion d) (lastPageSwap d)
                p (scrollPosA1 d) (scrollPosA2 d) d)
        else
          let '(l, p) := printLcdLine 0 (qLine1 d) (scrollPosQ d) false (lcd st) in
          let '(l, p) := printLcdLine 1 (qLine2 d) p false l in
          (l, with_page (showQuestion d) (lastPageSwap d)
                p (scrollPosA1 d) (scrollPosA2 d) d)
      else
        let '(l, p1) :=
          printLcdLine 0 (ans1Text d) (scrollPosA1 d) (scrollA1 d) (lcd st) in
        let '(l, p2) :=
          printLcdLine 1 (ans2Text d) (scrollPosA2 d) (scrollA2 d) l in
        (l, with_page (showQuestion d) (lastPageSwap d)
              (scrollPosQ d) p1 p2 d) in
    with_lcd l (with_display (with_lastLcdUpdate now d) st)
  else st.

Definition with_lastLdr (l1 l2 : Z) (v : Votes) : Votes :=
  {| pendingVotesA := pendingVotesA v; pendingVotesB := pendingVotesB v;
     lastLdrState1 := l1; lastLdrState2 := l2;
     lastVoteTime := lastVoteTime v |}.

Definition with_lastVoteTime (t : Z) (v : Votes) : Votes :=
  {| pendingVotesA := pendingVotesA v; pendingVotesB := pendingVotesB v;
     lastLdrState1 := lastLdrState1 v; lastLdrState2 := lastLdrState2 v;
     lastVoteTime := t |}.

(** "Controlliamo il Sensore 1". *)
Definition checkSensor1 (inp : LoopInput) (st : State) : State :=
  let v := votes st in
  if (ldr1 inp =? TRIGGER_STATE) && negb (lastLdrState1 v =? TRIGGER_STATE)
  then
    if wrap_ulong (millis_check1 inp - lastVoteTime v) >? VOTE_COOLDOWN then
      let v := with_pending (wrap_long (pendingVotesA v + 1))
                 (pendingVotesB v) v in
      let m := AccelStepper.enableOutputs (stepper st) in
      let m := AccelStepper.move LEGACY_STEPS m in
      let v := with_lastVoteTime (millis_vote1 inp) v in
      with_stepper m (with_votes v st)
    else st
  else st.

(** "Controlliamo il Sensore 2". *)
Definition checkSensor2 (inp : LoopInput) (st : State) : State :=
  let v := votes st in
  if (ldr2 inp =? TRIGGER_STATE) && negb (lastLdrState2 v =? TRIGGER_STATE)
  then
    if wrap_ulong (millis_check2 inp - lastVoteTime v) >? VOTE_COOLDOWN then
      let v := with_pending (pendingVotesA v)
                 (wrap_long (pendingVotesB v + 1)) v in
      let m := AccelStepper.enableOutputs (stepper st) in
      let m := AccelStepper.move (- LEGACY_STEPS) m in
      let v := with_lastVoteTime (millis_vote2 inp) v in
      with_stepper m (with_votes v st)
    else st
  else st.

(** "GESTIONE MOTORE E SENSORI": the last statement of [loop()]. *)
Definition motorAndSensors (inp : LoopInput) (st : State)
  : State * list Activity :=
  if negb (AccelStepper.distanceToGo (stepper st) =? 0) then
    (with_stepper (AccelStepper.run (step_due inp) (stepper st)) st,
     [AdvanceMotion])
  else
    let st := with_stepper (AccelStepper.disableOutputs (stepper st)) st in
    let st := checkSensor1 inp st in
    let st := checkSensor2 inp st in
    (with_votes (with_lastLdr (ldr1 inp) (ldr2 inp) (votes st)) st,
     [PollSensors]).

Record LoopResult : Type := mkLoopResult {
  next : State;
  reply : option Response;
  activity : list Activity
}.

Definition loop (inp : LoopInput) (st : State) : LoopResult :=
  let '(st, resp) := handleClient (request inp) (millis_quiz inp) st in
  let now := millis_now inp in
  let st := swapPage now st in
  let st := refreshLcd now st in
  let '(st, act) := motorAndSensors inp st in
  {| next := st; reply := resp; activity := act |}.

(** Successive iterations of [loop()]. *)
Fixpoint loops (inps : list LoopInput) (st : State) : State :=
  match inps with
  | [] => st
  | inp :: rest => loops rest (next (loop inp st))
  end.

(** *** [setup] *)

(** [clock1] and [clock2] feed the two blocking test moves; [wifi] tells
    whether the network was joined within the 40 attempts.  When it was not,
    [setup] returns before [server.begin()].  [setMaxSpeed] and
    [setAcceleration] only bear on when a step is due, which is an input of
    the model. *)
Definition setup (clock1 clock2 : list bool) (wifi : bool) (st : State)
  : State :=
  let m := AccelStepper.disableOutputs (stepper st) in
  let l := Lcd.clear (lcd st) in
  let l := Lcd.print (lit "ESP32 Avvio...") (Lcd.setCursor 0 0 l) in
  let l := Lcd.print (lit "Versione 1.0") (Lcd.setCursor 0 1 l) in
  let m := AccelStepper.move 64 (AccelStepper.enableOutputs m) in
  let m := AccelStepper.runToIdle clock1 m in
  let m := AccelStepper.move (-64) m in
  let m := AccelStepper.runToIdle clock2 m in
  let m := AccelStepper.disableOutputs m in
  if wifi then
    let l := Lcd.print (lit "Server HTTP OK") (Lcd.setCursor 0 0 (Lcd.clear l)) in
    {| stepper := m; votes := votes st; display := display st; lcd := l;
       serverBegun := true |}
  else
    {| stepper := m; votes := votes st; display := display st; lcd := l;
       serverBegun := false |}.

End Firmware.
Import Firmware.

(* ================================================================= *)
(** ** Vocabulary of the statements                                   *)
(* ================================================================= *)

(** Number of invocations of [run()] that find a step due. *)
Definition dueCount (clock : list bool) : Z :=
  Z.of_nat (count_occ bool_dec clock true).

(** An iteration during which no HTTP request is pending. *)
Definition quiet (inp : LoopInput) : Prop := request inp = None.

(** The state in which [loop()] first runs when the network was joined and
    every invocation of [run()] during the two test moves found a step
    due. *)
Definition booted : State :=
  setup (repeat true 64) (repeat true 64) true initial.

(** A query parameter [key=value]. *)
Definition param (key value : string) : string * string := (key, value).

(** A [GET] request for [path] carrying the given query parameters. *)
Definition GET (path : string) (query : list (string * string)) : Request :=
  {| method := HTTP_GET; uri := lit path;
     args := map (fun kv => (lit (fst kv), lit (snd kv))) query |}.

(** "Numeric", read as the text of a decimal integer: an optional sign
    followed by one or more digits and nothing else. *)
Definition isNumeric (raw : WString) : bool :=
  match raw with
  | [] => false
  | c :: r =>
      if Ascii.eqb c "-"%char || Ascii.eqb c "+"%char
      then negb (Nat.eqb (length r) 0) && forallb isdigit r
      else forallb isdigit raw
  end.

(** The condition under which [handleMove] refuses a request. *)
Definition moveRejected (r : Request) : Prop :=
  hasArg r (lit "steps") = false
  \/ (toInt (arg r (lit "steps")) = 0 /\ arg r (lit "steps") <> lit "0")
  \/ Z.abs (toInt (arg r (lit "steps"))) > MAX_STEPS.

(** An iteration in which neither sensor reads the trigger level. *)
Definition calm (inp : LoopInput) : Prop :=
  ldr1 inp <> TRIGGER_STATE /\ ldr2 inp <> TRIGGER_STATE.

(** The state once [server.handleClient()] has returned. *)
Definition afterRequest (inp : LoopInput) (st : State) : State :=
  fst (handleClient (request inp) (millis_quiz inp) st).

(** The state on which the last statement of [loop()], the choice between
    motor and sensors, runs. *)
Definition beforeMotor (inp : LoopInput) (st : State) : State :=
  refreshLcd (millis_now inp) (swapPage (millis_now inp) (afterRequest inp st)).

(** Iterations none of which polls the sensors. *)
Fixpoint neverPolled (inps : list LoopInput) (st : State) : Prop :=
  match inps with
  | [] => True
  | inp :: rest =>
      activity (loop inp st) = [AdvanceMotion]
      /\ neverPolled rest (next (loop inp st))
  end.

(** Sensor 1, respectively sensor 2, reads the trigger level. *)
Definition held1 (inp : LoopInput) : Prop := ldr1 inp = TRIGGER_STATE.
Definition held2 (inp : LoopInput) : Prop := ldr2 inp = TRIGGER_STATE.

(** The poll finds sensor 1 freshly at the trigger level with the cooldown
    elapsed, [v] being the vote state it starts from. *)
Definition sensor1Votes (inp : LoopInput) (v : Votes) : Prop :=
  ldr1 inp = TRIGGER_STATE /\ lastLdrState1 v <> TRIGGER_STATE
  /\ wrap_ulong (millis_check1 inp - lastVoteTime v) > VOTE_COOLDOWN.

(** A quiet iteration that starts at time [t] and takes less than a
    millisecond, with a step due and the given sensor levels. *)
Definition tick (t level1 level2 : Z) : LoopInput :=
  {| request := None; millis_quiz := t; millis_now := t; step_due := true;
     ldr1 := level1; ldr2 := level2;
     millis_check1 := t; millis_vote1 := t;
     millis_check2 := t; millis_vote2 := t |}.

(** [n] iterations one millisecond apart, from time [t] on. *)
Definition ticks (t : Z) (n : nat) (level1 level2 : Z) : list LoopInput :=
  map (fun k => tick (t + Z.of_nat k) level1 level2) (seq 0 n).

(** Iterations one second apart, from time [t] on. *)
Definition seconds (t : Z) (n : nat) (level1 level2 : Z) : list LoopInput :=
  map (fun k => tick (t + 1000 * Z.of_nat k) level1 level2) (seq 0 n).

(** The activities of successive iterations, in order. *)
Fixpoint activities (inps : list LoopInput) (st : State) : list Activity :=
  match inps with
  | [] => []
  | inp :: rest => activity (loop inp st) ++ activities rest (next (loop inp st))
  end.

(** The display state once [text] has been stored as the question and
    [formatQuestion()] has run, as in [handleQuiz]. *)
Definition setQuestion (text : WString) (d : Display) : Display :=
  formatQuestion
    {| quizText := text; ans1Text := ans1Text d; ans2Text := ans2Text d;
       qLine1 := qLine1 d; qLine2 := qLine2 d; scrollQ := scrollQ d;
       scrollA1 := scrollA1 d; scrollA2 := scrollA2 d;
       lastLcdUpdate := lastLcdUpdate d; showQuestion := showQuestion d;
       lastPageSwap := lastPageSwap d;
       scrollPosQ := scrollPosQ d; scrollPosA1 := scrollPosA1 d;
       scrollPosA2 := scrollPosA2 d |}.

Definition isSpace (text : WString) (i : nat) : Prop :=
  charAt text i = " "%char.

(** [s] is the last space of [text] among the indices 0 to 16. *)
Definition lastSpace (text : WString) (s : nat) : Prop :=
  (s <= 16)%nat /\ isSpace text s
  /\ forall i, (s < i <= 16)%nat -> ~ isSpace text i.

(** No space of [text] below index [n], as a test. *)
Definition noSpaceBelow (text : WString) (n : nat) : bool :=
  forallb (fun i => negb (Ascii.eqb (charAt text i) " "%char)) (seq 0 n).

(** Both lines of the display hold 16 characters. *)
Definition wellFormed (l : Lcd.t) : Prop :=
  length (Lcd.line0 l) = 16%nat /\ length (Lcd.line1 l) = 16%nat.

(** The texts agree with the modes they are drawn in: what is drawn
    statically has at most 16 characters, what is scrolled at least 16. *)
Definition modesFit (d : Display) : Prop :=
  (length (qLine1 d) <= 16)%nat /\ (length (qLine2 d) <= 16)%nat
  /\ (if scrollA1 d then 16 <= length (ans1Text d)
      else length (ans1Text d) <= 16)%nat
  /\ (if scrollA2 d then 16 <= length (ans2Text d)
      else length (ans2Text d) <= 16)%nat
  /\ (scrollQ d = true -> (16 <= length (quizText d))%nat).

(** A scroll cursor within its text, for texts an [int] can index. *)
Definition cursorOk (text : WString) (pos : Z) : Prop :=
  Z.of_nat (length text) < 2 ^ 31 -> 0 <= pos < Z.of_nat (length text).

Definition cursorsFit (d : Display) : Prop :=
  (scrollQ d = true -> cursorOk (quizText d) (scrollPosQ d))
  /\ (scrollA1 d = true -> cursorOk (ans1Text d) (scrollPosA1 d))
  /\ (scrollA2 d = true -> cursorOk (ans2Text d) (scrollPosA2 d)).

(** What every state the sketch reaches satisfies. *)
Definition displayOk (st : State) : Prop :=
  modesFit (display st) /\ cursorsFit (display st) /\ wellFormed (lcd st).

(** The three texts are short enough for an [int] to index them. *)
Definition indexable (d : Display) : Prop :=
  Z.of_nat (length (quizText d)) < 2 ^ 31
  /\ Z.of_nat (length (ans1Text d)) < 2 ^ 31
  /\ Z.of_nat (length (ans2Text d)) < 2 ^ 31.

(** What the two lines are to show for the page, modes, texts and cursors
    of [d]. *)
Definition expectedLine0 (d : Display) : WString :=
  if showQuestion d then
    if scrollQ d then lit "Domanda:        " else staticRun (qLine1 d)
  else
    if scrollA1 d then scrollWindow (ans1Text d) (scrollPosA1 d)
    else staticRun (ans1Text d).

Definition expectedLine1 (d : Display) : WString :=
  if showQuestion d then
    if scrollQ d then scrollWindow (quizText d) (scrollPosQ d)
    else staticRun (qLine2 d)
  else
    if scrollA2 d then scrollWindow (ans2Text d) (scrollPosA2 d)
    else staticRun (ans2Text d).

(** *** Vocabulary of the further properties *)

(** [GET /move?steps=raw]. *)
Definition moveRequest (raw : WString) : Request :=
  {| method := HTTP_GET; uri := lit "/move"; args := [(lit "steps", raw)] |}.

(** A text at whose start the reading of digits stops: empty, or beginning
    with a character that is not a digit. *)
Definition stops (rest : WString) : Prop :=
  match rest with
  | [] => True
  | c :: _ => isdigit c = false
  end.

(** The drive lines are energised whenever a move is outstanding. *)
Definition energised (st : State) : Prop :=
  AccelStepper.distanceToGo (stepper st) <> 0 ->
  AccelStepper.outputsEnabled (stepper st) = true.

(** The replies of successive iterations, in order. *)
Fixpoint replies (inps : list LoopInput) (st : State)
  : list (option Response) :=
  match inps with
  | [] => []
  | inp :: rest => reply (loop inp st) :: replies rest (next (loop inp st))
  end.

(** The same iteration with no request pending. *)
Definition withoutRequest (inp : LoopInput) : LoopInput :=
  {| request := None; millis_quiz := millis_quiz inp;
     millis_now := millis_now inp; step_due := step_due inp;
     ldr1 := ldr1 inp; ldr2 := ldr2 inp;
     millis_check1 := millis_check1 inp; millis_vote1 := millis_vote1 inp;
     millis_check2 := millis_check2 inp; millis_vote2 := millis_vote2 inp |}.

(** What the display is to show: the three texts, the two lines of the
    question and the three scroll flags. *)
Definition contents (d : Display)
  : WString * WString * WString * WString * WString * bool * bool * bool :=
  (quizText d, ans1Text d, ans2Text d, qLine1 d, qLine2 d,
   scrollQ d, scrollA1 d, scrollA2 d).

(** The request of the iteration, if any, is not a [GET /quiz]. *)
Definition notQuiz (inp : LoopInput) : Prop :=
  forall r, request inp = Some r ->
            method r = HTTP_GET -> uri r <> lit "/quiz".

(** [n] successive calls of [printLcdLine] in scroll mode on the same row
    and text, each starting from the cursor the previous one left. *)
Fixpoint renders (n : nat) (r : nat) (text : WString) (pos : Z) (l : Lcd.t)
  : Lcd.t * Z :=
  match n with
  | O => (l, pos)
  | S k => renders k r text (snd (printLcdLine r text pos true l))
             (fst (printLcdLine r text pos true l))
  end.

(** The text after the first occurrence of [c]. *)
Fixpoint afterChar (c : ascii) (s : WString) : WString :=
  match s with
  | [] => []
  | x :: rest => if Ascii.eqb x c then rest else afterChar c rest
  end.

(** A reader of the reply of [/poll_votes]: the integer after the first
    colon and the integer after the colon that follows the comma. *)
Definition readVotes (json : WString) : Z * Z :=
  (toInt (afterChar ":"%char json),
   toInt (afterChar ":"%char (afterChar ","%char json))).

(* ================================================================= *)
(** ** Properties of the motion controller                            *)
(* ================================================================= *)

Section Motion.

Import AccelStepper.

Lemma dueCount_cons (b : bool) (clock : list bool) :
  dueCount (b :: clock) = (if b then 1 else 0) + dueCount clock.
Proof.
  unfold dueCount. simpl. destruct b; destruct (bool_dec _ _); try congruence; lia.
Qed.

Lemma dueCount_nonneg (clock : list bool) : 0 <= dueCount clock.
Proof. unfold dueCount. lia. Qed.

Lemma run_target (due : bool) (s : t) : targetPos (run due s) = targetPos s.
Proof. unfold run. destruct (_ =? 0); [|destruct due]; reflexivity. Qed.

Lemma run_outputs (due : bool) (s : t) :
  outputsEnabled (run due s) = outputsEnabled s.
Proof. unfold run. destruct (_ =? 0); [|destruct due]; reflexivity. Qed.

(** One invocation moves the position by at most one step, towards the
    target, and by exactly one when a step is due and the motor is not
    idle. *)
Lemma run_position (due : bool) (s : t) :
  currentPos (run due s) =
    if due then currentPos s + Z.sgn (distanceToGo s) else currentPos s.
Proof.
  unfold run. destruct (distanceToGo s =? 0) eqn:E.
  - apply Z.eqb_eq in E. rewrite E. destruct due; simpl; lia.
  - destruct due; reflexivity.
Qed.

Lemma runToIdle_target (clock : list bool) :
  forall s, targetPos (runToIdle clock s) = targetPos s.
Proof.
  induction clock as [|b clock IH]; intros s; simpl;
    destruct (distanceToGo s =? 0); try reflexivity.
  rewrite IH. apply run_target.
Qed.

(** The position never leaves the segment between where the motor was and
    its target. *)
Lemma runToIdle_between (clock : list bool) :
  forall s,
    Z.abs (currentPos (runToIdle clock s) - currentPos s)
    + Z.abs (targetPos s - currentPos (runToIdle clock s))
    = Z.abs (targetPos s - currentPos s).
Proof.
  induction clock as [|b clock IH]; intros s; simpl;
    destruct (distanceToGo s =? 0) eqn:E; try lia.
  specialize (IH (run b s)).
  rewrite run_target, run_position in IH.
  apply Z.eqb_neq in E. unfold distanceToGo in *.
  destruct b; lia.
Qed.

(** The number of steps taken is the number of due invocations, as long as
    the target is not reached. *)
Lemma runToIdle_reaches (clock : list bool) :
  forall s,
    Z.abs (distanceToGo s) <= dueCount clock ->
    currentPos (runToIdle clock s) = targetPos s.
Proof.
  induction clock as [|b clock IH]; intros s H; simpl;
    destruct (distanceToGo s =? 0) eqn:E.
  - apply Z.eqb_eq in E. unfold distanceToGo in E. lia.
  - apply Z.eqb_neq in E. unfold dueCount in H. simpl in H. lia.
  - apply Z.eqb_eq in E. unfold distanceToGo in E. lia.
  - apply Z.eqb_neq in E. rewrite dueCount_cons in H.
    rewrite IH; [apply run_target|].
    unfold distanceToGo in *. rewrite run_target, run_position.
    unfold distanceToGo. destruct b; lia.
Qed.

(** Each due invocation contributes one step: nothing is lost. *)
Lemma runToIdle_steps (clock : list bool) :
  forall s,
    dueCount clock <= Z.abs (distanceToGo s) ->
    Z.abs (currentPos (runToIdle clock s) - currentPos s) = dueCount clock.
Proof.
  induction clock as [|b clock IH]; intros s H; simpl;
    destruct (distanceToGo s =? 0) eqn:E.
  - unfold dueCount; simpl; lia.
  - unfold dueCount; simpl; lia.
  - apply Z.eqb_eq in E. pose proof (dueCount_nonneg (b :: clock)). lia.
  - apply Z.eqb_neq in E. rewrite dueCount_cons in *.
    assert (H1 : dueCount clock <= Z.abs (distanceToGo (run b s))).
    { unfold distanceToGo in *. rewrite run_target, run_position.
      unfold distanceToGo. destruct b; lia. }
    specialize (IH _ H1).
    pose proof (runToIdle_between clock (run b s)) as Hb.
    rewrite run_target in Hb. rewrite run_position in *.
    unfold distanceToGo in *. rewrite ?run_target, ?run_position in *.
    unfold distanceToGo in *. destruct b; lia.
Qed.

Lemma runToIdle_nil (s : t) : runToIdle [] s = s.
Proof. simpl. destruct (_ =? 0); reflexivity. Qed.

End Motion.

(* ================================================================= *)
(** ** Frame lemmas for the parts of [loop]                           *)
(* ================================================================= *)

Lemma swapPage_stepper now st : stepper (swapPage now st) = stepper st.
Proof. unfold swapPage. destruct (_ >? _); reflexivity. Qed.

Lemma swapPage_votes now st : votes (swapPage now st) = votes st.
Proof. unfold swapPage. destruct (_ >? _); reflexivity. Qed.

Lemma refreshLcd_stepper now st : stepper (refreshLcd now st) = stepper st.
Proof.
  unfold refreshLcd. destruct (_ >? _); [|reflexivity].
  destruct (if showQuestion (display st) then _ else _). reflexivity.
Qed.

Lemma refreshLcd_votes now st : votes (refreshLcd now st) = votes st.
Proof.
  unfold refreshLcd. destruct (_ >? _); [|reflexivity].
  destruct (if showQuestion (display st) then _ else _). reflexivity.
Qed.

(** [loop()] in four steps. *)
Lemma loop_unfold inp st :
  next (loop inp st) = fst (motorAndSensors inp (beforeMotor inp st))
  /\ activity (loop inp st) = snd (motorAndSensors inp (beforeMotor inp st))
  /\ reply (loop inp st) = snd (handleClient (request inp) (millis_quiz inp) st)
  /\ stepper (beforeMotor inp st) = stepper (afterRequest inp st)
  /\ votes (beforeMotor inp st) = votes (afterRequest inp st).
Proof.
  unfold loop, beforeMotor, afterRequest.
  destruct (handleClient _ _ _) as [st1 resp]. simpl.
  destruct (motorAndSensors _ _) as [st3 act]. simpl.
  rewrite refreshLcd_stepper, swapPage_stepper, refreshLcd_votes, swapPage_votes.
  repeat split.
Qed.

Lemma afterRequest_quiet inp st : quiet inp -> afterRequest inp st = st.
Proof. unfold quiet, afterRequest. intros H. rewrite H. reflexivity. Qed.

(** While the motor is moving, a quiet iteration is one invocation of
    [stepper.run()] and leaves the vote state alone. *)
Lemma loop_quiet_moving inp st :
  quiet inp -> AccelStepper.distanceToGo (stepper st) <> 0 ->
  stepper (next (loop inp st)) = AccelStepper.run (step_due inp) (stepper st)
  /\ votes (next (loop inp st)) = votes st.
Proof.
  intros Hq Hd. destruct (loop_unfold inp st) as (Hn & _ & _ & Hs & Hv).
  rewrite Hn. rewrite (afterRequest_quiet inp st Hq) in Hs, Hv.
  unfold motorAndSensors. rewrite Hs.
  apply Z.eqb_neq in Hd. rewrite Hd. simpl. rewrite Hv. split; reflexivity.
Qed.

Lemma loops_quiet_motor (inps : list LoopInput) :
  forall st,
    Forall quiet inps ->
    dueCount (removelast (map step_due inps))
      < Z.abs (AccelStepper.distanceToGo (stepper st)) ->
    stepper (loops inps st)
    = AccelStepper.runToIdle (map step_due inps) (stepper st).
Proof.
  induction inps as [|inp rest IH]; intros st Hq Hd.
  - simpl. destruct (_ =? 0); reflexivity.
  - inversion Hq as [|? ? Hq1 Hq2]; subst.
    assert (Hne : AccelStepper.distanceToGo (stepper st) <> 0).
    { pose proof (dueCount_nonneg (removelast (map step_due (inp :: rest)))).
      lia. }
    destruct (loop_quiet_moving inp st Hq1 Hne) as [Hs _].
    cbn [loops map AccelStepper.runToIdle].
    apply Z.eqb_neq in Hne. rewrite Hne. apply Z.eqb_neq in Hne.
    destruct rest as [|inp2 rest'].
    + simpl. rewrite Hs. destruct (_ =? 0); reflexivity.
    + rewrite IH; [rewrite Hs; reflexivity|assumption|].
      rewrite Hs. change (map step_due (inp :: inp2 :: rest'))
        with (step_due inp :: map step_due (inp2 :: rest')) in Hd.
      change (removelast (step_due inp :: map step_due (inp2 :: rest')))
        with (step_due inp :: removelast (map step_due (inp2 :: rest'))) in Hd.
      rewrite dueCount_cons in Hd.
      unfold AccelStepper.distanceToGo in *.
      rewrite run_target, run_position. unfold AccelStepper.distanceToGo.
      destruct (step_due inp); lia.
Qed.

(* ================================================================= *)
(** ** C1: a relative move is executed exactly                        *)
(* ================================================================= *)

(** C1.  From an idle motor, a relative move of [delta] with
    [|delta| <= MAX_STEPS] followed by invocations of [stepper.run()] until
    the motor is idle ends with [currentPosition - initialPosition = delta]:
    as soon as [|delta|] invocations found a step due the loop is left with
    the motor idle exactly [delta] steps away (nothing lost), and whatever
    the step clock does the position stays between the start and the target
    (no overshoot).  The same holds when the invocations are the ones made
    by successive quiet iterations of [loop()]. *)
Theorem C1_relative_move_exact :
  forall (st : State) (delta : Z),
    AccelStepper.distanceToGo (stepper st) = 0 ->
    Z.abs delta <= MAX_STEPS ->
    let m0 := stepper st in
    let m1 := AccelStepper.move delta (AccelStepper.enableOutputs m0) in
    (forall clock,
        Z.abs delta <= dueCount clock ->
        let m := AccelStepper.runToIdle clock m1 in
        AccelStepper.distanceToGo m = 0
        /\ AccelStepper.currentPos m - AccelStepper.currentPos m0 = delta)
    /\ (forall clock,
        let p := AccelStepper.currentPos (AccelStepper.runToIdle clock m1) in
        Z.abs (p - AccelStepper.currentPos m0)
        + Z.abs (AccelStepper.currentPos m0 + delta - p) = Z.abs delta)
    /\ (forall inps,
        Forall quiet inps ->
        dueCount (removelast (map step_due inps)) < Z.abs delta
          <= dueCount (map step_due inps) ->
        let m := stepper (loops inps (with_stepper m1 st)) in
        AccelStepper.distanceToGo m = 0
        /\ AccelStepper.currentPos m - AccelStepper.currentPos m0 = delta).
Proof.
  intros st delta Hidle Hmax m0 m1.
  assert (Hd : AccelStepper.distanceToGo m1 = delta).
  { unfold m1, AccelStepper.distanceToGo. simpl. lia. }
  assert (Ht : AccelStepper.targetPos m1 = AccelStepper.currentPos m0 + delta)
    by reflexivity.
  assert (Hc : AccelStepper.currentPos m1 = AccelStepper.currentPos m0)
    by reflexivity.
  assert (Hexact : forall clock, Z.abs delta <= dueCount clock ->
    let m := AccelStepper.runToIdle clock m1 in
    AccelStepper.distanceToGo m = 0
    /\ AccelStepper.currentPos m - AccelStepper.currentPos m0 = delta).
  { intros clock Hdue m.
    assert (Hr : AccelStepper.currentPos m = AccelStepper.targetPos m1).
    { apply runToIdle_reaches. rewrite Hd. exact Hdue. }
    unfold AccelStepper.distanceToGo. unfold m at 1.
    rewrite runToIdle_target. lia. }
  split; [exact Hexact|]. split.
  - intros clock p. pose proof (runToIdle_between clock m1) as Hb.
    rewrite Ht, Hc in Hb. unfold p.
    replace (AccelStepper.currentPos m0 + delta - AccelStepper.currentPos m0)
      with delta in Hb by lia. exact Hb.
  - intros inps Hq [Hlt Hle] m. unfold m.
    rewrite loops_quiet_motor; [|assumption|simpl; rewrite Hd; exact Hlt].
    simpl. apply Hexact. exact Hle.
Qed.

(** C1 at work: an idle motor at position 5, a move of -3, and a step clock
    that skips every other invocation. *)
Lemma C1_relative_move_exact_witness :
  let st := with_stepper (AccelStepper.mk 5 5 false) initial in
  let m := AccelStepper.runToIdle [false; true; false; true; true; false]
             (AccelStepper.move (-3) (AccelStepper.enableOutputs (stepper st))) in
  AccelStepper.distanceToGo m = 0 /\ AccelStepper.currentPos m - 5 = -3.
Proof.
  intros st.
  refine (proj1 (C1_relative_move_exact st (-3) _ _)
            [false; true; false; true; true; false] _);
    vm_compute; congruence.
Defined.

(* ================================================================= *)
(** ** C2: validation of [/move]                                      *)
(* ================================================================= *)

Lemma WString_eqb_spec (a b : WString) : WString_eqb a b = true <-> a = b.
Proof.
  unfold WString_eqb. destruct (list_eq_dec ascii_dec a b);
    split; congruence.
Qed.

Lemma isdigit_value (c : ascii) : isdigit c = true -> 0 <= digit_value c <= 9.
Proof.
  unfold isdigit, digit_value. intros H.
  apply andb_prop in H as [H1 H2].
  apply Nat.leb_le in H1, H2. lia.
Qed.

Lemma digits_ge (s : WString) : forall acc, 0 <= acc -> acc <= digits acc s.
Proof.
  induction s as [|c r IH]; intros acc H; simpl; [lia|].
  destruct (isdigit c) eqn:E; [|lia].
  apply isdigit_value in E.
  specialize (IH (acc * 10 + digit_value c)). lia.
Qed.

(** [toInt] yields a [long]. *)
Lemma toInt_range (s : WString) : LONG_MIN <= toInt s <= LONG_MAX.
Proof.
  unfold toInt, LONG_MIN, LONG_MAX.
  destruct (skip_space s) as [|c r]; [lia|].
  pose proof (digits_ge r 0 ltac:(lia)).
  pose proof (digits_ge (c :: r) 0 ltac:(lia)).
  destruct (Ascii.eqb c "-"); [|destruct (Ascii.eqb c "+")]; lia.
Qed.

Lemma labs_abs (x : Z) : LONG_MIN < x <= LONG_MAX -> labs x = Z.abs x.
Proof.
  unfold labs, wrap_long, LONG_MIN, LONG_MAX. intros H.
  rewrite Z.mod_small; lia.
Qed.

(** The route table. *)
Lemma handleClient_move (r : Request) (millis : Z) (st : State) :
  serverBegun st = true -> method r = HTTP_GET -> uri r = lit "/move" ->
  handleClient (Some r) millis st
  = (fst (handleMove r st), Some (snd (handleMove r st))).
Proof.
  intros Hb Hm Hu. unfold handleClient. rewrite Hb, Hm, Hu. reflexivity.
Qed.

(** The three refusals and the acceptance of [handleMove], case by case. *)
Lemma handleMove_cases (r : Request) (st : State) :
  LONG_MIN < toInt (arg r (lit "steps")) ->
  let raw := arg r (lit "steps") in
  (moveRejected r ->
     fst (handleMove r st) = st
     /\ status (snd (handleMove r st)) = 400
     /\ exists msg, body (snd (handleMove r st)) = lit "ERRORE: " ++ msg)
  /\ (~ moveRejected r ->
     fst (handleMove r st)
       = with_stepper (AccelStepper.move (toInt raw)
                         (AccelStepper.enableOutputs (stepper st))) st
     /\ snd (handleMove r st)
       = send 200 text_plain (lit "OK - Movimento impostato")).
Proof.
  intros Hmin raw. unfold moveRejected, handleMove.
  subst raw. set (raw := arg r (lit "steps")) in *.
  pose proof (toInt_range raw) as Hr.
  assert (Habs : labs (toInt raw) = Z.abs (toInt raw))
    by (apply labs_abs; lia).
  rewrite Habs.
  destruct (hasArg r (lit "steps")) eqn:Ha; cbn [negb].
  2:{ split; [intros _|intros H; exfalso; apply H; left; reflexivity].
      repeat split. eexists. reflexivity. }
  destruct (WString_eqb raw (lit "0")) eqn:Eq; cbn [negb].
  - apply WString_eqb_spec in Eq. rewrite andb_false_r.
    destruct (Z.abs (toInt raw) >? MAX_STEPS) eqn:Eg.
    + split; [intros _|intros H; exfalso; apply H; right; right;
                apply Z.gtb_lt in Eg; lia].
      repeat split. eexists. reflexivity.
    + assert (~ Z.abs (toInt raw) > MAX_STEPS).
      { intros Hc. apply Z.gt_lt, Z.gtb_lt in Hc. congruence. }
      split; [intros [Hh|[[_ Hh]|Hh]]; [discriminate|contradiction|contradiction]
             |intros _; split; reflexivity].
  - assert (Hne : raw <> lit "0").
    { intros Hc. apply WString_eqb_spec in Hc. congruence. }
    rewrite andb_true_r.
    destruct (toInt raw =? 0) eqn:E0.
    + apply Z.eqb_eq in E0.
      split; [intros _|intros H; exfalso; apply H; right; left; split;
                assumption].
      repeat split. eexists. reflexivity.
    + apply Z.eqb_neq in E0.
      destruct (Z.abs (toInt raw) >? MAX_STEPS) eqn:Eg.
      * split; [intros _|intros H; exfalso; apply H; right; right;
                  apply Z.gtb_lt in Eg; lia].
        repeat split. eexists. reflexivity.
      * assert (~ Z.abs (toInt raw) > MAX_STEPS).
        { intros Hc. apply Z.gt_lt, Z.gtb_lt in Hc. congruence. }
        split; [intros [Hh|[[Hh _]|Hh]];
                  [discriminate|contradiction|contradiction]
               |intros _; split; reflexivity].
Qed.

(** C2, as stated, fails in both directions.  [/move?steps=12abc]: the
    parameter is not numeric, yet the request is accepted and a move of 12
    steps is set up.  [/move?steps=00]: the parameter is numeric and within
    the bound, yet the request is refused and nothing moves. *)
Lemma C2_move_validation_counterexample :
  let st := booted in
  let r1 := GET "/move" [param "steps" "12abc"] in
  let r2 := GET "/move" [param "steps" "00"] in
  (isNumeric (arg r1 (lit "steps")) = false
   /\ option_map status (snd (handleClient (Some r1) 0 st)) = Some 200
   /\ AccelStepper.targetPos (stepper (fst (handleClient (Some r1) 0 st)))
      = AccelStepper.targetPos (stepper st) + 12)
  /\ (isNumeric (arg r2 (lit "steps")) = true
      /\ Z.abs (toInt (arg r2 (lit "steps"))) <= MAX_STEPS
      /\ option_map status (snd (handleClient (Some r2) 0 st)) = Some 400
      /\ fst (handleClient (Some r2) 0 st) = st).
Proof. vm_compute. repeat split; congruence. Qed.

(** C2, amended.  A [GET /move] request is answered with status 400 and an
    error message, the whole state (positions included) untouched, exactly
    when the [steps] parameter is missing, or [toInt] reads 0 from a text
    other than ["0"], or the value read by [toInt] exceeds [MAX_STEPS] in
    absolute value; in every other case the move read by [toInt] is set up
    relative to the current position, the drive lines are energised and the
    answer is 200.  (The value [LONG_MIN], whose absolute value is not a
    [long], is left aside.) *)
Theorem C2_move_validation :
  forall (r : Request) (millis : Z) (st : State),
    serverBegun st = true -> method r = HTTP_GET -> uri r = lit "/move" ->
    LONG_MIN < toInt (arg r (lit "steps")) ->
    let steps := toInt (arg r (lit "steps")) in
    let st' := fst (handleClient (Some r) millis st) in
    let resp := snd (handleClient (Some r) millis st) in
    (option_map status resp = Some 400 <-> moveRejected r)
    /\ (moveRejected r ->
        st' = st
        /\ exists msg, option_map body resp = Some (lit "ERRORE: " ++ msg))
    /\ (~ moveRejected r ->
        option_map status resp = Some 200
        /\ AccelStepper.targetPos (stepper st')
           = AccelStepper.currentPos (stepper st) + steps
        /\ AccelStepper.currentPos (stepper st')
           = AccelStepper.currentPos (stepper st)
        /\ AccelStepper.outputsEnabled (stepper st') = true
        /\ votes st' = votes st /\ display st' = display st
        /\ lcd st' = lcd st).
Proof.
  intros r millis st Hb Hm Hu Hmin steps st' resp.
  unfold st', resp. rewrite (handleClient_move r millis st Hb Hm Hu). simpl.
  destruct (handleMove_cases r st Hmin) as [Hrej Hacc].
  assert (Hdec : moveRejected r \/ ~ moveRejected r).
  { unfold moveRejected.
    destruct (hasArg r (lit "steps")); [|left; left; reflexivity].
    destruct (Z.eq_dec (toInt (arg r (lit "steps"))) 0) as [e|n];
      [destruct (list_eq_dec ascii_dec (arg r (lit "steps")) (lit "0"))|].
    - destruct (Z_gt_dec (Z.abs (toInt (arg r (lit "steps")))) MAX_STEPS);
        [left; right; right; assumption|].
      right. intros [H|[[_ H]|H]]; [discriminate|contradiction|contradiction].
    - left. right. left. split; assumption.
    - destruct (Z_gt_dec (Z.abs (toInt (arg r (lit "steps")))) MAX_STEPS);
        [left; right; right; assumption|].
      right. intros [H|[[H _]|H]]; [discriminate|contradiction|contradiction]. }
  split; [|split].
  - split.
    + intros H. destruct Hdec as [Hd|Hd]; [exact Hd|].
      destruct (Hacc Hd) as [_ Hs]. rewrite Hs in H. discriminate.
    + intros H. destruct (Hrej H) as (_ & Hs & _). rewrite Hs. reflexivity.
  - intros H. destruct (Hrej H) as (H1 & _ & msg & H3).
    split; [exact H1|]. exists msg. rewrite H3. reflexivity.
  - intros H. destruct (Hacc H) as [H1 H2]. rewrite H1, H2. simpl.
    repeat split.
Qed.

(** C2 at work on [/move?steps=-100] and on [/move?steps=9000]. *)
Lemma C2_move_validation_witness :
  let st := booted in
  (option_map status
     (snd (handleClient (Some (GET "/move" [param "steps" "-100"])) 0 st))
   = Some 400 <-> moveRejected (GET "/move" [param "steps" "-100"]))
  /\ (option_map status
     (snd (handleClient (Some (GET "/move" [param "steps" "9000"])) 0 st))
   = Some 400 <-> moveRejected (GET "/move" [param "steps" "9000"])).
Proof.
  intros st. split.
  - refine (proj1 (C2_move_validation (GET "/move" [param "steps" "-100"]) 0 st
                     _ _ _ _)); vm_compute; congruence.
  - refine (proj1 (C2_move_validation (GET "/move" [param "steps" "9000"]) 0 st
                     _ _ _ _)); vm_compute; congruence.
Defined.

(* ================================================================= *)
(** ** C4: where a new target is counted from                         *)
(* ================================================================= *)

Lemma checkSensor1_cases (inp : LoopInput) (st : State) :
  checkSensor1 inp st = st
  \/ (ldr1 inp = TRIGGER_STATE
      /\ lastLdrState1 (votes st) <> TRIGGER_STATE
      /\ wrap_ulong (millis_check1 inp - lastVoteTime (votes st)) > VOTE_COOLDOWN
      /\ checkSensor1 inp st
         = with_stepper
             (AccelStepper.move LEGACY_STEPS
                (AccelStepper.enableOutputs (stepper st)))
             (with_votes
                (with_lastVoteTime (millis_vote1 inp)
                   (with_pending (wrap_long (pendingVotesA (votes st) + 1))
                      (pendingVotesB (votes st)) (votes st))) st)).
Proof.
  unfold checkSensor1.
  destruct (ldr1 inp =? TRIGGER_STATE) eqn:E1; [|left; reflexivity].
  destruct (lastLdrState1 (votes st) =? TRIGGER_STATE) eqn:E2;
    [left; reflexivity|].
  cbn [negb andb].
  destruct (_ >? VOTE_COOLDOWN) eqn:E3; [|left; reflexivity].
  right. apply Z.eqb_eq in E1. apply Z.eqb_neq in E2.
  apply Z.gtb_lt in E3. repeat split; try assumption. lia.
Qed.

Lemma checkSensor2_cases (inp : LoopInput) (st : State) :
  checkSensor2 inp st = st
  \/ (ldr2 inp = TRIGGER_STATE
      /\ lastLdrState2 (votes st) <> TRIGGER_STATE
      /\ wrap_ulong (millis_check2 inp - lastVoteTime (votes st)) > VOTE_COOLDOWN
      /\ checkSensor2 inp st
         = with_stepper
             (AccelStepper.move (- LEGACY_STEPS)
                (AccelStepper.enableOutputs (stepper st)))
             (with_votes
                (with_lastVoteTime (millis_vote2 inp)
                   (with_pending (pendingVotesA (votes st))
                      (wrap_long (pendingVotesB (votes st) + 1)) (votes st)))
                st)).
Proof.
  unfold checkSensor2.
  destruct (ldr2 inp =? TRIGGER_STATE) eqn:E1; [|left; reflexivity].
  destruct (lastLdrState2 (votes st) =? TRIGGER_STATE) eqn:E2;
    [left; reflexivity|].
  cbn [negb andb].
  destruct (_ >? VOTE_COOLDOWN) eqn:E3; [|left; reflexivity].
  right. apply Z.eqb_eq in E1. apply Z.eqb_neq in E2.
  apply Z.gtb_lt in E3. repeat split; try assumption. lia.
Qed.

Lemma checkSensor1_fires (inp : LoopInput) (st : State) :
  ldr1 inp = TRIGGER_STATE ->
  lastLdrState1 (votes st) <> TRIGGER_STATE ->
  wrap_ulong (millis_check1 inp - lastVoteTime (votes st)) > VOTE_COOLDOWN ->
  pendingVotesA (votes (checkSensor1 inp st))
  = wrap_long (pendingVotesA (votes st) + 1)
  /\ pendingVotesB (votes (checkSensor1 inp st)) = pendingVotesB (votes st)
  /\ lastVoteTime (votes (checkSensor1 inp st)) = millis_vote1 inp.
Proof.
  intros H1 H2 H3. unfold checkSensor1.
  apply Z.eqb_eq in H1. apply Z.eqb_neq in H2.
  apply Z.gt_lt, Z.gtb_lt in H3. rewrite H1, H2, H3. repeat split.
Qed.

Lemma checkSensor2_fires (inp : LoopInput) (st : State) :
  ldr2 inp = TRIGGER_STATE ->
  lastLdrState2 (votes st) <> TRIGGER_STATE ->
  wrap_ulong (millis_check2 inp - lastVoteTime (votes st)) > VOTE_COOLDOWN ->
  pendingVotesB (votes (checkSensor2 inp st))
  = wrap_long (pendingVotesB (votes st) + 1)
  /\ pendingVotesA (votes (checkSensor2 inp st)) = pendingVotesA (votes st)
  /\ lastVoteTime (votes (checkSensor2 inp st)) = millis_vote2 inp.
Proof.
  intros H1 H2 H3. unfold checkSensor2.
  apply Z.eqb_eq in H1. apply Z.eqb_neq in H2.
  apply Z.gt_lt, Z.gtb_lt in H3. rewrite H1, H2, H3. repeat split.
Qed.

(** Neither check touches the levels last seen, and each leaves the counter
    of the other sensor alone. *)
Lemma checkSensor1_frame (inp : LoopInput) (st : State) :
  lastLdrState1 (votes (checkSensor1 inp st)) = lastLdrState1 (votes st)
  /\ lastLdrState2 (votes (checkSensor1 inp st)) = lastLdrState2 (votes st)
  /\ pendingVotesB (votes (checkSensor1 inp st)) = pendingVotesB (votes st).
Proof.
  destruct (checkSensor1_cases inp st) as [H|(_ & _ & _ & H)]; rewrite H;
    repeat split.
Qed.

Lemma checkSensor2_frame (inp : LoopInput) (st : State) :
  lastLdrState1 (votes (checkSensor2 inp st)) = lastLdrState1 (votes st)
  /\ lastLdrState2 (votes (checkSensor2 inp st)) = lastLdrState2 (votes st)
  /\ pendingVotesA (votes (checkSensor2 inp st)) = pendingVotesA (votes st).
Proof.
  destruct (checkSensor2_cases inp st) as [H|(_ & _ & _ & H)]; rewrite H;
    repeat split.
Qed.

(** C4, as stated, fails: with 58 steps of a first [/step] still to go
    (position 10, target 68), a second [/step] puts the target at 78, which
    is the position plus 68, and not at 136, the old target plus 68. *)
Lemma C4_additive_target_counterexample :
  let st := with_stepper (AccelStepper.mk 10 68 true) booted in
  let st' := fst (handleClient (Some (GET "/step" [])) 0 st) in
  AccelStepper.distanceToGo (stepper st) = 58
  /\ AccelStepper.targetPos (stepper st') = 78
  /\ AccelStepper.targetPos (stepper st')
     <> AccelStepper.targetPos (stepper st) + LEGACY_STEPS.
Proof. vm_compute. repeat split; congruence. Qed.

(** C4, amended.  Every move request ([/step], an accepted [/move], a vote
    of either sensor) puts the target at the current position plus the
    requested distance.  That is the old target plus the distance exactly
    when no move is outstanding; a request that arrives during a move
    replaces what was left of it: the new target is the old one plus the
    distance minus the distance still to go. *)
Theorem C4_target_from_position :
  forall (st : State),
    let cur := AccelStepper.currentPos (stepper st) in
    let tgt (s : State) := AccelStepper.targetPos (stepper s) in
    (tgt (fst (handleStep st)) = cur + LEGACY_STEPS)
    /\ (forall r, LONG_MIN < toInt (arg r (lit "steps")) ->
                  ~ moveRejected r ->
                  tgt (fst (handleMove r st))
                  = cur + toInt (arg r (lit "steps")))
    /\ (forall inp, checkSensor1 inp st <> st ->
                    tgt (checkSensor1 inp st) = cur + LEGACY_STEPS)
    /\ (forall inp, checkSensor2 inp st <> st ->
                    tgt (checkSensor2 inp st) = cur - LEGACY_STEPS)
    /\ (forall delta,
          cur + delta
          = tgt st + delta - AccelStepper.distanceToGo (stepper st))
    /\ (forall delta,
          cur + delta = tgt st + delta
          <-> AccelStepper.distanceToGo (stepper st) = 0).
Proof.
  intros st cur tgt. unfold tgt, cur. repeat split.
  - intros r Hmin Hacc.
    destruct (handleMove_cases r st Hmin) as [_ H].
    destruct (H Hacc) as [H1 _]. rewrite H1. reflexivity.
  - intros inp Hne. destruct (checkSensor1_cases inp st) as [H|(_ & _ & _ & H)];
      [contradiction|]. rewrite H. reflexivity.
  - intros inp Hne. destruct (checkSensor2_cases inp st) as [H|(_ & _ & _ & H)];
      [contradiction|]. rewrite H. simpl. unfold LEGACY_STEPS. lia.
  - intros delta. unfold AccelStepper.distanceToGo. lia.
  - unfold AccelStepper.distanceToGo. lia.
  - unfold AccelStepper.distanceToGo. lia.
Qed.

(** C4 at work: [/move?steps=-20] while 58 steps are outstanding. *)
Lemma C4_target_from_position_witness :
  let st := with_stepper (AccelStepper.mk 10 68 true) booted in
  AccelStepper.targetPos
    (stepper (fst (handleMove (GET "/move" [param "steps" "-20"]) st)))
  = 10 + toInt (arg (GET "/move" [param "steps" "-20"]) (lit "steps")).
Proof.
  intros st.
  refine (proj1 (proj2 (C4_target_from_position st))
            (GET "/move" [param "steps" "-20"]) _ _).
  - vm_compute. reflexivity.
  - unfold moveRejected. vm_compute.
    intros [H|[[H _]|H]]; discriminate.
Defined.

(* ================================================================= *)
(** ** C5: draining the votes                                         *)
(* ================================================================= *)

Lemma handleClient_poll (r : Request) (millis : Z) (st : State) :
  serverBegun st = true -> method r = HTTP_GET -> uri r = lit "/poll_votes" ->
  handleClient (Some r) millis st
  = (fst (handlePollVotes st), Some (snd (handlePollVotes st))).
Proof.
  intros Hb Hm Hu. unfold handleClient. rewrite Hb, Hm, Hu. reflexivity.
Qed.

(** No handler touches [serverBegun], the sensor levels last observed or
    the time of the last vote; the pending counters are either left alone
    or both cleared. *)
Lemma handleClient_frame (req : option Request) (millis : Z) (st : State) :
  let st' := fst (handleClient req millis st) in
  serverBegun st' = serverBegun st
  /\ lastLdrState1 (votes st') = lastLdrState1 (votes st)
  /\ lastLdrState2 (votes st') = lastLdrState2 (votes st)
  /\ lastVoteTime (votes st') = lastVoteTime (votes st)
  /\ ((pendingVotesA (votes st') = pendingVotesA (votes st)
       /\ pendingVotesB (votes st') = pendingVotesB (votes st))
      \/ (pendingVotesA (votes st') = 0 /\ pendingVotesB (votes st') = 0)).
Proof.
  unfold handleClient. destruct req as [r|]; [|simpl; auto 10].
  destruct (serverBegun st) eqn:Eb; [|simpl; auto 10]. cbn [negb].
  destruct (method r); [|simpl; auto 10].
  repeat (destruct (WString_eqb (uri r) _); [try (simpl; auto 10)|]);
    try (simpl; auto 10).
  unfold handleMove.
  repeat (match goal with |- context [if ?c then _ else _] => destruct c end;
          try (simpl; auto 10)).
Qed.

Lemma motorAndSensors_begun inp st :
  serverBegun (fst (motorAndSensors inp st)) = serverBegun st.
Proof.
  unfold motorAndSensors. destruct (negb _); [reflexivity|]. simpl.
  set (s0 := with_stepper _ st).
  destruct (checkSensor1_cases inp s0) as [H1|(_ & _ & _ & H1)]; rewrite H1;
    match goal with |- context [checkSensor2 inp ?s] =>
      destruct (checkSensor2_cases inp s) as [H2|(_ & _ & _ & H2)]; rewrite H2
    end; reflexivity.
Qed.

Lemma swapPage_begun now st : serverBegun (swapPage now st) = serverBegun st.
Proof. unfold swapPage. destruct (_ >? _); reflexivity. Qed.

Lemma refreshLcd_begun now st : serverBegun (refreshLcd now st) = serverBegun st.
Proof.
  unfold refreshLcd. destruct (_ >? _); [|reflexivity].
  destruct (if showQuestion (display st) then _ else _). reflexivity.
Qed.

Lemma loop_begun inp st : serverBegun (next (loop inp st)) = serverBegun st.
Proof.
  destruct (loop_unfold inp st) as (Hn & _). rewrite Hn.
  unfold beforeMotor, afterRequest.
  rewrite motorAndSensors_begun, refreshLcd_begun, swapPage_begun.
  apply (handleClient_frame (request inp) (millis_quiz inp) st).
Qed.

Lemma loops_begun inps : forall st, serverBegun (loops inps st) = serverBegun st.
Proof.
  induction inps as [|inp rest IH]; intros st; simpl; [reflexivity|].
  rewrite IH. apply loop_begun.
Qed.

(** With no sensor at the trigger level the last statement of [loop()]
    leaves the pending counters alone. *)
Lemma motorAndSensors_calm inp st :
  calm inp ->
  pendingVotesA (votes (fst (motorAndSensors inp st))) = pendingVotesA (votes st)
  /\ pendingVotesB (votes (fst (motorAndSensors inp st)))
     = pendingVotesB (votes st).
Proof.
  intros [H1 H2]. unfold motorAndSensors.
  destruct (negb _); [split; reflexivity|]. simpl.
  set (s0 := with_stepper _ st).
  destruct (checkSensor1_cases inp s0) as [E1|(E1 & _)]; [|contradiction].
  rewrite E1.
  destruct (checkSensor2_cases inp s0) as [E2|(E2 & _)]; [|contradiction].
  rewrite E2. split; reflexivity.
Qed.

Lemma loop_calm_zero inp st :
  calm inp ->
  pendingVotesA (votes st) = 0 -> pendingVotesB (votes st) = 0 ->
  pendingVotesA (votes (next (loop inp st))) = 0
  /\ pendingVotesB (votes (next (loop inp st))) = 0.
Proof.
  intros Hc HA HB. destruct (loop_unfold inp st) as (Hn & _ & _ & _ & Hv).
  rewrite Hn.
  destruct (motorAndSensors_calm inp (beforeMotor inp st) Hc) as [EA EB].
  rewrite EA, EB, Hv. unfold afterRequest.
  destruct (handleClient_frame (request inp) (millis_quiz inp) st)
    as (_ & _ & _ & _ & [[A B]|[A B]]); simpl in A, B; rewrite A, B; auto.
Qed.

Lemma loops_calm_zero inps :
  forall st,
    Forall calm inps ->
    pendingVotesA (votes st) = 0 -> pendingVotesB (votes st) = 0 ->
    pendingVotesA (votes (loops inps st)) = 0
    /\ pendingVotesB (votes (loops inps st)) = 0.
Proof.
  induction inps as [|inp rest IH]; intros st Hc HA HB; simpl; [auto|].
  inversion Hc; subst.
  destruct (loop_calm_zero inp st) as [A B]; auto.
Qed.

(* ================================================================= *)
(** ** C8: motion and sensing exclude each other                      *)
(* ================================================================= *)

(** The two branches of the last statement of [loop()]. *)
Lemma motorAndSensors_branches inp st :
  (AccelStepper.distanceToGo (stepper st) <> 0
   /\ motorAndSensors inp st
      = (with_stepper (AccelStepper.run (step_due inp) (stepper st)) st,
         [AdvanceMotion]))
  \/ (AccelStepper.distanceToGo (stepper st) = 0
      /\ snd (motorAndSensors inp st) = [PollSensors]
      /\ fst (motorAndSensors inp st)
         = let s0 := with_stepper (AccelStepper.disableOutputs (stepper st)) st in
           let s2 := checkSensor2 inp (checkSensor1 inp s0) in
           with_votes (with_lastLdr (ldr1 inp) (ldr2 inp) (votes s2)) s2).
Proof.
  unfold motorAndSensors.
  destruct (AccelStepper.distanceToGo (stepper st) =? 0) eqn:E; cbn [negb].
  - right. apply Z.eqb_eq in E. repeat split. exact E.
  - left. apply Z.eqb_neq in E. split; [exact E|reflexivity].
Qed.

Lemma checkSensor1_position inp st :
  AccelStepper.currentPos (stepper (checkSensor1 inp st))
  = AccelStepper.currentPos (stepper st).
Proof.
  destruct (checkSensor1_cases inp st) as [H|(_ & _ & _ & H)]; rewrite H;
    reflexivity.
Qed.

Lemma checkSensor2_position inp st :
  AccelStepper.currentPos (stepper (checkSensor2 inp st))
  = AccelStepper.currentPos (stepper st).
Proof.
  destruct (checkSensor2_cases inp st) as [H|(_ & _ & _ & H)]; rewrite H;
    reflexivity.
Qed.

Lemma loop_branches inp st :
  let s := afterRequest inp st in
  let s' := next (loop inp st) in
  (AccelStepper.distanceToGo (stepper s) <> 0
   /\ activity (loop inp st) = [AdvanceMotion]
   /\ stepper s' = AccelStepper.run (step_due inp) (stepper s)
   /\ votes s' = votes s)
  \/ (AccelStepper.distanceToGo (stepper s) = 0
      /\ activity (loop inp st) = [PollSensors]
      /\ AccelStepper.currentPos (stepper s')
         = AccelStepper.currentPos (stepper s)
      /\ lastLdrState1 (votes s') = ldr1 inp
      /\ lastLdrState2 (votes s') = ldr2 inp).
Proof.
  intros s s'. unfold s, s'.
  destruct (loop_unfold inp st) as (Hn & Ha & _ & Hs & Hv).
  rewrite Hn, Ha, <- Hs, <- Hv.
  destruct (motorAndSensors_branches inp (beforeMotor inp st))
    as [[Hd E]|(Hd & E1 & E2)].
  - left. rewrite E. repeat split. exact Hd.
  - right. rewrite E1, E2. cbn zeta. repeat split; try assumption.
    cbn [stepper with_votes].
    rewrite checkSensor2_position, checkSensor1_position. reflexivity.
Qed.

(** C8.  Whatever the request and the readings, an iteration of [loop()]
    performs exactly one of the two activities, and which one is decided by
    the distance to go once the request has been served: if it is not zero
    the iteration is one invocation of [stepper.run()], the sensors are not
    looked at and the vote state (counters, levels last seen, time of the
    last vote) is what the request handler left; if it is zero the sensors
    are polled and the motor does not advance. *)
Theorem C8_motion_xor_sensing :
  forall (inp : LoopInput) (st : State),
    let s := afterRequest inp st in
    let s' := next (loop inp st) in
    (AccelStepper.distanceToGo (stepper s) <> 0
     /\ activity (loop inp st) = [AdvanceMotion]
     /\ stepper s' = AccelStepper.run (step_due inp) (stepper s)
     /\ votes s' = votes s)
    \/ (AccelStepper.distanceToGo (stepper s) = 0
        /\ activity (loop inp st) = [PollSensors]
        /\ AccelStepper.currentPos (stepper s')
           = AccelStepper.currentPos (stepper s)
        /\ lastLdrState1 (votes s') = ldr1 inp
        /\ lastLdrState2 (votes s') = ldr2 inp).
Proof.
  intros inp st s s'. unfold s, s'.
  destruct (loop_unfold inp st) as (Hn & Ha & _ & Hs & Hv).
  rewrite Hn, Ha, <- Hs, <- Hv. unfold motorAndSensors.
  destruct (AccelStepper.distanceToGo (stepper (beforeMotor inp st)) =? 0)
    eqn:E; cbn [negb fst snd].
  - right. apply Z.eqb_eq in E. split; [exact E|]. split; [reflexivity|].
    cbn [stepper votes with_votes with_lastLdr lastLdrState1 lastLdrState2].
    rewrite checkSensor2_position, checkSensor1_position.
    repeat split.
  - left. apply Z.eqb_neq in E. repeat split. exact E.
Qed.

(* ================================================================= *)
(** ** C9: the level found at boot counts as a transition             *)
(* ================================================================= *)

Lemma handleClient_votes (req : option Request) (millis : Z) (st : State) :
  votes (fst (handleClient req millis st)) = votes st
  \/ votes (fst (handleClient req millis st)) = with_pending 0 0 (votes st).
Proof.
  unfold handleClient. destruct req as [r|]; [|left; reflexivity].
  destruct (serverBegun st); [|left; reflexivity]. cbn [negb].
  destruct (method r); [|left; reflexivity].
  repeat (destruct (WString_eqb (uri r) _); [try (left; reflexivity)|]);
    try (left; reflexivity).
  - unfold handleMove.
    repeat (match goal with |- context [if ?c then _ else _] => destruct c end;
            try (left; reflexivity)).
  - right. reflexivity.
Qed.

Lemma setup_votes c1 c2 wifi st : votes (setup c1 c2 wifi st) = votes st.
Proof. unfold setup. destruct wifi; reflexivity. Qed.

Lemma afterRequest_initialVotes inp st :
  votes st = initialVotes -> votes (afterRequest inp st) = initialVotes.
Proof.
  intros H. unfold afterRequest.
  destruct (handleClient_votes (request inp) (millis_quiz inp) st) as [E|E];
    rewrite E, H; reflexivity.
Qed.

Lemma neverPolled_initialVotes inps :
  forall st, votes st = initialVotes -> neverPolled inps st ->
             votes (loops inps st) = initialVotes.
Proof.
  induction inps as [|inp rest IH]; intros st Hv Hn; simpl; [exact Hv|].
  destruct Hn as [Ha Hn]. apply IH; [|exact Hn].
  destruct (loop_branches inp st) as [(_ & _ & _ & E)|(_ & E & _)].
  - rewrite E. apply afterRequest_initialVotes, Hv.
  - rewrite E in Ha. discriminate.
Qed.

Lemma wrap_ulong_small (z : Z) : 0 <= z < 2 ^ 32 -> wrap_ulong z = z.
Proof. intros H. unfold wrap_ulong. apply Z.mod_small. exact H. Qed.

(** C9.  The globals start with both levels last seen at -1 and the time of
    the last vote at 0, and nothing changes them before the sensors are
    polled for the first time.  So in the first iteration that polls the
    sensors, whatever [setup] and the iterations before it did, a sensor
    found at the trigger level registers a vote at once, provided the uptime
    read in its cooldown test is above 3000 ms: sensor 1 whenever it reads
    the trigger level, sensor 2 when it does and sensor 1 does not. *)
Theorem C9_level_at_boot_votes :
  (lastLdrState1 (votes initial) = -1
   /\ lastLdrState2 (votes initial) = -1
   /\ lastVoteTime (votes initial) = 0)
  /\ forall clock1 clock2 wifi pre inp,
      let st0 := setup clock1 clock2 wifi initial in
      let st := loops pre st0 in
      neverPolled pre st0 ->
      activity (loop inp st) = [PollSensors] ->
      VOTE_COOLDOWN < millis_check1 inp < 2 ^ 32 ->
      VOTE_COOLDOWN < millis_check2 inp < 2 ^ 32 ->
      (ldr1 inp = TRIGGER_STATE ->
       pendingVotesA (votes (next (loop inp st))) = 1)
      /\ (ldr1 inp <> TRIGGER_STATE -> ldr2 inp = TRIGGER_STATE ->
          pendingVotesB (votes (next (loop inp st))) = 1).
Proof.
  split; [repeat split|].
  intros clock1 clock2 wifi pre inp st0 st Hpre Hact Ht1 Ht2.
  assert (Hv : votes st = initialVotes).
  { apply neverPolled_initialVotes; [apply setup_votes|exact Hpre]. }
  destruct (loop_unfold inp st) as (Hn & Ha & _ & _ & Hvb).
  rewrite (afterRequest_initialVotes inp st Hv) in Hvb.
  rewrite Hn. rewrite Ha in Hact.
  destruct (motorAndSensors_branches inp (beforeMotor inp st))
    as [[_ E]|(_ & _ & E)]; [rewrite E in Hact; discriminate|].
  rewrite E. cbn zeta.
  cbn [votes with_votes with_lastLdr pendingVotesA pendingVotesB].
  set (s0 := with_stepper _ (beforeMotor inp st)).
  assert (Hv0 : votes s0 = initialVotes) by exact Hvb.
  unfold VOTE_COOLDOWN in Ht1, Ht2.
  split.
  - intros H1.
    destruct (checkSensor2_frame inp (checkSensor1 inp s0)) as (_ & _ & F).
    rewrite F.
    destruct (checkSensor1_fires inp s0 H1) as (G & _).
    + rewrite Hv0. discriminate.
    + rewrite Hv0. cbn [lastVoteTime initialVotes].
      rewrite Z.sub_0_r, wrap_ulong_small by lia. unfold VOTE_COOLDOWN. lia.
    + rewrite G, Hv0. reflexivity.
  - intros H1 H2.
    destruct (checkSensor1_cases inp s0) as [E1|(E1 & _)]; [|contradiction].
    rewrite E1.
    destruct (checkSensor2_fires inp s0 H2) as (G & _).
    + rewrite Hv0. discriminate.
    + rewrite Hv0. cbn [lastVoteTime initialVotes].
      rewrite Z.sub_0_r, wrap_ulong_small by lia. unfold VOTE_COOLDOWN. lia.
    + rewrite G, Hv0. reflexivity.
Qed.

(** C9 at work: the motor is still finishing its test move when [loop()]
    starts, sensor 1 is covered all along, and the first poll, 5 s after
    power-on, counts a vote. *)
Lemma C9_level_at_boot_votes_witness :
  let st0 := setup (repeat true 64) (repeat true 62) true initial in
  let pre := ticks 4998 2 LOW HIGH in
  pendingVotesA (votes (next (loop (tick 5000 LOW HIGH) (loops pre st0)))) = 1.
Proof.
  intros st0 pre.
  refine (proj1 (proj2 C9_level_at_boot_votes (repeat true 64) (repeat true 62)
                   true pre (tick 5000 LOW HIGH) _ _ _ _) _).
  - vm_compute. repeat split.
  - vm_compute. reflexivity.
  - vm_compute. split; reflexivity.
  - vm_compute. split; reflexivity.
  - reflexivity.
Defined.

(* ================================================================= *)
(** ** C3: votes are edge-triggered, with a shared cooldown           *)
(* ================================================================= *)

(** What the last statement of [loop()] can do to the counter of sensor 1:
    nothing, or one increment under the three conditions of a vote. *)
Lemma motorAndSensors_votesA inp st :
  let A' := pendingVotesA (votes (fst (motorAndSensors inp st))) in
  A' = pendingVotesA (votes st)
  \/ (A' = wrap_long (pendingVotesA (votes st) + 1)
      /\ AccelStepper.distanceToGo (stepper st) = 0
      /\ ldr1 inp = TRIGGER_STATE
      /\ lastLdrState1 (votes st) <> TRIGGER_STATE
      /\ wrap_ulong (millis_check1 inp - lastVoteTime (votes st))
         > VOTE_COOLDOWN).
Proof.
  cbn zeta.
  destruct (motorAndSensors_branches inp st) as [[_ E]|(Hd & _ & E)];
    rewrite E; [left; reflexivity|].
  cbn zeta. cbn [votes with_votes with_lastLdr pendingVotesA].
  set (s0 := with_stepper _ st).
  destruct (checkSensor2_frame inp (checkSensor1 inp s0)) as (_ & _ & F).
  rewrite F.
  destruct (checkSensor1_cases inp s0) as [E1|(H1 & H2 & H3 & E1)]; rewrite E1.
  - left. reflexivity.
  - right. repeat split; assumption.
Qed.

Lemma motorAndSensors_votesB inp st :
  let B' := pendingVotesB (votes (fst (motorAndSensors inp st))) in
  B' = pendingVotesB (votes st)
  \/ (B' = wrap_long (pendingVotesB (votes st) + 1)
      /\ AccelStepper.distanceToGo (stepper st) = 0
      /\ ldr2 inp = TRIGGER_STATE
      /\ lastLdrState2 (votes st) <> TRIGGER_STATE
      /\ exists t, (t = lastVoteTime (votes st) \/ t = millis_vote1 inp)
                   /\ wrap_ulong (millis_check2 inp - t) > VOTE_COOLDOWN).
Proof.
  cbn zeta.
  destruct (motorAndSensors_branches inp st) as [[_ E]|(Hd & _ & E)];
    rewrite E; [left; reflexivity|].
  cbn zeta. cbn [votes with_votes with_lastLdr pendingVotesB].
  set (s0 := with_stepper _ st).
  destruct (checkSensor1_frame inp s0) as (_ & F2 & FB).
  destruct (checkSensor2_cases inp (checkSensor1 inp s0))
    as [E2|(H1 & H2 & H3 & E2)]; rewrite E2.
  - left. exact FB.
  - right. cbn [votes with_stepper with_votes with_lastVoteTime with_pending
                pendingVotesB].
    rewrite FB. rewrite F2 in H2. repeat split; try assumption.
    exists (lastVoteTime (votes (checkSensor1 inp s0))). split; [|exact H3].
    destruct (checkSensor1_cases inp s0) as [E1|(_ & _ & _ & E1)]; rewrite E1;
      [left|right]; reflexivity.
Qed.

(** A quiet iteration, seen from the vote state. *)
Lemma loop_quiet_votes inp st :
  quiet inp ->
  next (loop inp st) = fst (motorAndSensors inp (beforeMotor inp st))
  /\ votes (beforeMotor inp st) = votes st
  /\ stepper (beforeMotor inp st) = stepper st.
Proof.
  intros Hq. destruct (loop_unfold inp st) as (Hn & _ & _ & Hs & Hv).
  rewrite (afterRequest_quiet inp st Hq) in Hs, Hv. auto.
Qed.

(** Once the trigger level has been seen on a sensor, keeping it there
    never adds a vote of that sensor. *)
Lemma held1_seen_no_vote inps :
  forall st,
    Forall quiet inps -> Forall held1 inps ->
    lastLdrState1 (votes st) = TRIGGER_STATE ->
    pendingVotesA (votes (loops inps st)) = pendingVotesA (votes st).
Proof.
  induction inps as [|inp rest IH]; intros st Hq Hh Hl; simpl; [reflexivity|].
  inversion Hq; subst. inversion Hh; subst.
  destruct (loop_quiet_votes inp st) as (Hn & Hv & _); [assumption|].
  destruct (motorAndSensors_votesA inp (beforeMotor inp st))
    as [E|(_ & _ & _ & Hc & _)]; [|rewrite Hv in Hc; contradiction].
  rewrite IH; try assumption.
  - rewrite Hn, E, Hv. reflexivity.
  - destruct (loop_branches inp st) as [(_ & _ & _ & Ev)|(_ & _ & _ & El & _)].
    + rewrite Ev, (afterRequest_quiet inp st) by assumption. exact Hl.
    + rewrite El. assumption.
Qed.

Lemma held2_seen_no_vote inps :
  forall st,
    Forall quiet inps -> Forall held2 inps ->
    lastLdrState2 (votes st) = TRIGGER_STATE ->
    pendingVotesB (votes (loops inps st)) = pendingVotesB (votes st).
Proof.
  induction inps as [|inp rest IH]; intros st Hq Hh Hl; simpl; [reflexivity|].
  inversion Hq; subst. inversion Hh; subst.
  destruct (loop_quiet_votes inp st) as (Hn & Hv & _); [assumption|].
  destruct (motorAndSensors_votesB inp (beforeMotor inp st))
    as [E|(_ & _ & _ & Hc & _)]; [|rewrite Hv in Hc; contradiction].
  rewrite IH; try assumption.
  - rewrite Hn, E, Hv. reflexivity.
  - destruct (loop_branches inp st)
      as [(_ & _ & _ & Ev)|(_ & _ & _ & _ & El)].
    + rewrite Ev, (afterRequest_quiet inp st) by assumption. exact Hl.
    + rewrite El. assumption.
Qed.

(** Holding a sensor at the trigger level adds at most one vote. *)
Lemma held1_at_most_one inps :
  forall st,
    Forall quiet inps -> Forall held1 inps ->
    pendingVotesA (votes (loops inps st)) = pendingVotesA (votes st)
    \/ pendingVotesA (votes (loops inps st))
       = wrap_long (pendingVotesA (votes st) + 1).
Proof.
  induction inps as [|inp rest IH]; intros st Hq Hh; simpl; [left; reflexivity|].
  inversion Hq as [|? ? Hq1 Hq2]; subst. inversion Hh as [|? ? Hh1 Hh2]; subst.
  destruct (loop_quiet_votes inp st Hq1) as (Hn & Hv & _).
  destruct (loop_branches inp st) as [(_ & _ & _ & Ev)|(_ & _ & _ & El & _)].
  - rewrite (afterRequest_quiet inp st Hq1) in Ev.
    destruct (IH (next (loop inp st)) Hq2 Hh2) as [E|E]; rewrite E, Ev; auto.
  - rewrite held1_seen_no_vote; try assumption; [|rewrite El; exact Hh1].
    rewrite Hn.
    destruct (motorAndSensors_votesA inp (beforeMotor inp st)) as [E|(E & _)];
      rewrite E, Hv; auto.
Qed.

Lemma held2_at_most_one inps :
  forall st,
    Forall quiet inps -> Forall held2 inps ->
    pendingVotesB (votes (loops inps st)) = pendingVotesB (votes st)
    \/ pendingVotesB (votes (loops inps st))
       = wrap_long (pendingVotesB (votes st) + 1).
Proof.
  induction inps as [|inp rest IH]; intros st Hq Hh; simpl; [left; reflexivity|].
  inversion Hq as [|? ? Hq1 Hq2]; subst. inversion Hh as [|? ? Hh1 Hh2]; subst.
  destruct (loop_quiet_votes inp st Hq1) as (Hn & Hv & _).
  destruct (loop_branches inp st)
    as [(_ & _ & _ & Ev)|(_ & _ & _ & _ & El)].
  - rewrite (afterRequest_quiet inp st Hq1) in Ev.
    destruct (IH (next (loop inp st)) Hq2 Hh2) as [E|E]; rewrite E, Ev; auto.
  - rewrite held2_seen_no_vote; try assumption; [|rewrite El; exact Hh1].
    rewrite Hn.
    destruct (motorAndSensors_votesB inp (beforeMotor inp st)) as [E|(E & _)];
      rewrite E, Hv; auto.
Qed.

(** The vote at the start of a hold. *)
Lemma held1_first_poll_votes inp rest st :
  Forall quiet (inp :: rest) -> Forall held1 (inp :: rest) ->
  AccelStepper.distanceToGo (stepper st) = 0 ->
  lastLdrState1 (votes st) <> TRIGGER_STATE ->
  wrap_ulong (millis_check1 inp - lastVoteTime (votes st)) > VOTE_COOLDOWN ->
  pendingVotesA (votes (loops (inp :: rest) st))
  = wrap_long (pendingVotesA (votes st) + 1).
Proof.
  intros Hq Hh Hd Hl Ht. simpl.
  inversion Hq as [|? ? Hq1 Hq2]; subst. inversion Hh as [|? ? Hh1 Hh2]; subst.
  destruct (loop_quiet_votes inp st Hq1) as (Hn & Hv & Hs).
  destruct (loop_branches inp st) as [(Hc & _)|(_ & _ & _ & El & _)].
  - rewrite (afterRequest_quiet inp st Hq1) in Hc. contradiction.
  - rewrite held1_seen_no_vote; try assumption; [|rewrite El; exact Hh1].
    rewrite Hn.
    destruct (motorAndSensors_branches inp (beforeMotor inp st))
      as [[Hc _]|(_ & _ & E)]; [rewrite Hs in Hc; contradiction|].
    rewrite E. cbn zeta. cbn [votes with_votes with_lastLdr pendingVotesA].
    set (s0 := with_stepper _ (beforeMotor inp st)).
    destruct (checkSensor2_frame inp (checkSensor1 inp s0)) as (_ & _ & F).
    rewrite F.
    assert (Hv0 : votes s0 = votes st) by exact Hv.
    destruct (checkSensor1_fires inp s0 Hh1) as (G & _);
      rewrite ?Hv0; try assumption.
    rewrite G, Hv0. reflexivity.
Qed.

(** Counting a vote changes the counter, also when it wraps. *)
Lemma wrap_long_succ (z : Z) : wrap_long (z + 1) <> z.
Proof.
  unfold wrap_long. intros H.
  assert (E : (z + 1 + 2 ^ 31) mod 2 ^ 32 = z + 2 ^ 31) by lia.
  rewrite Z.mod_eq in E by lia. lia.
Qed.

Lemma sensor1Votes_dec inp v : sensor1Votes inp v \/ ~ sensor1Votes inp v.
Proof. unfold sensor1Votes. lia. Qed.

(** The first check either counts a vote and stores the time, or does
    nothing. *)
Lemma checkSensor1_decides inp st :
  (sensor1Votes inp (votes st)
   /\ pendingVotesA (votes (checkSensor1 inp st))
      = wrap_long (pendingVotesA (votes st) + 1)
   /\ lastVoteTime (votes (checkSensor1 inp st)) = millis_vote1 inp)
  \/ (~ sensor1Votes inp (votes st) /\ checkSensor1 inp st = st).
Proof.
  destruct (sensor1Votes_dec inp (votes st)) as [H|H].
  - left. split; [exact H|]. destruct H as (H1 & H2 & H3).
    destruct (checkSensor1_fires inp st H1 H2 H3) as (G1 & _ & G3).
    split; assumption.
  - right. split; [exact H|].
    destruct (checkSensor1_cases inp st) as [E|(H1 & H2 & H3 & _)]; [exact E|].
    exfalso. apply H. exact (conj H1 (conj H2 H3)).
Qed.

(** The vote state after a quiet iteration that finds the motor idle. *)
Lemma loop_quiet_first_poll inp st :
  quiet inp -> AccelStepper.distanceToGo (stepper st) = 0 ->
  exists s0,
    votes s0 = votes st
    /\ votes (next (loop inp st))
       = with_lastLdr (ldr1 inp) (ldr2 inp)
           (votes (checkSensor2 inp (checkSensor1 inp s0))).
Proof.
  intros Hq Hd. destruct (loop_quiet_votes inp st Hq) as (Hn & Hv & Hs).
  exists (with_stepper
            (AccelStepper.disableOutputs (stepper (beforeMotor inp st)))
            (beforeMotor inp st)).
  split; [exact Hv|]. rewrite Hn.
  destruct (motorAndSensors_branches inp (beforeMotor inp st))
    as [[Hc _]|(_ & _ & E)]; [rewrite Hs in Hc; contradiction|].
  rewrite E. reflexivity.
Qed.

(** The vote of sensor 2 at the start of a hold.  Its cooldown test comes
    after the check of sensor 1, so it counts from the vote of sensor 1 when
    that one was cast in the same poll. *)
Lemma held2_first_poll_votes inp rest st :
  Forall quiet (inp :: rest) -> Forall held2 (inp :: rest) ->
  AccelStepper.distanceToGo (stepper st) = 0 ->
  lastLdrState2 (votes st) <> TRIGGER_STATE ->
  (~ sensor1Votes inp (votes st) ->
   wrap_ulong (millis_check2 inp - lastVoteTime (votes st)) > VOTE_COOLDOWN) ->
  (sensor1Votes inp (votes st) ->
   wrap_ulong (millis_check2 inp - millis_vote1 inp) > VOTE_COOLDOWN) ->
  pendingVotesB (votes (loops (inp :: rest) st))
  = wrap_long (pendingVotesB (votes st) + 1).
Proof.
  intros Hq Hh Hd Hl Ht0 Ht1. cbn [loops].
  inversion Hq as [|? ? Hq1 Hq2]; subst. inversion Hh as [|? ? Hh1 Hh2]; subst.
  destruct (loop_quiet_first_poll inp st Hq1 Hd) as (s0 & Hv0 & En).
  rewrite held2_seen_no_vote; try assumption; [|rewrite En; exact Hh1].
  rewrite En. cbn [with_lastLdr pendingVotesB].
  destruct (checkSensor1_frame inp s0) as (_ & F2 & FB).
  rewrite <- Hv0 in Hl, Ht0, Ht1 |- *.
  destruct (checkSensor2_fires inp (checkSensor1 inp s0) Hh1) as (G & _).
  - rewrite F2. exact Hl.
  - destruct (checkSensor1_decides inp s0) as [(Hs & _ & T)|(Hs & E)].
    + rewrite T. apply Ht1, Hs.
    + rewrite E. apply Ht0, Hs.
  - rewrite G, FB. reflexivity.
Qed.

(** A covering first seen inside the cooldown is never counted. *)
Lemma held1_cooldown_no_vote inp rest st :
  Forall quiet (inp :: rest) -> Forall held1 (inp :: rest) ->
  AccelStepper.distanceToGo (stepper st) = 0 ->
  wrap_ulong (millis_check1 inp - lastVoteTime (votes st)) <= VOTE_COOLDOWN ->
  pendingVotesA (votes (loops (inp :: rest) st)) = pendingVotesA (votes st).
Proof.
  intros Hq Hh Hd Ht. cbn [loops].
  inversion Hq as [|? ? Hq1 Hq2]; subst. inversion Hh as [|? ? Hh1 Hh2]; subst.
  destruct (loop_quiet_first_poll inp st Hq1 Hd) as (s0 & Hv0 & En).
  rewrite held1_seen_no_vote; try assumption; [|rewrite En; exact Hh1].
  rewrite En. cbn [with_lastLdr pendingVotesA].
  destruct (checkSensor2_frame inp (checkSensor1 inp s0)) as (_ & _ & F).
  rewrite F. rewrite <- Hv0 in Ht |- *.
  destruct (checkSensor1_cases inp s0) as [E|(_ & _ & H3 & _)];
    [rewrite E; reflexivity|lia].
Qed.

Lemma held2_cooldown_no_vote inp rest st :
  Forall quiet (inp :: rest) -> Forall held2 (inp :: rest) ->
  AccelStepper.distanceToGo (stepper st) = 0 ->
  (~ sensor1Votes inp (votes st) ->
   wrap_ulong (millis_check2 inp - lastVoteTime (votes st)) <= VOTE_COOLDOWN) ->
  (sensor1Votes inp (votes st) ->
   wrap_ulong (millis_check2 inp - millis_vote1 inp) <= VOTE_COOLDOWN) ->
  pendingVotesB (votes (loops (inp :: rest) st)) = pendingVotesB (votes st).
Proof.
  intros Hq Hh Hd Ht0 Ht1. cbn [loops].
  inversion Hq as [|? ? Hq1 Hq2]; subst. inversion Hh as [|? ? Hh1 Hh2]; subst.
  destruct (loop_quiet_first_poll inp st Hq1 Hd) as (s0 & Hv0 & En).
  rewrite held2_seen_no_vote; try assumption; [|rewrite En; exact Hh1].
  rewrite En. cbn [with_lastLdr pendingVotesB].
  destruct (checkSensor1_frame inp s0) as (_ & _ & FB).
  rewrite <- Hv0 in Ht0, Ht1 |- *.
  destruct (checkSensor2_cases inp (checkSensor1 inp s0))
    as [E|(_ & _ & H3 & _)]; [rewrite E; exact FB|].
  exfalso. destruct (checkSensor1_decides inp s0) as [(Hs & _ & T)|(Hs & E)].
  - rewrite T in H3. specialize (Ht1 Hs). lia.
  - rewrite E in H3. specialize (Ht0 Hs). lia.
Qed.

(** The shared time of the last vote after the last statement of [loop()]:
    the clock read by the last vote of the iteration, and unchanged when no
    vote was counted. *)
Lemma motorAndSensors_lastVoteTime inp st :
  let s' := fst (motorAndSensors inp st) in
  (pendingVotesB (votes s') <> pendingVotesB (votes st) ->
   lastVoteTime (votes s') = millis_vote2 inp)
  /\ (pendingVotesA (votes s') <> pendingVotesA (votes st) ->
      pendingVotesB (votes s') = pendingVotesB (votes st) ->
      lastVoteTime (votes s') = millis_vote1 inp)
  /\ (pendingVotesA (votes s') = pendingVotesA (votes st) ->
      pendingVotesB (votes s') = pendingVotesB (votes st) ->
      lastVoteTime (votes s') = lastVoteTime (votes st)).
Proof.
  cbn zeta.
  destruct (motorAndSensors_branches inp st) as [[_ E]|(_ & _ & E)]; rewrite E.
  - cbn [fst votes with_stepper].
    split; [|split]; intros; [congruence|congruence|reflexivity].
  - cbn zeta. set (s0 := with_stepper _ st).
    assert (Hv0 : votes s0 = votes st) by reflexivity.
    destruct (checkSensor2_cases inp (checkSensor1 inp s0))
      as [E2|(_ & _ & _ & E2)]; rewrite E2;
      destruct (checkSensor1_cases inp s0) as [E1|(_ & _ & _ & E1)];
      rewrite E1;
      cbn [votes with_votes with_stepper with_lastLdr with_lastVoteTime
           with_pending pendingVotesA pendingVotesB lastVoteTime];
      rewrite ?Hv0;
      (split; [|split]); intros;
      try reflexivity; try congruence;
      exfalso; eapply wrap_long_succ; eassumption.
Qed.

(** C3, as stated, fails.  In both runs below sensor 1 reads the trigger
    level at every poll from 6 s to 15 s of uptime, with the motor idle and
    no request, which spans three cooldown windows.  In the first run the
    sensor was covered at 5 s, voted then, and never votes again: one vote,
    not one per window.  In the second run sensor 2 voted at 5 s and sensor
    1 was covered at 6 s, inside the cooldown of that vote: sensor 1 never
    votes at all. *)
Lemma C3_one_vote_per_window_counterexample :
  let hold := seconds 6000 10 LOW HIGH in
  let s1 := loops (tick 5000 LOW HIGH :: ticks 5001 68 LOW HIGH) booted in
  let s2 := loops (tick 5000 HIGH LOW :: ticks 5001 68 HIGH LOW) booted in
  (Forall held1 hold /\ Forall quiet hold)
  /\ (pendingVotesA (votes s1) = 1
      /\ AccelStepper.distanceToGo (stepper s1) = 0
      /\ activities hold s1 = repeat PollSensors 10
      /\ pendingVotesA (votes (loops hold s1)) = 1)
  /\ (pendingVotesA (votes s2) = 0 /\ pendingVotesB (votes s2) = 1
      /\ AccelStepper.distanceToGo (stepper s2) = 0
      /\ lastLdrState1 (votes s2) = HIGH
      /\ activities hold s2 = repeat PollSensors 10
      /\ pendingVotesA (votes (loops hold s2)) = 0).
Proof.
  vm_compute. repeat split; try reflexivity; repeat constructor.
Qed.

(** C3, amended.  A vote of a sensor is counted in an iteration only if the
    motor is idle, the sensor reads the trigger level, the level last seen
    on it was not the trigger level, and the time elapsed since the shared
    time of the last vote exceeds the cooldown of 3000 ms (for sensor 2 the
    last vote may be the one sensor 1 cast in the same iteration).  Hence,
    over any run of quiet iterations during which a sensor stays at the
    trigger level, that sensor adds at most one vote, whatever the number of
    polls and of cooldown windows the hold lasts, and none at all once the
    trigger level has been seen.  It adds exactly one when the hold starts
    with the motor idle, another level last seen and the cooldown elapsed at
    the first poll: for sensor 1 as its test finds the time of the last
    vote, for sensor 2 counted from the vote of sensor 1 when that one is
    cast in the same poll.  It adds none when, the motor being idle, the
    first poll of the hold falls inside the cooldown: the level is recorded
    and the covering is never counted.  A vote stores the clock it reads as
    the shared time of the last vote: after the last statement of [loop()]
    that time is the clock read by the last vote counted in the iteration,
    and it is unchanged when no vote was counted. *)
Theorem C3_one_vote_per_hold :
  (forall inp st,
      pendingVotesA (votes (fst (motorAndSensors inp st)))
        <> pendingVotesA (votes st) ->
      AccelStepper.distanceToGo (stepper st) = 0
      /\ ldr1 inp = TRIGGER_STATE
      /\ lastLdrState1 (votes st) <> TRIGGER_STATE
      /\ wrap_ulong (millis_check1 inp - lastVoteTime (votes st))
         > VOTE_COOLDOWN)
  /\ (forall inp st,
      pendingVotesB (votes (fst (motorAndSensors inp st)))
        <> pendingVotesB (votes st) ->
      AccelStepper.distanceToGo (stepper st) = 0
      /\ ldr2 inp = TRIGGER_STATE
      /\ lastLdrState2 (votes st) <> TRIGGER_STATE
      /\ exists t, (t = lastVoteTime (votes st) \/ t = millis_vote1 inp)
                   /\ wrap_ulong (millis_check2 inp - t) > VOTE_COOLDOWN)
  /\ (forall inps st,
      Forall quiet inps -> Forall held1 inps ->
      (pendingVotesA (votes (loops inps st)) = pendingVotesA (votes st)
       \/ pendingVotesA (votes (loops inps st))
          = wrap_long (pendingVotesA (votes st) + 1))
      /\ (lastLdrState1 (votes st) = TRIGGER_STATE ->
          pendingVotesA (votes (loops inps st)) = pendingVotesA (votes st)))
  /\ (forall inps st,
      Forall quiet inps -> Forall held2 inps ->
      (pendingVotesB (votes (loops inps st)) = pendingVotesB (votes st)
       \/ pendingVotesB (votes (loops inps st))
          = wrap_long (pendingVotesB (votes st) + 1))
      /\ (lastLdrState2 (votes st) = TRIGGER_STATE ->
          pendingVotesB (votes (loops inps st)) = pendingVotesB (votes st)))
  /\ (forall inp rest st,
      Forall quiet (inp :: rest) -> Forall held1 (inp :: rest) ->
      AccelStepper.distanceToGo (stepper st) = 0 ->
      lastLdrState1 (votes st) <> TRIGGER_STATE ->
      wrap_ulong (millis_check1 inp - lastVoteTime (votes st))
        > VOTE_COOLDOWN ->
      pendingVotesA (votes (loops (inp :: rest) st))
      = wrap_long (pendingVotesA (votes st) + 1))
  /\ (forall inp rest st,
      Forall quiet (inp :: rest) -> Forall held2 (inp :: rest) ->
      AccelStepper.distanceToGo (stepper st) = 0 ->
      lastLdrState2 (votes st) <> TRIGGER_STATE ->
      (~ sensor1Votes inp (votes st) ->
       wrap_ulong (millis_check2 inp - lastVoteTime (votes st))
         > VOTE_COOLDOWN) ->
      (sensor1Votes inp (votes st) ->
       wrap_ulong (millis_check2 inp - millis_vote1 inp) > VOTE_COOLDOWN) ->
      pendingVotesB (votes (loops (inp :: rest) st))
      = wrap_long (pendingVotesB (votes st) + 1))
  /\ (forall inp rest st,
      Forall quiet (inp :: rest) -> Forall held1 (inp :: rest) ->
      AccelStepper.distanceToGo (stepper st) = 0 ->
      wrap_ulong (millis_check1 inp - lastVoteTime (votes st))
        <= VOTE_COOLDOWN ->
      pendingVotesA (votes (loops (inp :: rest) st))
      = pendingVotesA (votes st))
  /\ (forall inp rest st,
      Forall quiet (inp :: rest) -> Forall held2 (inp :: rest) ->
      AccelStepper.distanceToGo (stepper st) = 0 ->
      (~ sensor1Votes inp (votes st) ->
       wrap_ulong (millis_check2 inp - lastVoteTime (votes st))
         <= VOTE_COOLDOWN) ->
      (sensor1Votes inp (votes st) ->
       wrap_ulong (millis_check2 inp - millis_vote1 inp) <= VOTE_COOLDOWN) ->
      pendingVotesB (votes (loops (inp :: rest) st))
      = pendingVotesB (votes st))
  /\ (forall inp st,
      let s' := fst (motorAndSensors inp st) in
      (pendingVotesB (votes s') <> pendingVotesB (votes st) ->
       lastVoteTime (votes s') = millis_vote2 inp)
      /\ (pendingVotesA (votes s') <> pendingVotesA (votes st) ->
          pendingVotesB (votes s') = pendingVotesB (votes st) ->
          lastVoteTime (votes s') = millis_vote1 inp)
      /\ (pendingVotesA (votes s') = pendingVotesA (votes st) ->
          pendingVotesB (votes s') = pendingVotesB (votes st) ->
          lastVoteTime (votes s') = lastVoteTime (votes st))).
Proof.
  split; [|split; [|split; [|split; [|split; [|split; [|split; [|split]]]]]]].
  - intros inp st Hne.
    destruct (motorAndSensors_votesA inp st) as [E|(_ & H)];
      [contradiction|exact H].
  - intros inp st Hne.
    destruct (motorAndSensors_votesB inp st) as [E|(_ & H)];
      [contradiction|exact H].
  - intros inps st Hq Hh. split.
    + apply held1_at_most_one; assumption.
    + apply held1_seen_no_vote; assumption.
  - intros inps st Hq Hh. split.
    + apply held2_at_most_one; assumption.
    + apply held2_seen_no_vote; assumption.
  - apply held1_first_poll_votes.
  - apply held2_first_poll_votes.
  - apply held1_cooldown_no_vote.
  - apply held2_cooldown_no_vote.
  - apply motorAndSensors_lastVoteTime.
Qed.

(** C3 at work.  Sensor 1 is covered 5 s after power-on and stays covered
    for the 68 iterations of the feedback move and ten more seconds: one
    vote; the same for sensor 2.  With a last vote at 5 s, a sensor covered
    at 6 s and held for ten seconds is not counted.  The vote cast at 5 s
    stores that time. *)
Lemma C3_one_vote_per_hold_witness :
  let cooled := with_votes (mkVotes 1 1 HIGH HIGH 5000) booted in
  pendingVotesA
    (votes (loops (tick 5000 LOW HIGH
                   :: ticks 5001 68 LOW HIGH ++ seconds 6000 10 LOW HIGH)
              booted))
  = wrap_long (pendingVotesA (votes booted) + 1)
  /\ pendingVotesB
       (votes (loops (tick 5000 HIGH LOW
                      :: ticks 5001 68 HIGH LOW ++ seconds 6000 10 HIGH LOW)
                 booted))
     = wrap_long (pendingVotesB (votes booted) + 1)
  /\ pendingVotesA (votes (loops (seconds 6000 10 LOW HIGH) cooled))
     = pendingVotesA (votes cooled)
  /\ pendingVotesB (votes (loops (seconds 6000 10 HIGH LOW) cooled))
     = pendingVotesB (votes cooled)
  /\ lastVoteTime (votes (fst (motorAndSensors (tick 5000 LOW HIGH) booted)))
     = 5000.
Proof.
  intros cooled.
  refine (let H := proj2 (proj2 (proj2 (proj2 C3_one_vote_per_hold))) in
          conj (proj1 H (tick 5000 LOW HIGH)
                  (ticks 5001 68 LOW HIGH ++ seconds 6000 10 LOW HIGH)
                  booted _ _ _ _ _)
         (conj (proj1 (proj2 H) (tick 5000 HIGH LOW)
                  (ticks 5001 68 HIGH LOW ++ seconds 6000 10 HIGH LOW)
                  booted _ _ _ _ _ _)
         (conj (proj1 (proj2 (proj2 H)) (tick 6000 LOW HIGH)
                  (map (fun k => tick (6000 + 1000 * Z.of_nat k) LOW HIGH)
                     (seq 1 9))
                  cooled _ _ _ _)
         (conj (proj1 (proj2 (proj2 (proj2 H))) (tick 6000 HIGH LOW)
                  (map (fun k => tick (6000 + 1000 * Z.of_nat k) HIGH LOW)
                     (seq 1 9))
                  cooled _ _ _ _ _)
               (proj1 (proj2 (proj2 (proj2 (proj2 (proj2 H)))
                                (tick 5000 LOW HIGH) booted))
                  _ _))))).
  - repeat constructor.
  - repeat constructor.
  - reflexivity.
  - vm_compute. congruence.
  - vm_compute. reflexivity.
  - repeat constructor.
  - repeat constructor.
  - reflexivity.
  - vm_compute. congruence.
  - intros _. vm_compute. reflexivity.
  - intros (H1 & _). vm_compute in H1. discriminate H1.
  - repeat constructor.
  - repeat constructor.
  - reflexivity.
  - vm_compute. congruence.
  - repeat constructor.
  - repeat constructor.
  - reflexivity.
  - intros _. vm_compute. congruence.
  - intros (H1 & _). vm_compute in H1. discriminate H1.
  - vm_compute. congruence.
  - reflexivity.
Defined.

(* ================================================================= *)
(** ** C6: layout of the question                                     *)
(* ================================================================= *)

Lemma substring_prefix (s : WString) (k : nat) :
  (k <= length s)%nat -> substring s 0 k = firstn k s.
Proof.
  intros H. unfold substring. cbn [Nat.ltb Nat.leb].
  destruct s as [|c r].
  - simpl in H. replace k with O by lia. reflexivity.
  - cbn [length Nat.leb]. rewrite Nat.min_l by exact H.
    rewrite Nat.sub_0_r. reflexivity.
Qed.

Lemma substring_from_skipn (s : WString) (k : nat) :
  (k <= length s)%nat -> substring_from s k = skipn k s.
Proof.
  intros H. unfold substring_from, substring.
  destruct (length s <? k)%nat eqn:E; [apply Nat.ltb_lt in E; lia|].
  destruct (length s <=? k)%nat eqn:E2.
  - apply Nat.leb_le in E2. symmetry. apply skipn_all2. exact E2.
  - rewrite Nat.min_id. apply firstn_all2. rewrite length_skipn. lia.
Qed.

Lemma findSplit_none (text : WString) (n : nat) :
  (forall i, (i < n)%nat -> ~ isSpace text i) -> findSplit text n = -1.
Proof.
  induction n as [|n IH]; intros H; simpl; [reflexivity|].
  destruct (Ascii.eqb (charAt text n) " ") eqn:E.
  - apply Ascii.eqb_eq in E. exfalso. apply (H n); [lia|exact E].
  - apply IH. intros i Hi. apply H. lia.
Qed.

Lemma findSplit_last (text : WString) (n s : nat) :
  (s < n)%nat -> isSpace text s ->
  (forall i, (s < i < n)%nat -> ~ isSpace text i) ->
  findSplit text n = Z.of_nat s.
Proof.
  induction n as [|n IH]; intros Hs Hsp Hno; [lia|]. simpl.
  destruct (Ascii.eqb (charAt text n) " ") eqn:E.
  - apply Ascii.eqb_eq in E.
    destruct (Nat.eq_dec s n) as [->|Hne]; [reflexivity|].
    exfalso. apply (Hno n); [lia|exact E].
  - destruct (Nat.eq_dec s n) as [->|Hne].
    + unfold isSpace in Hsp. rewrite Hsp in E. discriminate.
    + apply IH; [lia|exact Hsp|]. intros i Hi. apply Hno. lia.
Qed.

Lemma last_space_exists (text : WString) (n k : nat) :
  (k < n)%nat -> isSpace text k ->
  exists s, (k <= s < n)%nat /\ isSpace text s
            /\ forall i, (s < i < n)%nat -> ~ isSpace text i.
Proof.
  induction n as [|n IH]; intros Hk Hsp; [lia|].
  destruct (ascii_dec (charAt text n) " ") as [E|E].
  - exists n. split; [lia|split; [exact E|intros i Hi; lia]].
  - destruct (Nat.eq_dec k n) as [->|Hne]; [contradiction|].
    destruct (IH ltac:(lia) Hsp) as (s & Hs & Hs1 & Hs2).
    exists s. split; [lia|split; [exact Hs1|]].
    intros i Hi. destruct (Nat.eq_dec i n) as [->|]; [exact E|].
    apply Hs2. lia.
Qed.

Lemma noSpaceBelow_spec (text : WString) (n : nat) :
  noSpaceBelow text n = true <-> forall i, (i < n)%nat -> ~ isSpace text i.
Proof.
  unfold noSpaceBelow, isSpace. rewrite forallb_forall. split.
  - intros H i Hi Hc. specialize (H i). rewrite in_seq in H.
    specialize (H ltac:(lia)). rewrite Hc in H. discriminate.
  - intros H i Hi. apply in_seq in Hi. specialize (H i ltac:(lia)).
    destruct (Ascii.eqb (charAt text i) " ") eqn:E; [|reflexivity].
    apply Ascii.eqb_eq in E. contradiction.
Qed.

(** [formatQuestion] only sets the two lines and the scroll flag. *)
Lemma formatQuestion_layout (d : Display) :
  exists l1 l2 sc, formatQuestion d = with_layout l1 l2 sc d.
Proof.
  unfold formatQuestion.
  repeat match goal with |- context [if ?c then _ else _] => destruct c end;
    eauto.
Qed.

Lemma formatQuestion_short (d : Display) :
  (length (quizText d) <= 16)%nat ->
  formatQuestion d = with_layout (quizText d) [] false d.
Proof.
  intros H. unfold formatQuestion. apply Nat.leb_le in H. rewrite H.
  reflexivity.
Qed.

Lemma formatQuestion_long (d : Display) :
  (32 < length (quizText d))%nat ->
  formatQuestion d = with_layout [] [] true d.
Proof.
  intros H. unfold formatQuestion.
  destruct (length (quizText d) <=? 16)%nat eqn:E1;
    [apply Nat.leb_le in E1; lia|].
  destruct (length (quizText d) <=? 32)%nat eqn:E2;
    [apply Nat.leb_le in E2; lia|]. reflexivity.
Qed.

Lemma formatQuestion_no_space (d : Display) :
  (16 < length (quizText d) <= 32)%nat ->
  (forall i, (i <= 16)%nat -> ~ isSpace (quizText d) i) ->
  formatQuestion d = with_layout [] [] true d.
Proof.
  intros [H1 H2] Hno. unfold formatQuestion.
  destruct (length (quizText d) <=? 16)%nat eqn:E1;
    [apply Nat.leb_le in E1; lia|].
  apply Nat.leb_le in H2. rewrite H2.
  rewrite Nat.min_l by lia.
  rewrite findSplit_none; [reflexivity|].
  intros i Hi. apply Hno. lia.
Qed.

Lemma formatQuestion_space (d : Display) (s : nat) :
  (16 < length (quizText d) <= 32)%nat ->
  lastSpace (quizText d) s ->
  formatQuestion d
  = if ((0 <? s) && (length (quizText d) - s - 1 <=? 16))%nat
    then with_layout (firstn s (quizText d)) (skipn (s + 1) (quizText d))
           false d
    else with_layout [] [] true d.
Proof.
  intros [H1 H2] (Hs & Hsp & Hno). unfold formatQuestion.
  destruct (length (quizText d) <=? 16)%nat eqn:E1;
    [apply Nat.leb_le in E1; lia|].
  pose proof H2 as H2'. apply Nat.leb_le in H2'. rewrite H2'.
  rewrite Nat.min_l by lia.
  rewrite (findSplit_last (quizText d) 17 s) by
    (try lia; try exact Hsp; intros i Hi; apply Hno; lia).
  destruct s as [|s'].
  - reflexivity.
  - replace (0 <? Z.of_nat (S s')) with true by (symmetry; apply Z.ltb_lt; lia).
    cbn [Nat.ltb Nat.leb andb]. rewrite Nat2Z.id.
    rewrite substring_prefix, substring_from_skipn by lia.
    rewrite length_firstn, length_skipn, Nat.min_l by lia.
    replace (S s' <=? 16)%nat with true by (symmetry; apply Nat.leb_le; lia).
    cbn [andb].
    replace (length (quizText d) - (S s' + 1))%nat
      with (length (quizText d) - S s' - 1)%nat by lia.
    reflexivity.
Qed.

Lemma split_at (s : WString) :
  forall k, (k < length s)%nat ->
            s = firstn k s ++ charAt s k :: skipn (k + 1) s.
Proof.
  unfold charAt. induction s as [|c r IH]; intros k Hk; simpl in Hk; [lia|].
  destruct k as [|k]; simpl; [reflexivity|].
  f_equal. apply IH. lia.
Qed.

(** C6, as stated, fails on two counts.  The 20 characters
    ["abcdefghijklmnop qrs"] have no space before position 16 (the only one
    is at index 16), yet the text is shown as two static lines.  The 17
    characters [" abcdefghijklmnop"] have their last space at index 0, both
    halves (none and 16 characters) fit, yet the text scrolls. *)
Lemma C6_question_layout_counterexample :
  let d1 := display (fst (handleClient
              (Some (GET "/quiz" [param "q" "abcdefghijklmnop qrs"])) 9000
              booted)) in
  let d2 := display (fst (handleClient
              (Some (GET "/quiz" [param "q" " abcdefghijklmnop"])) 9000
              booted)) in
  (length (lit "abcdefghijklmnop qrs") = 20%nat
   /\ noSpaceBelow (lit "abcdefghijklmnop qrs") 16 = true
   /\ scrollQ d1 = false
   /\ qLine1 d1 = lit "abcdefghijklmnop" /\ qLine2 d1 = lit "qrs")
  /\ (length (lit " abcdefghijklmnop") = 17%nat
      /\ isSpace (lit " abcdefghijklmnop") 0
      /\ noSpaceBelow (skipn 1 (lit " abcdefghijklmnop")) 16 = true
      /\ scrollQ d2 = true).
Proof. vm_compute. repeat split. Qed.

(** C6, amended.  Once [text] is stored as the question: up to 16
    characters it is shown as it is on the first line, the second line
    empty; from 17 to 32 characters it is split at the last space found at
    the indices 0 to 16 (counting from 0), the characters before the space
    on the first line and those after it on the second, provided that space
    is not at index 0 and at most 16 characters follow it, and it scrolls on
    one line otherwise, also when there is no space at the indices 0 to 16;
    above 32 characters it always scrolls.  In particular a text of 20
    characters with a space at index 10 is shown on two static lines, and a
    text of 20 characters with no space at the indices 0 to 16 scrolls. *)
Theorem C6_question_layout :
  forall (text : WString) (d : Display),
    let d' := setQuestion text d in
    let len := length text in
    ((len <= 16)%nat ->
       scrollQ d' = false /\ qLine1 d' = text /\ qLine2 d' = [])
    /\ ((16 < len <= 32)%nat ->
        forall s, lastSpace text s ->
          ((0 < s)%nat -> (len - s - 1 <= 16)%nat ->
             scrollQ d' = false
             /\ qLine1 d' = firstn s text /\ qLine2 d' = skipn (s + 1) text
             /\ (length (qLine1 d') <= 16)%nat
             /\ (length (qLine2 d') <= 16)%nat)
          /\ (s = 0%nat \/ (16 < len - s - 1)%nat -> scrollQ d' = true))
    /\ ((16 < len <= 32)%nat -> noSpaceBelow text 17 = true ->
        scrollQ d' = true)
    /\ ((32 < len)%nat -> scrollQ d' = true)
    /\ (len = 20%nat -> isSpace text 10 ->
        scrollQ d' = false
        /\ (length (qLine1 d') <= 16)%nat /\ (length (qLine2 d') <= 16)%nat
        /\ qLine1 d' ++ " "%char :: qLine2 d' = text)
    /\ (len = 20%nat -> noSpaceBelow text 17 = true -> scrollQ d' = true)
    /\ quizText d' = text.
Proof.
  intros text d d' len. unfold d', setQuestion.
  set (d0 := {| quizText := text |}).
  assert (Hq : quizText d0 = text) by reflexivity.
  assert (Hsplit : (16 < len <= 32)%nat ->
    forall s, lastSpace text s -> (0 < s)%nat -> (len - s - 1 <= 16)%nat ->
    formatQuestion d0
    = with_layout (firstn s text) (skipn (s + 1) text) false d0).
  { intros Hl s Hs H0 Hfit.
    rewrite (formatQuestion_space d0 s) by (rewrite Hq; assumption).
    rewrite Hq. fold len.
    apply Nat.ltb_lt in H0. apply Nat.leb_le in Hfit. rewrite H0, Hfit.
    reflexivity. }
  repeat apply conj.
  - intros H. rewrite formatQuestion_short by (rewrite Hq; exact H).
    repeat split.
  - intros Hl s Hs. split.
    + intros H0 Hfit. rewrite (Hsplit Hl s Hs H0 Hfit).
      cbn [scrollQ qLine1 qLine2 with_layout].
      rewrite length_firstn, length_skipn. fold len.
      destruct Hs as (Hs & _). repeat split; lia.
    + intros Hbad.
      rewrite (formatQuestion_space d0 s) by (rewrite Hq; assumption).
      rewrite Hq. fold len.
      destruct Hbad as [-> | Hbad]; [reflexivity|].
      replace (len - s - 1 <=? 16)%nat with false
        by (symmetry; apply Nat.leb_gt; lia).
      rewrite andb_false_r. reflexivity.
  - intros Hl Hno.
    rewrite formatQuestion_no_space; [reflexivity|rewrite Hq; exact Hl|].
    rewrite Hq. intros i Hi. apply (proj1 (noSpaceBelow_spec text 17) Hno). lia.
  - intros H. rewrite formatQuestion_long by (rewrite Hq; exact H).
    reflexivity.
  - intros H20 Hsp.
    destruct (last_space_exists text 17 10 ltac:(lia) Hsp)
      as (s & Hs & Hs1 & Hs2).
    assert (Hlast : lastSpace text s).
    { split; [lia|split; [exact Hs1|]]. intros i Hi. apply Hs2. lia. }
    rewrite (Hsplit ltac:(lia) s Hlast) by lia.
    cbn [scrollQ qLine1 qLine2 with_layout].
    rewrite length_firstn, length_skipn. fold len.
    repeat split; try lia.
    rewrite <- Hs1. symmetry. apply split_at. fold len. lia.
  - intros H20 Hno.
    rewrite formatQuestion_no_space; [reflexivity|rewrite Hq; lia|].
    rewrite Hq. intros i Hi. apply (proj1 (noSpaceBelow_spec text 17) Hno). lia.
  - destruct (formatQuestion_layout d0) as (l1 & l2 & sc & E). rewrite E.
    reflexivity.
Qed.

(** C6 at work on a question of 12 characters and on one of 20 characters
    with a space at index 10. *)
Lemma C6_question_layout_witness :
  let d' := setQuestion (lit "Rosso o blu?") initialDisplay in
  let d'' := setQuestion (lit "Preferisci mare o no") initialDisplay in
  (scrollQ d' = false /\ qLine1 d' = lit "Rosso o blu?" /\ qLine2 d' = [])
  /\ (scrollQ d'' = false
      /\ (length (qLine1 d'') <= 16)%nat /\ (length (qLine2 d'') <= 16)%nat
      /\ qLine1 d'' ++ " "%char :: qLine2 d'' = lit "Preferisci mare o no").
Proof.
  intros d' d''. split.
  - refine (proj1 (C6_question_layout (lit "Rosso o blu?")
                     initialDisplay) _).
    vm_compute. lia.
  - refine (proj1 (proj2 (proj2 (proj2 (proj2
              (C6_question_layout (lit "Preferisci mare o no")
                 initialDisplay))))) _ _).
    + reflexivity.
    + reflexivity.
Defined.

(* ================================================================= *)
(** ** C7: [/quiz]                                                    *)
(* ================================================================= *)

Lemma handleClient_quiz (r : Request) (millis : Z) (st : State) :
  serverBegun st = true -> method r = HTTP_GET -> uri r = lit "/quiz" ->
  handleClient (Some r) millis st
  = (fst (handleQuiz r millis st), Some (snd (handleQuiz r millis st))).
Proof.
  intros Hb Hm Hu. unfold handleClient. rewrite Hb, Hm, Hu. reflexivity.
Qed.

(** What [handleQuiz] does on every request: question page, page timer set
    one page interval back, the three cursors at zero; motor, votes and
    display contents untouched. *)
Lemma handleQuiz_page (r : Request) (millis : Z) (st : State) :
  let st' := fst (handleQuiz r millis st) in
  showQuestion (display st') = true
  /\ lastPageSwap (display st') = wrap_ulong (millis - LCD_PAGE_INTERVAL)
  /\ scrollPosQ (display st') = 0
  /\ scrollPosA1 (display st') = 0
  /\ scrollPosA2 (display st') = 0
  /\ stepper st' = stepper st /\ votes st' = votes st /\ lcd st' = lcd st
  /\ status (snd (handleQuiz r millis st)) = 200.
Proof. repeat split. Qed.

(** The layout computed by [formatQuestion] depends on the question only. *)
Lemma formatQuestion_depends (d1 d2 : Display) :
  quizText d1 = quizText d2 ->
  scrollQ (formatQuestion d1) = scrollQ (formatQuestion d2)
  /\ qLine1 (formatQuestion d1) = qLine1 (formatQuestion d2)
  /\ qLine2 (formatQuestion d1) = qLine2 (formatQuestion d2).
Proof.
  intros H. unfold formatQuestion. rewrite H.
  repeat match goal with |- context [if ?c then _ else _] => destruct c end;
    repeat split.
Qed.

(** What [handleQuiz] does to the three texts: a field that is given
    replaces the stored text, a field that is omitted keeps it, and in both
    cases the separator is appended when the resulting text is to scroll. *)
Lemma handleQuiz_texts (r : Request) (millis : Z) (st : State) :
  let d := display st in
  let d' := display (fst (handleQuiz r millis st)) in
  let pick name old := if hasArg r (lit name) then arg r (lit name) else old in
  let q := pick "q"%string (quizText d) in
  let a1 := pick "a1"%string (ans1Text d) in
  let a2 := pick "a2"%string (ans2Text d) in
  scrollQ d' = scrollQ (setQuestion q d)
  /\ quizText d' = (if scrollQ d' then q ++ separator else q)
  /\ scrollA1 d' = (16 <? length a1)%nat
  /\ ans1Text d' = (if scrollA1 d' then a1 ++ separator else a1)
  /\ scrollA2 d' = (16 <? length a2)%nat
  /\ ans2Text d' = (if scrollA2 d' then a2 ++ separator else a2)
  /\ qLine1 d' = qLine1 (setQuestion q d)
  /\ qLine2 d' = qLine2 (setQuestion q d).
Proof.
  cbn zeta. unfold handleQuiz, setQuestion.
  cbn [fst display with_display scrollQ quizText scrollA1 scrollA2 ans1Text
       ans2Text qLine1 qLine2].
  match goal with |- context [scrollQ (formatQuestion ?x) = scrollQ (formatQuestion ?y)] =>
    destruct (formatQuestion_depends x y eq_refl) as (E1 & E2 & E3);
    destruct (formatQuestion_layout x) as (l1 & l2 & sc & E);
    rewrite <- E1, <- E2, <- E3, E
  end.
  cbn [with_layout scrollQ quizText ans1Text ans2Text qLine1 qLine2].
  repeat split.
Qed.

(** C7 fails on the code.  The question of [/quiz?q=...&a1=Roma&a2=Milano]
    has 40 characters and is stored with the separator appended.  A second
    request [/quiz?a1=Parigi], which omits [q], appends the separator to the
    stored question once more: the text of the omitted field has changed and
    carries the separator twice.  An omitted answer in scroll mode grows the
    same way.  Besides, the question page set by the handler does not last:
    with a static question the page test in the same iteration of [loop()]
    swaps to the answers as soon as the clock has advanced by a millisecond
    since the handler read it. *)
Theorem C7_quiz_separator_accumulates :
  let q := lit "Quale di queste due citta e la capitale?" in
  let long := lit "La risposta numero uno" in
  let r1 := GET "/quiz" [param "q" "Quale di queste due citta e la capitale?";
                         param "a1" "La risposta numero uno";
                         param "a2" "Milano"] in
  let r2 := GET "/quiz" [param "a2" "Parigi"] in
  let st1 := fst (handleClient (Some r1) 9000 booted) in
  let st2 := fst (handleClient (Some r2) 20000 st1) in
  let r3 := GET "/quiz" [param "q" "Rosso o blu?"] in
  let inp := mkLoopInput (Some r3) 30000 30001 false HIGH HIGH
               30001 30001 30001 30001 in
  (length q = 40%nat /\ hasArg r2 (lit "q") = false
   /\ hasArg r2 (lit "a1") = false)
  /\ quizText (display st1) = q ++ separator
  /\ quizText (display st2) = q ++ separator ++ separator
  /\ ans1Text (display st1) = long ++ separator
  /\ ans1Text (display st2) = long ++ separator ++ separator
  /\ showQuestion (display (afterRequest inp st2)) = true
  /\ showQuestion (display (next (loop inp st2))) = false.
Proof. vm_compute. repeat split. Qed.

(* ================================================================= *)
(** ** C10: a line render writes the whole line                       *)
(* ================================================================= *)

Section Display.

Lemma put_spec (line : list ascii) :
  forall n c,
    Lcd.put n c line
    = if (n <? length line)%nat
      then firstn n line ++ c :: skipn (n + 1) line
      else line.
Proof.
  induction line as [|x rest IH]; intros n c; simpl.
  - destruct n; reflexivity.
  - destruct n as [|n]; simpl; [reflexivity|].
    rewrite IH. change (S n <? S (length rest))%nat with (n <? length rest)%nat.
    destruct (n <? length rest)%nat; reflexivity.
Qed.

Lemma put_length (line : list ascii) (n : nat) (c : ascii) :
  length (Lcd.put n c line) = length line.
Proof.
  rewrite put_spec. destruct (n <? length line)%nat eqn:E; [|reflexivity].
  apply Nat.ltb_lt in E.
  rewrite length_app, length_firstn. simpl. rewrite length_skipn. lia.
Qed.

(** Writing one character: the current line changes at the cursor, the
    cursor moves right, the other line is untouched. *)
Lemma write_spec (c : ascii) (l : Lcd.t) :
  Lcd.line (Lcd.row l) (Lcd.write c l)
  = Lcd.put (Lcd.col l) c (Lcd.line (Lcd.row l) l)
  /\ Lcd.row (Lcd.write c l) = Lcd.row l
  /\ Lcd.col (Lcd.write c l) = S (Lcd.col l)
  /\ (Lcd.row l = O -> Lcd.line1 (Lcd.write c l) = Lcd.line1 l)
  /\ (Lcd.row l <> O -> Lcd.line0 (Lcd.write c l) = Lcd.line0 l).
Proof.
  unfold Lcd.write, Lcd.line. destruct (Lcd.row l) eqn:E; simpl;
    repeat split; congruence.
Qed.

(** Writing a run of characters. *)
Lemma print_spec (s : WString) :
  forall l,
    let old := Lcd.line (Lcd.row l) l in
    Lcd.line (Lcd.row l) (Lcd.print s l)
    = firstn (Lcd.col l) old
      ++ firstn (length old - Lcd.col l) s
      ++ skipn (Lcd.col l + length s) old
    /\ Lcd.row (Lcd.print s l) = Lcd.row l
    /\ Lcd.col (Lcd.print s l) = (Lcd.col l + length s)%nat
    /\ (Lcd.row l = O -> Lcd.line1 (Lcd.print s l) = Lcd.line1 l)
    /\ (Lcd.row l <> O -> Lcd.line0 (Lcd.print s l) = Lcd.line0 l).
Proof.
  induction s as [|c s IH]; intros l old.
  - simpl. rewrite Nat.add_0_r, firstn_nil, firstn_skipn.
    repeat split; reflexivity.
  - change (Lcd.print (c :: s) l) with (Lcd.print s (Lcd.write c l)).
    destruct (write_spec c l) as (W1 & W2 & W3 & W4 & W5).
    destruct (IH (Lcd.write c l)) as (P1 & P2 & P3 & P4 & P5).
    rewrite W2 in *. rewrite W3 in *. rewrite W1 in P1.
    split; [|split; [|split; [|split]]].
    + rewrite P1. fold old. rewrite put_length, put_spec.
      destruct (Lcd.col l <? length old)%nat eqn:E.
      * apply Nat.ltb_lt in E.
        rewrite firstn_app, length_firstn, Nat.min_l by lia.
        rewrite firstn_all2 by (rewrite length_firstn; lia).
        replace (S (Lcd.col l) - Lcd.col l)%nat with 1%nat by lia.
        cbn [firstn].
        rewrite skipn_app, length_firstn, Nat.min_l by lia.
        rewrite (skipn_all2 (n := (S (Lcd.col l) + length s)%nat))
          by (rewrite length_firstn; lia).
        replace (S (Lcd.col l) + length s - Lcd.col l)%nat
          with (S (length s)) by lia.
        cbn [skipn app]. rewrite skipn_skipn.
        replace (length old - Lcd.col l)%nat
          with (S (length old - S (Lcd.col l))) by lia.
        cbn [firstn length]. rewrite <- app_assoc. cbn [app].
        replace (length s + (Lcd.col l + 1))%nat
          with (Lcd.col l + S (length s))%nat by lia.
        reflexivity.
      * apply Nat.ltb_ge in E.
        replace (length old - S (Lcd.col l))%nat with O by lia.
        replace (length old - Lcd.col l)%nat with O by lia.
        rewrite (firstn_all2 (n := S (Lcd.col l)) old) by lia.
        rewrite (firstn_all2 (n := Lcd.col l) old) by lia.
        rewrite (skipn_all2 (n := (S (Lcd.col l) + length s)%nat) old) by lia.
        rewrite (skipn_all2 (n := (Lcd.col l + length (c :: s))%nat) old)
          by lia.
        reflexivity.
    + exact P2.
    + rewrite P3. cbn [length]. lia.
    + intros H. rewrite P4 by exact H. apply W4, H.
    + intros H. rewrite P5 by exact H. apply W5, H.
Qed.

(** Sixteen characters written from column 0 are the line afterwards,
    whatever it showed before. *)
Lemma print_full_line (s : WString) (r : nat) (l : Lcd.t) :
  length s = 16%nat -> wellFormed l ->
  let l' := Lcd.print s (Lcd.setCursor 0 r l) in
  Lcd.line r l' = s
  /\ Lcd.col l' = 16%nat
  /\ wellFormed l'
  /\ (r = O -> Lcd.line1 l' = Lcd.line1 l)
  /\ (r <> O -> Lcd.line0 l' = Lcd.line0 l).
Proof.
  intros Hs [W0 W1] l'.
  destruct (print_spec s (Lcd.setCursor 0 r l)) as (P1 & P2 & P3 & P4 & P5).
  cbn [Lcd.setCursor Lcd.row Lcd.col] in *.
  fold l' in P1, P2, P3, P4, P5.
  assert (Hold : length (Lcd.line r (Lcd.setCursor 0 r l)) = 16%nat).
  { unfold Lcd.line, Lcd.setCursor. destruct r; simpl; assumption. }
  rewrite Hold in P1. cbn [firstn app] in P1.
  rewrite Nat.sub_0_r, firstn_all2, skipn_all2, app_nil_r in P1
    by (cbn [Nat.add]; lia).
  split; [exact P1|]. split; [rewrite P3, Hs; reflexivity|].
  split; [|split; [exact P4|exact P5]].
  unfold wellFormed. destruct r as [|r].
  - rewrite (P4 eq_refl). cbn [Lcd.line] in P1. rewrite P1. auto.
  - rewrite (P5 ltac:(discriminate)). cbn [Lcd.line] in P1. rewrite P1. auto.
Qed.

Lemma padLoop_print (n : nat) :
  forall l, padLoop n l = Lcd.print (repeat " "%char n) l.
Proof.
  induction n as [|n IH]; intros l; simpl; [reflexivity|]. apply IH.
Qed.

Lemma staticRun_length (text : WString) :
  (length text <= 16)%nat -> length (staticRun text) = 16%nat.
Proof.
  intros H. unfold staticRun. rewrite length_app, repeat_length. lia.
Qed.

(** The static branch of [printLcdLine] sends [staticRun text]. *)
Lemma printLcdLine_static (r : nat) (text : WString) (pos : Z) (l : Lcd.t) :
  printLcdLine r text pos false l
  = (Lcd.print (staticRun text) (Lcd.setCursor 0 r l), pos).
Proof.
  unfold printLcdLine, staticRun, Lcd.print. cbn [negb].
  rewrite padLoop_print. unfold Lcd.print. rewrite fold_left_app. reflexivity.
Qed.

End Display.

Section Scrolling.

Variable text : WString.
Variable pos : Z.
Hypothesis long_enough : (16 <= length text)%nat.
Hypothesis indexable : Z.of_nat (length text) < 2 ^ 31.
Hypothesis in_range : 0 <= pos < Z.of_nat (length text).

Local Abbreviation p := (Z.to_nat pos).

Lemma to_index_pos : to_index pos = p.
Proof. unfold to_index. rewrite wrap_ulong_small by lia. reflexivity. Qed.

Lemma to_index_pos16 : to_index (pos + 16) = (p + 16)%nat.
Proof. unfold to_index. rewrite wrap_ulong_small by lia. lia. Qed.

(** The window, in terms of list operations. *)
Lemma scrollWindow_eq :
  scrollWindow text pos
  = if (p + 16 <=? length text)%nat
    then firstn 16 (skipn p text)
    else skipn p text ++ firstn (16 - (length text - p)) text.
Proof.
  assert (Hp : (p < length text)%nat) by lia.
  assert (Hd : substring text p (p + 16)
               = if (p + 16 <=? length text)%nat
                 then firstn 16 (skipn p text) else skipn p text).
  { unfold substring.
    replace (p + 16 <? p)%nat with false by (symmetry; apply Nat.ltb_ge; lia).
    replace (length text <=? p)%nat with false
      by (symmetry; apply Nat.leb_gt; lia).
    destruct (p + 16 <=? length text)%nat eqn:E.
    - apply Nat.leb_le in E. rewrite Nat.min_l by lia.
      replace (p + 16 - p)%nat with 16%nat by lia. reflexivity.
    - apply Nat.leb_gt in E. rewrite Nat.min_r by lia.
      apply firstn_all2. rewrite length_skipn. lia. }
  unfold scrollWindow. rewrite to_index_pos, to_index_pos16, Hd.
  destruct (p + 16 <=? length text)%nat eqn:E.
  - apply Nat.leb_le in E.
    rewrite length_firstn, length_skipn, Nat.min_l by lia. reflexivity.
  - apply Nat.leb_gt in E. rewrite length_skipn.
    replace (length text - p <? 16)%nat with true
      by (symmetry; apply Nat.ltb_lt; lia).
    rewrite substring_prefix by lia. reflexivity.
Qed.

Lemma scrollWindow_length : length (scrollWindow text pos) = 16%nat.
Proof.
  assert (Hp : (p < length text)%nat) by lia.
  rewrite scrollWindow_eq. destruct (p + 16 <=? length text)%nat eqn:E.
  - apply Nat.leb_le in E. rewrite length_firstn, length_skipn. lia.
  - apply Nat.leb_gt in E.
    rewrite length_app, length_skipn, length_firstn. lia.
Qed.

(** The window is circular: its [i]-th character is the one [i] places
    after the cursor, counted modulo the length of the text. *)
Lemma scrollWindow_nth (i : nat) :
  (i < 16)%nat ->
  nth i (scrollWindow text pos) zero = charAt text ((p + i) mod length text).
Proof.
  intros Hi. assert (Hp : (p < length text)%nat) by lia.
  unfold charAt. rewrite scrollWindow_eq.
  destruct (p + 16 <=? length text)%nat eqn:E.
  - apply Nat.leb_le in E. rewrite nth_firstn.
    apply Nat.ltb_lt in Hi. rewrite Hi. apply Nat.ltb_lt in Hi.
    rewrite nth_skipn, Nat.mod_small by lia. reflexivity.
  - apply Nat.leb_gt in E.
    destruct (Nat.lt_ge_cases i (length text - p)) as [Hlt|Hge].
    + rewrite app_nth1 by (rewrite length_skipn; lia).
      rewrite nth_skipn, Nat.mod_small by lia. reflexivity.
    + rewrite app_nth2 by (rewrite length_skipn; lia).
      rewrite length_skipn, nth_firstn.
      replace (i - (length text - p) <? 16 - (length text - p))%nat with true
        by (symmetry; apply Nat.ltb_lt; lia).
      f_equal.
      assert (Hm : ((p + i) mod length text = p + i - length text)%nat).
      { symmetry. apply Nat.mod_unique with (q := 1%nat); lia. }
      lia.
Qed.

(** The scroll branch of [printLcdLine]. *)
Lemma printLcdLine_scroll (r : nat) (l : Lcd.t) :
  printLcdLine r text pos true l
  = (Lcd.print (scrollWindow text pos) (Lcd.setCursor 0 r l),
     (pos + 1) mod Z.of_nat (length text)).
Proof.
  unfold printLcdLine. cbn [negb].
  assert (Hw : wrap_long (pos + 1) = pos + 1).
  { unfold wrap_long. rewrite Z.mod_small; lia. }
  rewrite Hw, wrap_ulong_small by lia.
  destruct (Z.of_nat (length text) <=? pos + 1) eqn:E.
  - apply Z.leb_le in E.
    replace (pos + 1) with (Z.of_nat (length text)) by lia.
    rewrite Z.mod_same by lia. reflexivity.
  - apply Z.leb_gt in E. rewrite Z.mod_small by lia. reflexivity.
Qed.

End Scrolling.

Section Reachable.

Lemma formatQuestion_fits (d : Display) :
  (length (qLine1 (formatQuestion d)) <= 16)%nat
  /\ (length (qLine2 (formatQuestion d)) <= 16)%nat
  /\ (scrollQ (formatQuestion d) = true -> (16 < length (quizText d))%nat).
Proof.
  unfold formatQuestion.
  destruct (length (quizText d) <=? 16)%nat eqn:E1.
  - apply Nat.leb_le in E1. cbn [qLine1 qLine2 scrollQ with_layout length].
    repeat split; try lia; try discriminate.
  - apply Nat.leb_gt in E1.
    destruct (length (quizText d) <=? 32)%nat;
      [|cbn [qLine1 qLine2 scrollQ with_layout length]; repeat split; lia].
    destruct (0 <? _);
      [|cbn [qLine1 qLine2 scrollQ with_layout length]; repeat split; lia].
    destruct (_ && _)%bool eqn:E3;
      [|cbn [qLine1 qLine2 scrollQ with_layout length]; repeat split; lia].
    apply andb_prop in E3 as [Ea Eb].
    apply Nat.leb_le in Ea, Eb.
    cbn [qLine1 qLine2 scrollQ with_layout].
    split; [exact Ea|split; [exact Eb|discriminate]].
Qed.

Lemma handleQuiz_displayOk (r : Request) (millis : Z) (st : State) :
  wellFormed (lcd st) -> displayOk (fst (handleQuiz r millis st)).
Proof.
  intros Hw. unfold displayOk.
  destruct (handleQuiz_texts r millis st)
    as (Hq & Hqt & Ha1 & Ha1t & Ha2 & Ha2t & Hl1 & Hl2).
  destruct (handleQuiz_page r millis st) as (_ & _ & P1 & P2 & P3 & _ & _ & Hl & _).
  cbn zeta in *.
  set (d' := display (fst (handleQuiz r millis st))) in *.
  match type of Hq with _ = scrollQ (setQuestion ?q _) =>
    destruct (formatQuestion_fits
                {| quizText := q; ans1Text := ans1Text (display st);
                   ans2Text := ans2Text (display st);
                   qLine1 := qLine1 (display st); qLine2 := qLine2 (display st);
                   scrollQ := scrollQ (display st);
                   scrollA1 := scrollA1 (display st);
                   scrollA2 := scrollA2 (display st);
                   lastLcdUpdate := lastLcdUpdate (display st);
                   showQuestion := showQuestion (display st);
                   lastPageSwap := lastPageSwap (display st);
                   scrollPosQ := scrollPosQ (display st);
                   scrollPosA1 := scrollPosA1 (display st);
                   scrollPosA2 := scrollPosA2 (display st) |})
      as (F1 & F2 & F3)
  end.
  cbn [quizText] in F3.
  set (q := if hasArg r (lit "q") then _ else _) in *.
  set (a1 := if hasArg r (lit "a1") then _ else _) in *.
  set (a2 := if hasArg r (lit "a2") then _ else _) in *.
  assert (Hm : modesFit d').
  { unfold modesFit. rewrite Hl1, Hl2, Ha1t, Ha2t, Hqt.
    split; [exact F1|]. split; [exact F2|].
    rewrite Ha1, Ha2.
    split; [|split].
    - destruct (16 <? length a1)%nat eqn:E.
      + apply Nat.ltb_lt in E. rewrite length_app. lia.
      + apply Nat.ltb_ge in E. exact E.
    - destruct (16 <? length a2)%nat eqn:E.
      + apply Nat.ltb_lt in E. rewrite length_app. lia.
      + apply Nat.ltb_ge in E. exact E.
    - intros Hs. rewrite Hs. rewrite Hq in Hs. specialize (F3 Hs).
      rewrite length_app. lia. }
  split; [exact Hm|]. split.
  - destruct Hm as (_ & _ & M1 & M2 & M3).
    unfold cursorsFit, cursorOk. rewrite P1, P2, P3.
    split; [|split]; intros Hs Hlen.
    + specialize (M3 Hs). lia.
    + rewrite Hs in M1. lia.
    + rewrite Hs in M2. lia.
  - rewrite Hl. exact Hw.
Qed.

(** A request either leaves display and screen alone or is a [/quiz]. *)
Lemma handleClient_display (req : option Request) (millis : Z) (st : State) :
  (display (fst (handleClient req millis st)) = display st
   /\ lcd (fst (handleClient req millis st)) = lcd st)
  \/ exists r, fst (handleClient req millis st) = fst (handleQuiz r millis st).
Proof.
  unfold handleClient. destruct req as [r|]; [|left; split; reflexivity].
  destruct (serverBegun st); [|left; split; reflexivity]. cbn [negb].
  destruct (method r); [|left; split; reflexivity].
  repeat (destruct (WString_eqb (uri r) _);
          [try (left; split; reflexivity)|]);
    try (left; split; reflexivity).
  - unfold handleMove.
    repeat (match goal with |- context [if ?c then _ else _] => destruct c end;
            try (left; split; reflexivity)).
  - right. exists r. reflexivity.
Qed.

Lemma write_wellFormed (c : ascii) (l : Lcd.t) :
  wellFormed l -> wellFormed (Lcd.write c l).
Proof.
  intros [H0 H1]. unfold wellFormed, Lcd.write.
  destruct (Lcd.row l); cbn; rewrite ?put_length; auto.
Qed.

Lemma print_wellFormed (s : WString) :
  forall l, wellFormed l -> wellFormed (Lcd.print s l).
Proof.
  induction s as [|c s IH]; intros l H; [exact H|].
  change (Lcd.print (c :: s) l) with (Lcd.print s (Lcd.write c l)).
  apply IH, write_wellFormed, H.
Qed.

Lemma clear_wellFormed (l : Lcd.t) : wellFormed (Lcd.clear l).
Proof. split; reflexivity. Qed.

Lemma setCursor_wellFormed (c r : nat) (l : Lcd.t) :
  wellFormed l -> wellFormed (Lcd.setCursor c r l).
Proof. intros H. exact H. Qed.

Lemma printLcdLine_wellFormed r text pos scroll l :
  wellFormed l -> wellFormed (fst (printLcdLine r text pos scroll l)).
Proof.
  intros H. destruct scroll.
  - unfold printLcdLine. cbn [negb].
    destruct (_ <=? _); cbn [fst]; apply print_wellFormed; exact H.
  - rewrite printLcdLine_static. cbn [fst]. apply print_wellFormed. exact H.
Qed.

Lemma printLcdLine_cursor r text pos scroll l :
  (scroll = true -> (16 <= length text)%nat) ->
  (scroll = true -> cursorOk text pos) ->
  (scroll = true -> cursorOk text (snd (printLcdLine r text pos scroll l)))
  /\ (scroll = false -> snd (printLcdLine r text pos scroll l) = pos).
Proof.
  intros Hlen Hc. split; intros ->.
  - intros Hidx. specialize (Hlen eq_refl). specialize (Hc eq_refl Hidx).
    rewrite (printLcdLine_scroll text pos Hlen Hidx Hc). cbn [snd].
    apply Z.mod_pos_bound. lia.
  - rewrite printLcdLine_static. reflexivity.
Qed.

End Reachable.

Section Invariant.

Ltac open_displayOk :=
  unfold displayOk, modesFit, cursorsFit in *;
  cbn [display lcd with_lcd with_display with_stepper with_votes
       with_lastLcdUpdate with_page
       quizText ans1Text ans2Text qLine1 qLine2 scrollQ scrollA1 scrollA2
       scrollPosQ scrollPosA1 scrollPosA2] in *.

Lemma initial_displayOk : displayOk initial.
Proof.
  unfold displayOk, modesFit, cursorsFit, wellFormed. cbn.
  repeat split; try lia; discriminate.
Qed.

Lemma setup_displayOk c1 c2 wifi st : displayOk st -> displayOk (setup c1 c2 wifi st).
Proof.
  intros (Hm & Hc & Hw). unfold setup.
  destruct wifi; (split; [exact Hm|split; [exact Hc|]]); cbn [lcd];
    repeat (apply print_wellFormed || apply clear_wellFormed
            || apply setCursor_wellFormed).
Qed.

Lemma afterRequest_displayOk inp st :
  displayOk st -> displayOk (afterRequest inp st).
Proof.
  intros H. unfold afterRequest.
  destruct (handleClient_display (request inp) (millis_quiz inp) st)
    as [[Ed El]|[r E]].
  - unfold displayOk. rewrite Ed, El. exact H.
  - rewrite E. apply handleQuiz_displayOk. apply H.
Qed.

Lemma swapPage_displayOk now st : displayOk st -> displayOk (swapPage now st).
Proof.
  intros H. unfold swapPage. destruct (_ >? _); [|exact H].
  destruct H as ((M1 & M2 & M3 & M4 & M5) & _ & _).
  open_displayOk. unfold cursorOk.
  split; [auto|]. split; [|apply clear_wellFormed].
  split; [|split]; intros Hs Hl.
  - specialize (M5 Hs). lia.
  - rewrite Hs in M3. lia.
  - rewrite Hs in M4. lia.
Qed.

Lemma refreshLcd_displayOk now st :
  displayOk st -> displayOk (refreshLcd now st).
Proof.
  intros H. unfold refreshLcd. destruct (_ >? _); [|exact H].
  destruct H as ((M1 & M2 & M3 & M4 & M5) & (C1 & C2 & C3) & Hw).
  destruct (showQuestion (display st)) eqn:Es.
  - destruct (scrollQ (display st)) eqn:Eq.
    + match goal with |- context [printLcdLine 1 ?t ?p true ?l] =>
        pose proof (printLcdLine_wellFormed 1 t p true l) as W;
        pose proof (printLcdLine_cursor 1 t p true l) as K;
        destruct (printLcdLine 1 t p true l) as [l1 p1]
      end.
      cbn [fst snd] in W, K. open_displayOk. rewrite Eq.
      split; [auto|]. split.
      * split; [|auto]. intros _. apply K; auto.
      * apply W, print_wellFormed. exact Hw.
    + rewrite !printLcdLine_static. open_displayOk. rewrite Eq.
      split; [auto|]. split; [split; [discriminate|auto]|].
      repeat apply print_wellFormed. exact Hw.
  - match goal with |- context [printLcdLine 0 ?t ?p ?sc ?l] =>
      pose proof (printLcdLine_wellFormed 0 t p sc l) as W;
      pose proof (printLcdLine_cursor 0 t p sc l) as K;
      destruct (printLcdLine 0 t p sc l) as [l1 p1]
    end.
    match goal with |- context [printLcdLine 1 ?t ?p ?sc ?l] =>
      pose proof (printLcdLine_wellFormed 1 t p sc l) as W';
      pose proof (printLcdLine_cursor 1 t p sc l) as K';
      destruct (printLcdLine 1 t p sc l) as [l2 p2]
    end.
    cbn [fst snd] in W, K, W', K'. open_displayOk.
    split; [auto|]. split.
    + split; [exact C1|]. split.
      * intros Hs. apply K; auto. intros _. rewrite Hs in M3. exact M3.
      * intros Hs. apply K'; auto. intros _. rewrite Hs in M4. exact M4.
    + apply W', W, Hw.
Qed.

Lemma motorAndSensors_display inp st :
  display (fst (motorAndSensors inp st)) = display st
  /\ lcd (fst (motorAndSensors inp st)) = lcd st.
Proof.
  destruct (motorAndSensors_branches inp st) as [[_ E]|(_ & _ & E)];
    rewrite E; [split; reflexivity|].
  cbn zeta. set (s0 := with_stepper _ st).
  destruct (checkSensor1_cases inp s0) as [E1|(_ & _ & _ & E1)]; rewrite E1;
    match goal with |- context [checkSensor2 inp ?s] =>
      destruct (checkSensor2_cases inp s) as [E2|(_ & _ & _ & E2)]; rewrite E2
    end; split; reflexivity.
Qed.

Lemma loop_displayOk inp st : displayOk st -> displayOk (next (loop inp st)).
Proof.
  intros H. destruct (loop_unfold inp st) as (Hn & _).
  rewrite Hn. destruct (motorAndSensors_display inp (beforeMotor inp st))
    as [Ed El].
  unfold displayOk. rewrite Ed, El.
  apply refreshLcd_displayOk, swapPage_displayOk, afterRequest_displayOk, H.
Qed.

Lemma loops_displayOk inps :
  forall st, displayOk st -> displayOk (loops inps st).
Proof.
  induction inps as [|inp rest IH]; intros st H; [exact H|].
  apply IH, loop_displayOk, H.
Qed.

End Invariant.

Section Rendering.

(** One call of [printLcdLine] whose text agrees with its mode. *)
Lemma printLcdLine_line (r : nat) (text : WString) (pos : Z) (scroll : bool)
  (l : Lcd.t) :
  wellFormed l ->
  (if scroll
   then (16 <= length text)%nat /\ Z.of_nat (length text) < 2 ^ 31
        /\ 0 <= pos < Z.of_nat (length text)
   else (length text <= 16)%nat) ->
  let l' := fst (printLcdLine r text pos scroll l) in
  Lcd.line r l' = (if scroll then scrollWindow text pos else staticRun text)
  /\ Lcd.col l' = 16%nat
  /\ wellFormed l'
  /\ (r = O -> Lcd.line1 l' = Lcd.line1 l)
  /\ (r <> O -> Lcd.line0 l' = Lcd.line0 l).
Proof.
  intros Hw H. destruct scroll.
  - destruct H as (H1 & H2 & H3).
    rewrite (printLcdLine_scroll text pos H1 H2 H3). cbn [fst].
    apply print_full_line; [apply scrollWindow_length; assumption|exact Hw].
  - rewrite printLcdLine_static. cbn [fst].
    apply print_full_line; [apply staticRun_length; assumption|exact Hw].
Qed.

Lemma staticRun_parts (text : WString) :
  firstn (length text) (staticRun text) = text
  /\ skipn (length text) (staticRun text) = repeat " "%char (16 - length text).
Proof.
  unfold staticRun. split.
  - rewrite firstn_app, Nat.sub_diag, firstn_all. cbn [firstn].
    apply app_nil_r.
  - rewrite skipn_app, Nat.sub_diag, skipn_all. reflexivity.
Qed.

(** What [refreshLcd] leaves on the screen when it redraws. *)
Lemma refreshLcd_lines now st :
  displayOk st -> indexable (display st) ->
  wrap_ulong (now - lastLcdUpdate (display st)) > SCROLL_INTERVAL ->
  Lcd.line0 (lcd (refreshLcd now st)) = expectedLine0 (display st)
  /\ Lcd.line1 (lcd (refreshLcd now st)) = expectedLine1 (display st).
Proof.
  intros ((M1 & M2 & M3 & M4 & M5) & (C1 & C2 & C3) & Hw) (I1 & I2 & I3) Hdue.
  unfold refreshLcd, expectedLine0, expectedLine1.
  apply Z.gt_lt, Z.gtb_lt in Hdue. rewrite Hdue.
  destruct (showQuestion (display st)).
  - destruct (scrollQ (display st)) eqn:Eq.
    + destruct (print_full_line (lit "Domanda:        ") 0 (lcd st) eq_refl Hw)
        as (D1 & _ & D3 & _).
      match goal with |- context [printLcdLine 1 ?t ?p true ?l] =>
        destruct (printLcdLine_line 1 t p true l D3) as (L1 & _ & _ & _ & L5);
          [split; [auto|split; [exact I1|apply C1; auto]]|];
        destruct (printLcdLine 1 t p true l) as [l1 p1]
      end.
      cbn [fst] in L1, L5. cbn [lcd with_lcd]. cbn [Lcd.line] in L1, D1.
      rewrite L5 by discriminate. split; [exact D1|exact L1].
    + match goal with |- context [printLcdLine 0 ?t ?p false ?l] =>
        destruct (printLcdLine_line 0 t p false l Hw M1)
          as (L1 & _ & L3 & _ & _);
        destruct (printLcdLine 0 t p false l) as [l1 p1]
      end.
      cbn [fst] in L1, L3.
      match goal with |- context [printLcdLine 1 ?t ?p false ?l] =>
        destruct (printLcdLine_line 1 t p false l L3 M2)
          as (K1 & _ & _ & _ & K5);
        destruct (printLcdLine 1 t p false l) as [l2 p2]
      end.
      cbn [fst] in K1, K5. cbn [lcd with_lcd]. cbn [Lcd.line] in L1, K1.
      rewrite K5 by discriminate. split; [exact L1|exact K1].
  - match goal with |- context [printLcdLine 0 ?t ?p ?sc ?l] =>
      destruct (printLcdLine_line 0 t p sc l Hw) as (L1 & _ & L3 & _ & _);
        [destruct sc; [split; [exact M3|split; [exact I2|apply C2; auto]]
                      |exact M3]|];
      destruct (printLcdLine 0 t p sc l) as [l1 p1]
    end.
    cbn [fst] in L1, L3.
    match goal with |- context [printLcdLine 1 ?t ?p ?sc ?l] =>
      destruct (printLcdLine_line 1 t p sc l L3) as (K1 & _ & _ & _ & K5);
        [destruct sc; [split; [exact M4|split; [exact I3|apply C3; auto]]
                      |exact M4]|];
      destruct (printLcdLine 1 t p sc l) as [l2 p2]
    end.
    cbn [fst] in K1, K5. cbn [lcd with_lcd]. cbn [Lcd.line] in L1, K1.
    rewrite K5 by discriminate. split; [exact L1|exact K1].
Qed.

End Rendering.

(** C10.  A call of [printLcdLine] writes 16 characters from column 0 of
    its row.  In static mode, for a text of at most 16 characters, they are
    the text followed by spaces up to column 16, and the cursor variable is
    left alone.  In scroll mode, for a text of at least 16 characters and a
    cursor within it, they are the window in which the [i]-th character is
    the one [i] places after the cursor modulo the length of the text, and
    the cursor moves on by one modulo that length, so it stays within the
    text.  Afterwards the row shows exactly these 16 characters whatever it
    showed before; in particular a static text drawn over another one leaves
    nothing of the first, without any clearing.  Every state the sketch
    reaches, through [setup] and any number of iterations of [loop()] with
    any requests, keeps what these calls need: the texts drawn statically
    ([qLine1], [qLine2], an answer whose scroll flag is off) have at most 16
    characters, the texts that scroll have at least 16, the cursors of the
    scrolling texts are within them, and each line of the display holds 16
    characters; so whenever [loop()] redraws, both rows show what the page
    calls for. *)
Theorem C10_render_writes_whole_line :
  (forall r text pos l,
      wellFormed l -> (length text <= 16)%nat ->
      let l' := fst (printLcdLine r text pos false l) in
      Lcd.line r l' = staticRun text
      /\ length (staticRun text) = 16%nat
      /\ Lcd.col l' = 16%nat
      /\ firstn (length text) (staticRun text) = text
      /\ skipn (length text) (staticRun text)
         = repeat " "%char (16 - length text)
      /\ snd (printLcdLine r text pos false l) = pos)
  /\ (forall r text pos l,
      wellFormed l -> (16 <= length text)%nat ->
      Z.of_nat (length text) < 2 ^ 31 ->
      0 <= pos < Z.of_nat (length text) ->
      let l' := fst (printLcdLine r text pos true l) in
      let pos' := snd (printLcdLine r text pos true l) in
      Lcd.line r l' = scrollWindow text pos
      /\ length (scrollWindow text pos) = 16%nat
      /\ Lcd.col l' = 16%nat
      /\ (forall i, (i < 16)%nat ->
            nth i (scrollWindow text pos) zero
            = charAt text ((Z.to_nat pos + i) mod length text))
      /\ pos' = (pos + 1) mod Z.of_nat (length text)
      /\ 0 <= pos' < Z.of_nat (length text))
  /\ (forall r first second pos l,
      wellFormed l ->
      (length first <= 16)%nat -> (length second <= 16)%nat ->
      Lcd.line r
        (fst (printLcdLine r second pos false
                (fst (printLcdLine r first pos false l))))
      = staticRun second)
  /\ (forall clock1 clock2 wifi inps,
      displayOk (loops inps (setup clock1 clock2 wifi initial)))
  /\ (forall now st,
      displayOk st -> indexable (display st) ->
      wrap_ulong (now - lastLcdUpdate (display st)) > SCROLL_INTERVAL ->
      Lcd.line0 (lcd (refreshLcd now st)) = expectedLine0 (display st)
      /\ Lcd.line1 (lcd (refreshLcd now st)) = expectedLine1 (display st)).
Proof.
  split; [|split; [|split; [|split]]].
  - intros r text pos l Hw Hlen l'.
    destruct (printLcdLine_line r text pos false l Hw Hlen) as (L1 & L2 & _).
    destruct (staticRun_parts text) as [S1 S2].
    split; [exact L1|]. split; [apply staticRun_length, Hlen|].
    split; [exact L2|]. split; [exact S1|]. split; [exact S2|].
    rewrite printLcdLine_static. reflexivity.
  - intros r text pos l Hw Hlen Hidx Hpos l' pos'.
    destruct (printLcdLine_line r text pos true l Hw (conj Hlen (conj Hidx Hpos)))
      as (L1 & L2 & _).
    split; [exact L1|].
    split; [apply scrollWindow_length; assumption|].
    split; [exact L2|].
    split; [intros i Hi; apply scrollWindow_nth; assumption|].
    unfold pos'. rewrite (printLcdLine_scroll text pos Hlen Hidx Hpos).
    cbn [snd]. split; [reflexivity|]. apply Z.mod_pos_bound. lia.
  - intros r first second pos l Hw H1 H2.
    destruct (printLcdLine_line r first pos false l Hw H1) as (_ & _ & W & _).
    destruct (printLcdLine_line r second pos false _ W H2) as (L & _).
    exact L.
  - intros clock1 clock2 wifi inps.
    apply loops_displayOk, setup_displayOk, initial_displayOk.
  - apply refreshLcd_lines.
Qed.

(** C10 at work: ["Roma"] drawn over ["Una riga piena!!"] on the second
    row. *)
Lemma C10_render_writes_whole_line_witness :
  Lcd.line 1
    (fst (printLcdLine 1 (lit "Roma") 0 false
            (fst (printLcdLine 1 (lit "Una riga piena!!") 0 false Lcd.init))))
  = lit "Roma            ".
Proof.
  refine (proj1 (proj2 (proj2 C10_render_writes_whole_line))
            1%nat (lit "Una riga piena!!") (lit "Roma") 0 Lcd.init _ _ _).
  - split; reflexivity.
  - vm_compute. lia.
  - vm_compute. lia.
Defined.

(* ================================================================= *)
(** ** Further properties: decimal texts and [/move]                  *)
(* ================================================================= *)

Section Decimal.

Lemma digits_stops (rest : WString) (acc : Z) :
  stops rest -> digits acc rest = acc.
Proof.
  destruct rest as [|c r]; simpl; [reflexivity|]. intros H. rewrite H.
  reflexivity.
Qed.

Lemma lit_String (c : ascii) (s : string) : lit (String c s) = c :: lit s.
Proof. reflexivity. Qed.

Ltac read_digit :=
  cbn [NilEmpty.string_of_uint]; rewrite lit_String; cbn [app];
  match goal with
  | |- digits ?a (?c :: ?r) = _ =>
      change (digits a (c :: r))
        with (if isdigit c then digits (a * 10 + digit_value c) r else a);
      replace (isdigit c) with true by (vm_compute; reflexivity);
      let v := eval vm_compute in (digit_value c) in
      change (digit_value c) with v
  end.

(** Reading the digits of a decimal numeral continues the accumulator the
    way [Pos.of_uint_acc] does. *)
Lemma digits_uint_acc (d : Decimal.uint) (rest : WString) :
  stops rest ->
  forall acc : positive,
    digits (Z.pos acc) (lit (NilEmpty.string_of_uint d) ++ rest)
    = Z.pos (Pos.of_uint_acc d acc).
Proof.
  intros Hs. induction d as [|d IH|d IH|d IH|d IH|d IH|d IH|d IH|d IH|d IH|d IH];
    intros acc;
    [apply digits_stops; exact Hs|..];
    read_digit; cbn [Pos.of_uint_acc]; rewrite <- IH; f_equal; lia.
Qed.

Lemma digits_uint (d : Decimal.uint) (rest : WString) :
  stops rest ->
  digits 0 (lit (NilEmpty.string_of_uint d) ++ rest) = Z.of_N (Pos.of_uint d).
Proof.
  intros Hs. induction d as [|d IH|d IH|d IH|d IH|d IH|d IH|d IH|d IH|d IH|d IH];
    [apply digits_stops; exact Hs|..];
    read_digit; [exact IH|..];
    cbn [Pos.of_uint Z.of_N];
    rewrite <- (digits_uint_acc d rest Hs); reflexivity.
Qed.

Lemma isdigit_plain (c : ascii) :
  isdigit c = true ->
  isspace c = false /\ Ascii.eqb c "-" = false /\ Ascii.eqb c "+" = false.
Proof.
  intros H. split; [|split].
  - unfold isdigit, isspace in *. apply andb_prop in H as [H1 H2].
    apply Nat.leb_le in H1, H2.
    apply orb_false_intro; [apply Nat.eqb_neq; lia|].
    apply andb_false_intro2. apply Nat.leb_gt. lia.
  - destruct (Ascii.eqb c "-") eqn:E; [|reflexivity].
    apply Ascii.eqb_eq in E. subst c. discriminate.
  - destruct (Ascii.eqb c "+") eqn:E; [|reflexivity].
    apply Ascii.eqb_eq in E. subst c. discriminate.
Qed.

Lemma toInt_digit_start (c : ascii) (s : WString) :
  isdigit c = true -> toInt (c :: s) = Z.min LONG_MAX (digits 0 (c :: s)).
Proof.
  intros H. destruct (isdigit_plain c H) as (H1 & H2 & H3).
  unfold toInt. cbn [skip_space]. rewrite H1, H2, H3. reflexivity.
Qed.

(** The decimal text of a positive number: digits only, the first one
    included, and read back by [digits] as the number. *)
Lemma decimal_of_positive (p : positive) (rest : WString) :
  stops rest ->
  String_of_long (Z.pos p)
  = lit (NilEmpty.string_of_uint (Pos.to_uint p))
  /\ (exists c s, lit (NilEmpty.string_of_uint (Pos.to_uint p)) = c :: s
                  /\ isdigit c = true)
  /\ digits 0 (lit (NilEmpty.string_of_uint (Pos.to_uint p)) ++ rest)
     = Z.pos p.
Proof.
  intros Hs. split; [|split].
  - unfold String_of_long. cbn [Z.to_int NilZero.string_of_int].
    pose proof (DecimalPos.Unsigned.to_uint_nonnil p) as Hn.
    unfold NilZero.string_of_uint.
    destruct (Pos.to_uint p); [contradiction|reflexivity..].
  - pose proof (DecimalPos.Unsigned.to_uint_nonnil p) as Hn.
    destruct (Pos.to_uint p); [contradiction|..];
      cbn [NilEmpty.string_of_uint]; rewrite lit_String;
      eexists; eexists; (split; [reflexivity|vm_compute; reflexivity]).
  - rewrite digits_uint by exact Hs.
    rewrite DecimalPos.Unsigned.of_to. reflexivity.
Qed.

(** [toInt] on the decimal text of any integer, also when the text goes on
    with something that is not a digit: the integer, saturated to [long]. *)
Lemma toInt_decimal (z : Z) (rest : WString) :
  stops rest ->
  toInt (String_of_long z ++ rest) = Z.max LONG_MIN (Z.min LONG_MAX z).
Proof.
  intros Hs. destruct z as [|p|p].
  - change (String_of_long 0) with (lit "0"). cbn [lit list_ascii_of_string app].
    rewrite toInt_digit_start by reflexivity.
    change (digits 0 ("0"%char :: rest)) with (digits 0 rest).
    rewrite digits_stops by exact Hs. reflexivity.
  - destruct (decimal_of_positive p rest Hs) as (E & (c & s & Ec & Hc) & Hd).
    rewrite E. rewrite Ec in *. cbn [app] in *.
    rewrite toInt_digit_start by exact Hc. rewrite Hd.
    unfold LONG_MAX, LONG_MIN. lia.
  - destruct (decimal_of_positive p rest Hs) as (E & _ & Hd).
    assert (En : String_of_long (Z.neg p)
                 = "-"%char :: lit (NilEmpty.string_of_uint (Pos.to_uint p))).
    { unfold String_of_long in *. cbn [Z.to_int NilZero.string_of_int] in *.
      rewrite lit_String. f_equal. exact E. }
    rewrite En. cbn [app]. unfold toInt. cbn [skip_space].
    change (isspace "-") with false. cbn iota.
    rewrite (proj2 (Ascii.eqb_eq "-" "-") eq_refl), Hd.
    unfold LONG_MIN, LONG_MAX. lia.
Qed.

(** Round trip: [toInt] reads back the decimal text [String(z)] of any
    [long]. *)
Lemma toInt_String_of_long (z : Z) (rest : WString) :
  stops rest -> LONG_MIN <= z <= LONG_MAX ->
  toInt (String_of_long z ++ rest) = z.
Proof.
  intros Hs Hr. rewrite toInt_decimal by exact Hs. lia.
Qed.

Lemma String_of_long_zero (z : Z) : String_of_long z = lit "0" -> z = 0.
Proof.
  intros H. destruct z as [|p|p]; [reflexivity|..]; exfalso.
  - destruct (decimal_of_positive p [] I) as (E & _ & Hd).
    rewrite app_nil_r, <- E, H in Hd. discriminate.
  - unfold String_of_long in H. cbn [Z.to_int NilZero.string_of_int] in H.
    rewrite lit_String in H. discriminate.
Qed.

End Decimal.

Section MoveTexts.

Lemma moveRequest_arg (raw : WString) :
  hasArg (moveRequest raw) (lit "steps") = true
  /\ arg (moveRequest raw) (lit "steps") = raw.
Proof.
  unfold hasArg, arg, moveRequest. cbn [args findArg].
  rewrite (proj2 (WString_eqb_spec (lit "steps") (lit "steps")) eq_refl).
  split; reflexivity.
Qed.

(** X1.  A [GET /move] whose [steps] parameter is the decimal text of an
    integer [n] with [|n| <= MAX_STEPS] is always accepted: the answer is
    200, the target becomes the current position plus exactly [n], the
    position itself does not change, the drive lines are energised, and
    votes and display are untouched. *)
Theorem move_accepts_decimal_in_range :
  forall (n millis : Z) (st : State),
    serverBegun st = true -> Z.abs n <= MAX_STEPS ->
    let res := handleClient (Some (moveRequest (String_of_long n))) millis st in
    option_map status (snd res) = Some 200
    /\ AccelStepper.targetPos (stepper (fst res))
       = AccelStepper.currentPos (stepper st) + n
    /\ AccelStepper.currentPos (stepper (fst res))
       = AccelStepper.currentPos (stepper st)
    /\ AccelStepper.outputsEnabled (stepper (fst res)) = true
    /\ votes (fst res) = votes st /\ display (fst res) = display st.
Proof.
  intros n millis st Hb Hn res. unfold res.
  set (r := moveRequest (String_of_long n)).
  rewrite (handleClient_move r millis st Hb eq_refl eq_refl). cbn [fst snd].
  destruct (moveRequest_arg (String_of_long n)) as [Ha Hv]. fold r in Ha, Hv.
  assert (Ht : toInt (arg r (lit "steps")) = n).
  { rewrite Hv, <- (app_nil_r (String_of_long n)).
    apply toInt_String_of_long; [exact I|].
    unfold MAX_STEPS, LONG_MIN, LONG_MAX in *. lia. }
  assert (Hmin : LONG_MIN < toInt (arg r (lit "steps"))).
  { rewrite Ht. unfold MAX_STEPS, LONG_MIN in *. lia. }
  assert (Hnr : ~ moveRejected r).
  { unfold moveRejected. rewrite Ha, Ht, Hv.
    intros [H|[[H0 H1]|H]]; [discriminate| |lia].
    apply H1. rewrite H0. reflexivity. }
  pose proof (handleMove_cases r st Hmin) as Hc. cbn zeta in Hc.
  destruct Hc as [_ Hacc]. destruct (Hacc Hnr) as [E1 E2].
  rewrite E1, E2, Ht. repeat split.
Qed.

(** X1 at work: [/move?steps=-8192], the largest move backwards. *)
Lemma move_accepts_decimal_in_range_witness :
  let res := handleClient (Some (moveRequest (String_of_long (-8192)))) 0
               booted in
  option_map status (snd res) = Some 200
  /\ AccelStepper.targetPos (stepper (fst res))
     = AccelStepper.currentPos (stepper booted) + -8192.
Proof.
  intros res.
  refine (let H := move_accepts_decimal_in_range (-8192) 0 booted _ _ in
          conj (proj1 H) (proj1 (proj2 H))).
  - reflexivity.
  - vm_compute. congruence.
Defined.

(** X2.  A [GET /move] whose [steps] parameter is the decimal text of an
    integer [n] beyond the bound, however large on the positive side and
    down to [LONG_MIN] excluded on the negative side, is refused: status
    400, the message names the value [toInt] read (the integer, saturated at
    [LONG_MAX]) and the limit 8192, and the state is left as it was. *)
Theorem move_rejects_decimal_out_of_range :
  forall (n millis : Z) (st : State),
    serverBegun st = true ->
    MAX_STEPS < n \/ LONG_MIN < n < - MAX_STEPS ->
    let res := handleClient (Some (moveRequest (String_of_long n))) millis st in
    fst res = st
    /\ snd res
       = Some (send 400 text_plain
                 (lit "ERRORE: troppi passi ("
                  ++ String_of_long (Z.min LONG_MAX n)
                  ++ lit "). Max: " ++ lit "8192")).
Proof.
  intros n millis st Hb Hn res. unfold res.
  set (r := moveRequest (String_of_long n)).
  rewrite (handleClient_move r millis st Hb eq_refl eq_refl). cbn [fst snd].
  destruct (moveRequest_arg (String_of_long n)) as [Ha Hv]. fold r in Ha, Hv.
  assert (Ht : toInt (arg r (lit "steps")) = Z.min LONG_MAX n).
  { rewrite Hv, <- (app_nil_r (String_of_long n)).
    rewrite toInt_decimal by exact I.
    unfold MAX_STEPS, LONG_MIN, LONG_MAX in *. lia. }
  unfold handleMove. rewrite Ha, Ht. cbn [negb].
  assert (Hr : LONG_MIN < Z.min LONG_MAX n <= LONG_MAX)
    by (unfold MAX_STEPS, LONG_MIN, LONG_MAX in *; lia).
  rewrite (labs_abs _ Hr).
  replace (Z.min LONG_MAX n =? 0) with false
    by (symmetry; apply Z.eqb_neq;
        unfold MAX_STEPS, LONG_MIN, LONG_MAX in *; lia).
  cbn [andb].
  replace (Z.abs (Z.min LONG_MAX n) >? MAX_STEPS) with true
    by (symmetry; apply Z.gtb_lt;
        unfold MAX_STEPS, LONG_MIN, LONG_MAX in *; lia).
  split; reflexivity.
Qed.

(** X2 at work: [/move?steps=99999999999], which does not fit a [long]. *)
Lemma move_rejects_decimal_out_of_range_witness :
  let res := handleClient (Some (moveRequest (String_of_long 99999999999))) 0
               booted in
  fst res = booted
  /\ option_map body (snd res)
     = Some (lit "ERRORE: troppi passi (2147483647). Max: 8192").
Proof.
  intros res.
  refine (let H := move_rejects_decimal_out_of_range 99999999999 0 booted _ _ in
          conj (proj1 H) (f_equal (option_map body) (proj2 H))).
  - reflexivity.
  - left. vm_compute. reflexivity.
Defined.

(** X3.  A [GET /move] without a [steps] parameter, with an empty one, or
    with one whose first character is neither white space, nor a sign, nor
    a digit, is refused with status 400 and nothing changes; in the last
    two cases the message repeats the text received. *)
Theorem move_rejects_text_without_number :
  forall (millis : Z) (st : State),
    serverBegun st = true ->
    (forall r,
        method r = HTTP_GET -> uri r = lit "/move" ->
        hasArg r (lit "steps") = false ->
        handleClient (Some r) millis st
        = (st, Some (send 400 text_plain
               (lit "ERRORE: parametro 'steps' mancante. Usa /move?steps=N"))))
    /\ (forall raw,
        raw = []
        \/ (exists c rest, raw = c :: rest /\ isspace c = false
                           /\ isdigit c = false
                           /\ c <> "-"%char /\ c <> "+"%char) ->
        handleClient (Some (moveRequest raw)) millis st
        = (st, Some (send 400 text_plain
                       (lit "ERRORE: valore non numerico: " ++ raw)))).
Proof.
  intros millis st Hb. split.
  - intros r Hm Hu Ha. rewrite (handleClient_move r millis st Hb Hm Hu).
    unfold handleMove. rewrite Ha. reflexivity.
  - intros raw Hraw.
    rewrite (handleClient_move (moveRequest raw) millis st Hb eq_refl eq_refl).
    destruct (moveRequest_arg raw) as [Ha Hv].
    unfold handleMove. rewrite Ha, Hv. cbn [negb].
    assert (H0 : toInt raw = 0 /\ WString_eqb raw (lit "0") = false).
    { destruct Hraw as [->|(c & rest & -> & Hsp & Hd & Hm & Hp)].
      - split; reflexivity.
      - split.
        + unfold toInt. cbn [skip_space]. rewrite Hsp.
          apply Ascii.eqb_neq in Hm, Hp. rewrite Hm, Hp.
          cbn [digits]. rewrite Hd. reflexivity.
        + destruct (WString_eqb (c :: rest) (lit "0")) eqn:E; [|reflexivity].
          apply WString_eqb_spec in E. injection E as -> _. discriminate. }
    destruct H0 as [Ht Hne]. rewrite Ht, Hne. reflexivity.
Qed.

(** X3 at work: [/move?steps=abc]. *)
Lemma move_rejects_text_without_number_witness :
  handleClient (Some (moveRequest (lit "abc"))) 0 booted
  = (booted, Some (send 400 text_plain
                     (lit "ERRORE: valore non numerico: " ++ lit "abc"))).
Proof.
  refine (proj2 (move_rejects_text_without_number 0 booted _) (lit "abc") _).
  - reflexivity.
  - right. exists "a"%char, (lit "bc").
    repeat split; try reflexivity; discriminate.
Defined.

End MoveTexts.

(* ================================================================= *)
(** ** Further properties: [setup]                                    *)
(* ================================================================= *)

Section Setup.

Import AccelStepper.

Lemma runToIdle_outputs (clock : list bool) :
  forall s, outputsEnabled (runToIdle clock s) = outputsEnabled s.
Proof.
  induction clock as [|b clock IH]; intros s; simpl;
    destruct (distanceToGo s =? 0); try reflexivity.
  rewrite IH. apply run_outputs.
Qed.

(** The motor after [setup], when both test moves get their 64 steps. *)
Lemma setup_motor (clock1 clock2 : list bool) (wifi : bool) (st : State) :
  64 <= dueCount clock1 -> 64 <= dueCount clock2 ->
  stepper (setup clock1 clock2 wifi st)
  = {| currentPos := currentPos (stepper st);
       targetPos := currentPos (stepper st);
       outputsEnabled := false |}.
Proof.
  intros H1 H2.
  set (m1 := runToIdle clock1
               (move 64 (enableOutputs (disableOutputs (stepper st))))).
  assert (P1 : currentPos m1 = currentPos (stepper st) + 64).
  { unfold m1. rewrite runToIdle_reaches; [reflexivity|].
    unfold distanceToGo. simpl. lia. }
  set (m2 := runToIdle clock2 (move (-64) m1)).
  assert (P2 : currentPos m2 = currentPos (stepper st)
               /\ targetPos m2 = currentPos (stepper st)).
  { unfold m2. rewrite runToIdle_target, runToIdle_reaches.
    - simpl. lia.
    - unfold distanceToGo. simpl. lia. }
  assert (E : stepper (setup clock1 clock2 wifi st) = disableOutputs m2).
  { unfold setup. destruct wifi; reflexivity. }
  destruct P2 as [P2 P3]. rewrite E. unfold disableOutputs.
  rewrite P2, P3. reflexivity.
Qed.

(** X4.  When each of the two blocking test moves of [setup] gets its 64
    steps, [setup] hands the motor over idle, at the position it had on
    entry, with the drive lines off; the server is started exactly when the
    network was joined; votes and display texts are untouched; and the
    screen shows ["Server HTTP OK"] on a cleared display after a join, the
    two boot lines otherwise. *)
Theorem setup_returns_motor_to_start :
  forall (clock1 clock2 : list bool) (wifi : bool) (st : State),
    64 <= dueCount clock1 -> 64 <= dueCount clock2 ->
    let st' := setup clock1 clock2 wifi st in
    currentPos (stepper st') = currentPos (stepper st)
    /\ distanceToGo (stepper st') = 0
    /\ outputsEnabled (stepper st') = false
    /\ serverBegun st' = wifi
    /\ votes st' = votes st /\ display st' = display st
    /\ Lcd.line0 (lcd st')
       = (if wifi then lit "Server HTTP OK  " else lit "ESP32 Avvio...  ")
    /\ Lcd.line1 (lcd st')
       = (if wifi then lit "                " else lit "Versione 1.0    ").
Proof.
  intros clock1 clock2 wifi st H1 H2 st'.
  unfold st'. rewrite (setup_motor clock1 clock2 wifi st H1 H2).
  unfold distanceToGo. cbn [currentPos targetPos outputsEnabled].
  split; [reflexivity|]. split; [lia|]. split; [reflexivity|].
  unfold setup. destruct wifi; repeat split.
Qed.

(** X4 at work, with a step clock that skips every other invocation. *)
Lemma setup_returns_motor_to_start_witness :
  let clock := concat (repeat [false; true] 64) in
  let st' := setup clock clock true initial in
  currentPos (stepper st') = currentPos (stepper initial)
  /\ distanceToGo (stepper st') = 0.
Proof.
  intros clock st'.
  refine (let H := setup_returns_motor_to_start clock clock true initial _ _ in
          conj (proj1 H) (proj1 (proj2 H))).
  - vm_compute. congruence.
  - vm_compute. congruence.
Defined.

End Setup.

(* ================================================================= *)
(** ** Further properties: drive lines, votes and feedback moves      *)
(* ================================================================= *)

Section Feedback.

Import AccelStepper.

(** A request leaves the motor alone or sets up a move on energised
    lines. *)
Lemma handleClient_stepper (req : option Request) (millis : Z) (st : State) :
  stepper (fst (handleClient req millis st)) = stepper st
  \/ exists x, stepper (fst (handleClient req millis st))
               = move x (enableOutputs (stepper st)).
Proof.
  unfold handleClient. destruct req as [r|]; [|left; reflexivity].
  destruct (serverBegun st); [|left; reflexivity]. cbn [negb].
  destruct (method r); [|left; reflexivity].
  repeat (destruct (WString_eqb (uri r) _); [try (left; reflexivity)|]);
    try (left; reflexivity).
  - right. eexists. reflexivity.
  - unfold handleMove.
    repeat (match goal with |- context [if ?c then _ else _] => destruct c end;
            try (left; reflexivity)).
    right. eexists. reflexivity.
Qed.

Lemma checkSensor1_vote (inp : LoopInput) (st : State) :
  ldr1 inp = TRIGGER_STATE ->
  lastLdrState1 (votes st) <> TRIGGER_STATE ->
  wrap_ulong (millis_check1 inp - lastVoteTime (votes st)) > VOTE_COOLDOWN ->
  checkSensor1 inp st
  = with_stepper (move LEGACY_STEPS (enableOutputs (stepper st)))
      (with_votes
         (with_lastVoteTime (millis_vote1 inp)
            (with_pending (wrap_long (pendingVotesA (votes st) + 1))
               (pendingVotesB (votes st)) (votes st))) st).
Proof.
  intros H1 H2 H3. unfold checkSensor1.
  apply Z.eqb_eq in H1. apply Z.eqb_neq in H2.
  apply Z.gt_lt, Z.gtb_lt in H3. rewrite H1, H2, H3. reflexivity.
Qed.

Lemma checkSensor2_vote (inp : LoopInput) (st : State) :
  ldr2 inp = TRIGGER_STATE ->
  lastLdrState2 (votes st) <> TRIGGER_STATE ->
  wrap_ulong (millis_check2 inp - lastVoteTime (votes st)) > VOTE_COOLDOWN ->
  checkSensor2 inp st
  = with_stepper (move (- LEGACY_STEPS) (enableOutputs (stepper st)))
      (with_votes
         (with_lastVoteTime (millis_vote2 inp)
            (with_pending (pendingVotesA (votes st))
               (wrap_long (pendingVotesB (votes st) + 1)) (votes st))) st).
Proof.
  intros H1 H2 H3. unfold checkSensor2.
  apply Z.eqb_eq in H1. apply Z.eqb_neq in H2.
  apply Z.gt_lt, Z.gtb_lt in H3. rewrite H1, H2, H3. reflexivity.
Qed.

(** Inside the cooldown, or without the trigger level, a check does
    nothing. *)
Lemma checkSensor1_silent (inp : LoopInput) (st : State) :
  ldr1 inp <> TRIGGER_STATE
  \/ wrap_ulong (millis_check1 inp - lastVoteTime (votes st)) <= VOTE_COOLDOWN ->
  checkSensor1 inp st = st.
Proof.
  intros H. destruct (checkSensor1_cases inp st) as [E|(H1 & _ & H3 & _)];
    [exact E|]. destruct H as [H|H]; [contradiction|lia].
Qed.

Lemma checkSensor2_silent (inp : LoopInput) (st : State) :
  ldr2 inp <> TRIGGER_STATE
  \/ wrap_ulong (millis_check2 inp - lastVoteTime (votes st)) <= VOTE_COOLDOWN ->
  checkSensor2 inp st = st.
Proof.
  intros H. destruct (checkSensor2_cases inp st) as [E|(H1 & _ & H3 & _)];
    [exact E|]. destruct H as [H|H]; [contradiction|lia].
Qed.

(** The motor after the last statement of [loop()]: one invocation of
    [run()], or the lines switched off, or a feedback move set up on
    energised lines. *)
Lemma motorAndSensors_stepper (inp : LoopInput) (st : State) :
  let m := stepper (fst (motorAndSensors inp st)) in
  (distanceToGo (stepper st) <> 0 /\ m = run (step_due inp) (stepper st))
  \/ (distanceToGo (stepper st) = 0
      /\ snd (motorAndSensors inp st) = [PollSensors]
      /\ (m = disableOutputs (stepper st)
          \/ exists x, x <> 0 /\ outputsEnabled m = true
                       /\ targetPos m = currentPos (stepper st) + x
                       /\ currentPos m = currentPos (stepper st))).
Proof.
  cbn zeta.
  destruct (motorAndSensors_branches inp st) as [[Hd E]|(Hd & Ea & E)].
  - left. rewrite E. split; [exact Hd|reflexivity].
  - right. split; [exact Hd|]. split; [exact Ea|]. rewrite E. cbn zeta.
    cbn [stepper with_votes].
    set (s0 := with_stepper (disableOutputs (stepper st)) st).
    destruct (checkSensor2_cases inp (checkSensor1 inp s0))
      as [E2|(_ & _ & _ & E2)]; rewrite E2.
    + destruct (checkSensor1_cases inp s0) as [E1|(_ & _ & _ & E1)]; rewrite E1.
      * left. reflexivity.
      * right. exists LEGACY_STEPS. repeat split. discriminate.
    + right. exists (- LEGACY_STEPS).
      cbn [stepper with_stepper move enableOutputs outputsEnabled targetPos
           currentPos].
      rewrite checkSensor1_position. repeat split. discriminate.
Qed.

Lemma loop_energised (inp : LoopInput) (st : State) :
  energised st -> energised (next (loop inp st)).
Proof.
  intros He. destruct (loop_unfold inp st) as (Hn & _ & _ & Hs & _).
  assert (Ha : energised (beforeMotor inp st)).
  { unfold energised. rewrite Hs. unfold afterRequest.
    destruct (handleClient_stepper (request inp) (millis_quiz inp) st)
      as [E|[x E]]; rewrite E; [exact He|]. intros _. reflexivity. }
  unfold energised. rewrite Hn.
  destruct (motorAndSensors_stepper inp (beforeMotor inp st))
    as [[Hd E]|(Hd & _ & [E|(x & _ & Ho & _)])].
  - rewrite E. rewrite run_outputs. intros _. apply Ha, Hd.
  - rewrite E. unfold distanceToGo in *. cbn. intros H. contradiction.
  - intros _. exact Ho.
Qed.

(** X5.  The drive lines follow the motion: from a state in which they are
    energised whenever a move is outstanding (as [setup] leaves it), no
    sequence of iterations of [loop()], whatever the requests and sensor
    readings, ever reaches a state with a move outstanding and the lines
    off; and an iteration that polls the sensors and sets up no move leaves
    the lines off. *)
Theorem drive_lines_follow_motion :
  (forall inps st, energised st -> energised (loops inps st))
  /\ (forall inp st,
        activity (loop inp st) = [PollSensors] ->
        distanceToGo (stepper (next (loop inp st))) = 0 ->
        outputsEnabled (stepper (next (loop inp st))) = false)
  /\ (forall clock1 clock2 wifi st,
        64 <= dueCount clock1 -> 64 <= dueCount clock2 ->
        energised (setup clock1 clock2 wifi st)).
Proof.
  split; [|split].
  - intros inps. induction inps as [|inp rest IH]; intros st H; [exact H|].
    apply IH, loop_energised, H.
  - intros inp st Ha Hd.
    destruct (loop_unfold inp st) as (Hn & Hact & _).
    rewrite Hn in *. rewrite Hact in Ha.
    destruct (motorAndSensors_stepper inp (beforeMotor inp st))
      as [[Hne E]|(_ & _ & [E|(x & Hx & _ & Ht & Hc)])].
    + destruct (motorAndSensors_branches inp (beforeMotor inp st))
        as [[_ Eb]|(H0 & _)]; [rewrite Eb in Ha; discriminate|contradiction].
    + rewrite E. reflexivity.
    + unfold distanceToGo in Hd. rewrite Ht, Hc in Hd. lia.
  - intros clock1 clock2 wifi st H1 H2.
    intros Hne. exfalso. apply Hne.
    rewrite (setup_motor clock1 clock2 wifi st H1 H2).
    unfold distanceToGo. cbn. lia.
Qed.

(** X5 at work: a [/step] request, then four iterations. *)
Lemma drive_lines_follow_motion_witness :
  energised
    (loops (mkLoopInput (Some (GET "/step" [])) 9000 9000 true HIGH HIGH
              9000 9000 9000 9000 :: ticks 9001 4 HIGH HIGH)
       booted).
Proof.
  refine (proj1 drive_lines_follow_motion _ booted _).
  intros H. exfalso. apply H. reflexivity.
Defined.

End Feedback.

Section Votes.

Import AccelStepper.

(** Quiet iterations that all find the motor moving leave the vote state
    alone. *)
Lemma loops_quiet_moving_votes (inps : list LoopInput) :
  forall st,
    Forall quiet inps ->
    dueCount (removelast (map step_due inps))
      < Z.abs (distanceToGo (stepper st)) ->
    votes (loops inps st) = votes st.
Proof.
  induction inps as [|inp rest IH]; intros st Hq Hd; [reflexivity|].
  inversion Hq as [|? ? Hq1 Hq2]; subst.
  assert (Hne : distanceToGo (stepper st) <> 0).
  { pose proof (dueCount_nonneg (removelast (map step_due (inp :: rest)))).
    lia. }
  destruct (loop_quiet_moving inp st Hq1 Hne) as [Hs Hv].
  cbn [loops]. destruct rest as [|inp2 rest'].
  - simpl. exact Hv.
  - rewrite IH; [exact Hv|assumption|].
    rewrite Hs. change (map step_due (inp :: inp2 :: rest'))
      with (step_due inp :: map step_due (inp2 :: rest')) in Hd.
    change (removelast (step_due inp :: map step_due (inp2 :: rest')))
      with (step_due inp :: removelast (map step_due (inp2 :: rest'))) in Hd.
    rewrite dueCount_cons in Hd.
    unfold distanceToGo in *. rewrite run_target, run_position.
    unfold distanceToGo. destruct (step_due inp); lia.
Qed.

(** A move that is set up is carried out by the quiet iterations that
    follow, the last of which takes the last step. *)
Lemma loops_quiet_carry_out (rest : list LoopInput) (st : State) :
  Forall quiet rest ->
  dueCount (removelast (map step_due rest))
    < Z.abs (distanceToGo (stepper st)) <= dueCount (map step_due rest) ->
  currentPos (stepper (loops rest st)) = targetPos (stepper st)
  /\ distanceToGo (stepper (loops rest st)) = 0
  /\ votes (loops rest st) = votes st.
Proof.
  intros Hq [Hlt Hle].
  rewrite (loops_quiet_motor rest st Hq Hlt).
  rewrite (loops_quiet_moving_votes rest st Hq Hlt).
  assert (Hr := runToIdle_reaches (map step_due rest) (stepper st) Hle).
  unfold distanceToGo. rewrite runToIdle_target, Hr. repeat split. lia.
Qed.

(** The state after a quiet iteration that finds the motor idle. *)
Lemma loop_quiet_idle (inp : LoopInput) (st : State) :
  quiet inp -> distanceToGo (stepper st) = 0 ->
  exists s0,
    stepper s0 = disableOutputs (stepper st) /\ votes s0 = votes st
    /\ next (loop inp st)
       = (let s2 := checkSensor2 inp (checkSensor1 inp s0) in
          with_votes (with_lastLdr (ldr1 inp) (ldr2 inp) (votes s2)) s2).
Proof.
  intros Hq Hd. destruct (loop_quiet_votes inp st Hq) as (Hn & Hv & Hs).
  exists (with_stepper (disableOutputs (stepper (beforeMotor inp st)))
            (beforeMotor inp st)).
  split; [cbn; rewrite Hs; reflexivity|]. split; [exact Hv|].
  rewrite Hn.
  destruct (motorAndSensors_branches inp (beforeMotor inp st))
    as [[Hc _]|(_ & _ & E)]; [rewrite Hs in Hc; contradiction|exact E].
Qed.

(** X6.  A vote is answered by a move of exactly 68 steps: when a quiet
    iteration finds the motor idle and counts a vote of sensor 1 (sensor 2
    not at the trigger level), the quiet iterations that follow carry the
    motor 68 steps forward and stop it there, the 68th due invocation being
    the last, without touching the counters; for a vote of sensor 2 (sensor
    1 not at the trigger level) it is 68 steps backward. *)
Theorem vote_feedback_move_exact :
  forall (inp : LoopInput) (rest : list LoopInput) (st : State),
    Forall quiet (inp :: rest) ->
    distanceToGo (stepper st) = 0 ->
    dueCount (removelast (map step_due rest))
      < LEGACY_STEPS <= dueCount (map step_due rest) ->
    let st' := loops (inp :: rest) st in
    (ldr1 inp = TRIGGER_STATE -> ldr2 inp <> TRIGGER_STATE ->
     lastLdrState1 (votes st) <> TRIGGER_STATE ->
     wrap_ulong (millis_check1 inp - lastVoteTime (votes st)) > VOTE_COOLDOWN ->
     currentPos (stepper st') = currentPos (stepper st) + LEGACY_STEPS
     /\ distanceToGo (stepper st') = 0
     /\ pendingVotesA (votes st') = wrap_long (pendingVotesA (votes st) + 1)
     /\ pendingVotesB (votes st') = pendingVotesB (votes st))
    /\ (ldr2 inp = TRIGGER_STATE -> ldr1 inp <> TRIGGER_STATE ->
        lastLdrState2 (votes st) <> TRIGGER_STATE ->
        wrap_ulong (millis_check2 inp - lastVoteTime (votes st))
          > VOTE_COOLDOWN ->
        currentPos (stepper st') = currentPos (stepper st) - LEGACY_STEPS
        /\ distanceToGo (stepper st') = 0
        /\ pendingVotesB (votes st') = wrap_long (pendingVotesB (votes st) + 1)
        /\ pendingVotesA (votes st') = pendingVotesA (votes st)).
Proof.
  intros inp rest st Hq Hd Hdue st'. unfold st'. cbn [loops].
  inversion Hq as [|? ? Hq1 Hq2]; subst.
  destruct (loop_quiet_idle inp st Hq1 Hd) as (s0 & Hs0 & Hv0 & En).
  split.
  - intros H1 H2 Hl Ht.
    rewrite <- Hv0 in Hl, Ht.
    rewrite (checkSensor1_vote inp s0 H1 Hl Ht) in En.
    rewrite checkSensor2_silent in En by (left; exact H2).
    cbn zeta in En.
    destruct (loops_quiet_carry_out rest (next (loop inp st)) Hq2)
      as (Hp & Hz & Hv).
    { rewrite En. unfold distanceToGo. cbn. unfold LEGACY_STEPS in *. lia. }
    rewrite Hp, Hz, Hv, En. cbn. rewrite Hs0, Hv0. cbn.
    repeat split.
  - intros H2 H1 Hl Ht.
    rewrite checkSensor1_silent in En by (left; exact H1).
    rewrite <- Hv0 in Hl, Ht.
    rewrite (checkSensor2_vote inp s0 H2 Hl Ht) in En.
    cbn zeta in En.
    destruct (loops_quiet_carry_out rest (next (loop inp st)) Hq2)
      as (Hp & Hz & Hv).
    { rewrite En. unfold distanceToGo. cbn. unfold LEGACY_STEPS in *. lia. }
    rewrite Hp, Hz, Hv, En. cbn. rewrite Hs0, Hv0. cbn.
    repeat split; unfold LEGACY_STEPS; lia.
Qed.

(** X6 at work: sensor 2 is covered 5 s after power-on. *)
Lemma vote_feedback_move_exact_witness :
  let st' := loops (tick 5000 HIGH LOW :: ticks 5001 68 HIGH HIGH) booted in
  currentPos (stepper st') = currentPos (stepper booted) - LEGACY_STEPS
  /\ distanceToGo (stepper st') = 0
  /\ pendingVotesB (votes st') = wrap_long (pendingVotesB (votes booted) + 1)
  /\ pendingVotesA (votes st') = pendingVotesA (votes booted).
Proof.
  intros st'.
  refine (proj2 (vote_feedback_move_exact (tick 5000 HIGH LOW)
                   (ticks 5001 68 HIGH HIGH) booted _ _ _) _ _ _ _).
  - repeat constructor.
  - reflexivity.
  - vm_compute. split; congruence.
  - reflexivity.
  - vm_compute. congruence.
  - vm_compute. congruence.
  - vm_compute. reflexivity.
Defined.

End Votes.

Section Cooldown.

Import AccelStepper.

(** X7.  The cooldown is shared and consumes edges.  When the time read in
    both cooldown tests is within 3000 ms of the last vote, the last
    statement of [loop()] counts no vote for either sensor and sets up no
    move, whatever the sensors read; yet, the motor being idle, it records
    the levels read.  So a sensor that gets covered inside the cooldown and
    stays covered never votes for that covering, however long it lasts. *)
Theorem cooldown_silences_and_consumes :
  (forall inp st,
      wrap_ulong (millis_check1 inp - lastVoteTime (votes st))
        <= VOTE_COOLDOWN ->
      wrap_ulong (millis_check2 inp - lastVoteTime (votes st))
        <= VOTE_COOLDOWN ->
      let st' := fst (motorAndSensors inp st) in
      pendingVotesA (votes st') = pendingVotesA (votes st)
      /\ pendingVotesB (votes st') = pendingVotesB (votes st)
      /\ lastVoteTime (votes st') = lastVoteTime (votes st)
      /\ targetPos (stepper st') = targetPos (stepper st)
      /\ (distanceToGo (stepper st) = 0 ->
          lastLdrState1 (votes st') = ldr1 inp
          /\ lastLdrState2 (votes st') = ldr2 inp))
  /\ (forall inp rest st,
      Forall quiet (inp :: rest) -> Forall held1 (inp :: rest) ->
      distanceToGo (stepper st) = 0 ->
      wrap_ulong (millis_check1 inp - lastVoteTime (votes st))
        <= VOTE_COOLDOWN ->
      pendingVotesA (votes (loops (inp :: rest) st)) = pendingVotesA (votes st))
  /\ (forall inp rest st,
      Forall quiet (inp :: rest) -> Forall held2 (inp :: rest) ->
      distanceToGo (stepper st) = 0 ->
      ldr1 inp <> TRIGGER_STATE ->
      wrap_ulong (millis_check2 inp - lastVoteTime (votes st))
        <= VOTE_COOLDOWN ->
      pendingVotesB (votes (loops (inp :: rest) st)) = pendingVotesB (votes st)).
Proof.
  split; [|split].
  - intros inp st H1 H2 st'. unfold st'.
    destruct (motorAndSensors_branches inp st) as [[Hd E]|(Hd & _ & E)];
      rewrite E.
    + cbn [fst votes stepper with_stepper]. rewrite run_target.
      split; [reflexivity|]. split; [reflexivity|]. split; [reflexivity|].
      split; [reflexivity|]. intros Hc. contradiction.
    + cbn zeta. set (s0 := with_stepper (disableOutputs (stepper st)) st).
      rewrite (checkSensor1_silent inp s0) by (right; exact H1).
      rewrite (checkSensor2_silent inp s0) by (right; exact H2).
      split; [reflexivity|]. split; [reflexivity|]. split; [reflexivity|].
      split; [reflexivity|]. intros _. split; reflexivity.
  - intros inp rest st Hq Hh Hd Ht. cbn [loops].
    inversion Hq as [|? ? Hq1 Hq2]; subst.
    inversion Hh as [|? ? Hh1 Hh2]; subst.
    destruct (loop_quiet_idle inp st Hq1 Hd) as (s0 & Hs0 & Hv0 & En).
    rewrite <- Hv0 in Ht.
    rewrite (checkSensor1_silent inp s0) in En by (right; exact Ht).
    cbn zeta in En.
    rewrite held1_seen_no_vote; try assumption.
    + rewrite En. cbn [votes with_votes with_lastLdr pendingVotesA].
      destruct (checkSensor2_frame inp s0) as (_ & _ & F). rewrite F, Hv0.
      reflexivity.
    + rewrite En. exact Hh1.
  - intros inp rest st Hq Hh Hd H1 Ht. cbn [loops].
    inversion Hq as [|? ? Hq1 Hq2]; subst.
    inversion Hh as [|? ? Hh1 Hh2]; subst.
    destruct (loop_quiet_idle inp st Hq1 Hd) as (s0 & Hs0 & Hv0 & En).
    rewrite (checkSensor1_silent inp s0) in En by (left; exact H1).
    rewrite <- Hv0 in Ht.
    rewrite (checkSensor2_silent inp s0) in En by (right; exact Ht).
    cbn zeta in En.
    rewrite held2_seen_no_vote; try assumption.
    + rewrite En, Hv0. reflexivity.
    + rewrite En. exact Hh1.
Qed.

(** X7 at work: the last vote was at 5 s, sensor 1 is covered at 6 s and
    stays covered for ten seconds. *)
Lemma cooldown_silences_and_consumes_witness :
  let st := with_votes (mkVotes 0 1 HIGH LOW 5000) booted in
  pendingVotesA (votes (loops (seconds 6000 10 LOW HIGH) st)) = 0.
Proof.
  intros st.
  refine (proj1 (proj2 cooldown_silences_and_consumes)
            (tick 6000 LOW HIGH)
            (map (fun k => tick (6000 + 1000 * Z.of_nat k) LOW HIGH) (seq 1 9))
            st _ _ _ _).
  - repeat constructor.
  - repeat constructor.
  - reflexivity.
  - vm_compute. congruence.
Defined.

(** X8.  Sensor 1 has precedence.  When a poll finds both sensors freshly
    at the trigger level with the cooldown elapsed, and the clock read in
    the test of sensor 2 is within 3000 ms of the one stored by the vote of
    sensor 1, only the vote of sensor 1 is counted and the move is 68 steps
    forward; the level of sensor 2 is recorded all the same, so its covering
    is not counted later either as long as it stays covered. *)
Theorem both_covered_first_sensor_wins :
  forall (inp : LoopInput) (rest : list LoopInput) (st : State),
    Forall quiet (inp :: rest) -> Forall held2 (inp :: rest) ->
    distanceToGo (stepper st) = 0 ->
    ldr1 inp = TRIGGER_STATE ->
    lastLdrState1 (votes st) <> TRIGGER_STATE ->
    wrap_ulong (millis_check1 inp - lastVoteTime (votes st)) > VOTE_COOLDOWN ->
    wrap_ulong (millis_check2 inp - millis_vote1 inp) <= VOTE_COOLDOWN ->
    let st1 := next (loop inp st) in
    pendingVotesA (votes st1) = wrap_long (pendingVotesA (votes st) + 1)
    /\ pendingVotesB (votes st1) = pendingVotesB (votes st)
    /\ targetPos (stepper st1) = currentPos (stepper st) + LEGACY_STEPS
    /\ lastVoteTime (votes st1) = millis_vote1 inp
    /\ lastLdrState2 (votes st1) = TRIGGER_STATE
    /\ pendingVotesB (votes (loops (inp :: rest) st)) = pendingVotesB (votes st).
Proof.
  intros inp rest st Hq Hh Hd H1 Hl Ht Hc st1. unfold st1.
  inversion Hq as [|? ? Hq1 Hq2]; subst.
  inversion Hh as [|? ? Hh1 Hh2]; subst.
  destruct (loop_quiet_idle inp st Hq1 Hd) as (s0 & Hs0 & Hv0 & En).
  rewrite <- Hv0 in Hl, Ht.
  rewrite (checkSensor1_vote inp s0 H1 Hl Ht) in En.
  rewrite checkSensor2_silent in En by (right; exact Hc).
  cbn zeta in En.
  assert (E5 : lastLdrState2 (votes (next (loop inp st))) = TRIGGER_STATE)
    by (rewrite En; exact Hh1).
  assert (EB : pendingVotesB (votes (next (loop inp st)))
               = pendingVotesB (votes st))
    by (rewrite En; cbn; rewrite Hv0; reflexivity).
  split; [rewrite En; cbn; rewrite Hv0; reflexivity|].
  split; [exact EB|].
  split; [rewrite En; cbn; rewrite Hs0; reflexivity|].
  split; [rewrite En; reflexivity|].
  split; [exact E5|].
  cbn [loops]. rewrite held2_seen_no_vote; assumption.
Qed.

(** X8 at work: both sensors are covered 5 s after power-on and stay
    covered during the move and two more seconds. *)
Lemma both_covered_first_sensor_wins_witness :
  let inps := tick 5000 LOW LOW :: ticks 5001 68 LOW LOW
              ++ seconds 6000 2 LOW LOW in
  pendingVotesA (votes (next (loop (tick 5000 LOW LOW) booted))) = 1
  /\ pendingVotesB (votes (loops inps booted)) = 0.
Proof.
  intros inps.
  refine (let H := both_covered_first_sensor_wins (tick 5000 LOW LOW)
                     (ticks 5001 68 LOW LOW ++ seconds 6000 2 LOW LOW)
                     booted _ _ _ _ _ _ _ in
          conj (proj1 H) (proj2 (proj2 (proj2 (proj2 (proj2 H)))))).
  - repeat constructor.
  - repeat constructor.
  - reflexivity.
  - reflexivity.
  - vm_compute. congruence.
  - vm_compute. reflexivity.
  - vm_compute. congruence.
Defined.

End Cooldown.

(* ================================================================= *)
(** ** Further properties: the display                                *)
(* ================================================================= *)

Section ScrollCycle.

(** X9.  Scrolling goes round the text.  [n] successive scroll renders of
    the same text advance the cursor by [n] modulo the length of the text,
    so a text of [L] characters is back at its starting cursor after [L]
    renders; after each render the row shows the window at the cursor the
    render started from, whose first character is the character of the text
    at that cursor. *)
Theorem scroll_renders_go_round :
  forall (n r : nat) (text : WString) (pos : Z) (l : Lcd.t),
    wellFormed l -> (16 <= length text)%nat ->
    Z.of_nat (length text) < 2 ^ 31 ->
    0 <= pos < Z.of_nat (length text) ->
    let len := Z.of_nat (length text) in
    snd (renders n r text pos l) = (pos + Z.of_nat n) mod len
    /\ wellFormed (fst (renders n r text pos l))
    /\ (forall k, n = S k ->
          Lcd.line r (fst (renders n r text pos l))
          = scrollWindow text ((pos + Z.of_nat k) mod len))
    /\ snd (renders (length text) r text pos l) = pos
    /\ nth 0 (scrollWindow text pos) zero = charAt text (Z.to_nat pos).
Proof.
  intros n r text pos l Hw Hlen Hidx Hpos len. subst len.
  assert (Hgen : forall n pos l,
    wellFormed l -> 0 <= pos < Z.of_nat (length text) ->
    snd (renders n r text pos l)
    = (pos + Z.of_nat n) mod Z.of_nat (length text)
    /\ wellFormed (fst (renders n r text pos l))
    /\ (forall k, n = S k ->
          Lcd.line r (fst (renders n r text pos l))
          = scrollWindow text ((pos + Z.of_nat k) mod Z.of_nat (length text)))).
  { clear n pos l Hw Hpos. intros n. induction n as [|n IH]; intros pos l Hw Hpos.
    - cbn [renders fst snd]. rewrite Z.add_0_r, Z.mod_small by exact Hpos.
      split; [reflexivity|]. split; [exact Hw|]. intros k Hk. discriminate.
    - cbn [renders].
      destruct (printLcdLine_line r text pos true l Hw
                  (conj Hlen (conj Hidx Hpos))) as (L1 & _ & L3 & _).
      rewrite (printLcdLine_scroll text pos Hlen Hidx Hpos) in *.
      cbn [fst snd] in *.
      assert (Hp' : 0 <= (pos + 1) mod Z.of_nat (length text)
                    < Z.of_nat (length text))
        by (apply Z.mod_pos_bound; lia).
      destruct (IH ((pos + 1) mod Z.of_nat (length text)) _ L3 Hp')
        as (I1 & I2 & I3).
      split; [|split; [exact I2|]].
      + rewrite I1, Z.add_mod_idemp_l by lia.
        f_equal. lia.
      + intros k Hk. injection Hk as <-. destruct n as [|j].
        * cbn [renders fst]. rewrite Z.add_0_r, Z.mod_small by exact Hpos.
          exact L1.
        * rewrite (I3 j eq_refl), Z.add_mod_idemp_l by lia.
          do 2 f_equal. lia. }
  destruct (Hgen n pos l Hw Hpos) as (G1 & G2 & G3).
  split; [exact G1|]. split; [exact G2|]. split; [exact G3|]. split.
  - destruct (Hgen (length text) pos l Hw Hpos) as (G & _).
    rewrite G.
    rewrite <- (Z.mul_1_l (Z.of_nat (length text))) at 1.
    rewrite Z.mod_add by lia.
    apply Z.mod_small. exact Hpos.
  - rewrite (scrollWindow_nth text pos Hlen Hidx Hpos 0) by lia.
    rewrite Nat.add_0_r, Nat.mod_small by lia. reflexivity.
Qed.

(** X9 at work: a question of 31 characters, 31 renders from cursor 7. *)
Lemma scroll_renders_go_round_witness :
  snd (renders 31 1 (lit "Quale citta e la piu bella?" ++ lit "   *") 7
         Lcd.init)
  = (7 + Z.of_nat 31) mod 31.
Proof.
  refine (proj1 (scroll_renders_go_round 31 1
                   (lit "Quale citta e la piu bella?" ++ lit "   *") 7
                   Lcd.init _ _ _ _)).
  - split; reflexivity.
  - vm_compute. lia.
  - vm_compute. reflexivity.
  - vm_compute. split; congruence.
Defined.

End ScrollCycle.

Section Layout.

Lemma findSplit_hit (text : WString) (n : nat) :
  findSplit text n = -1
  \/ (0 <= findSplit text n
      /\ (Z.to_nat (findSplit text n) < n)%nat
      /\ isSpace text (Z.to_nat (findSplit text n))).
Proof.
  induction n as [|n IH]; simpl; [left; reflexivity|].
  destruct (Ascii.eqb (charAt text n) " ") eqn:E.
  - right. apply Ascii.eqb_eq in E. rewrite Nat2Z.id.
    split; [lia|]. split; [lia|exact E].
  - destruct IH as [IH|(I1 & I2 & I3)]; [left; exact IH|right].
    split; [exact I1|]. split; [lia|exact I3].
Qed.

(** X10.  The static layout of the question loses nothing.  Whenever
    [formatQuestion] leaves the scroll flag off, either the whole question
    (at most 16 characters) is the first line and the second is empty, or
    the question is the first line, one space, and the second line, the
    first line not empty and neither longer than 16 characters.  Whenever
    it sets the flag, both lines are empty and the question has more than 16
    characters. *)
Theorem static_layout_keeps_whole_question :
  forall (text : WString) (d : Display),
    let d' := setQuestion text d in
    (scrollQ d' = false ->
     (qLine1 d' = text /\ qLine2 d' = [] /\ (length text <= 16)%nat)
     \/ (text = qLine1 d' ++ " "%char :: qLine2 d'
         /\ (0 < length (qLine1 d') <= 16)%nat
         /\ (length (qLine2 d') <= 16)%nat
         /\ (16 < length text <= 32)%nat))
    /\ (scrollQ d' = true ->
        qLine1 d' = [] /\ qLine2 d' = [] /\ (16 < length text)%nat).
Proof.
  intros text d d'. unfold d', setQuestion, formatQuestion.
  cbn [quizText].
  destruct (length text <=? 16)%nat eqn:E1.
  - apply Nat.leb_le in E1. cbn [scrollQ qLine1 qLine2 with_layout].
    split; [intros _; left; repeat split; exact E1|discriminate].
  - apply Nat.leb_gt in E1.
    destruct (length text <=? 32)%nat eqn:E2;
      [|cbn [scrollQ qLine1 qLine2 with_layout];
        split; [discriminate|intros _; repeat split; exact E1]].
    apply Nat.leb_le in E2. rewrite Nat.min_l by lia.
    destruct (findSplit_hit text 17) as [Hn|(H0 & Hlt & Hsp)].
    + rewrite Hn. cbn [Z.ltb Z.compare scrollQ qLine1 qLine2 with_layout].
      split; [discriminate|intros _; repeat split; exact E1].
    + set (s := findSplit text 17) in *.
      destruct (0 <? s) eqn:Es;
        [|cbn [scrollQ qLine1 qLine2 with_layout];
          split; [discriminate|intros _; repeat split; exact E1]].
      apply Z.ltb_lt in Es.
      rewrite substring_prefix, substring_from_skipn by lia.
      destruct ((length (firstn (Z.to_nat s) text) <=? 16)
                && (length (skipn (Z.to_nat s + 1) text) <=? 16))%nat eqn:E3;
        [|cbn [scrollQ qLine1 qLine2 with_layout];
          split; [discriminate|intros _; repeat split; exact E1]].
      apply andb_prop in E3 as [Ea Eb]. apply Nat.leb_le in Ea, Eb.
      cbn [scrollQ qLine1 qLine2 with_layout].
      split; [intros _; right|discriminate].
      split; [|split; [|split; [exact Eb|lia]]].
      * rewrite <- Hsp. apply split_at. lia.
      * rewrite length_firstn in *. lia.
Qed.

End Layout.

Section Frames.

Lemma swapPage_contents now st :
  contents (display (swapPage now st)) = contents (display st).
Proof. unfold swapPage. destruct (_ >? _); reflexivity. Qed.

Lemma refreshLcd_contents now st :
  contents (display (refreshLcd now st)) = contents (display st).
Proof.
  unfold refreshLcd. destruct (_ >? _); [|reflexivity].
  destruct (showQuestion (display st)); [destruct (scrollQ (display st))|];
    repeat match goal with |- context [printLcdLine ?r ?t ?p ?sc ?l] =>
      destruct (printLcdLine r t p sc l) end;
    reflexivity.
Qed.

Lemma handleClient_notQuiz (inp : LoopInput) (st : State) :
  notQuiz inp -> display (afterRequest inp st) = display st.
Proof.
  intros Hn. unfold afterRequest, handleClient, notQuiz in *.
  destruct (request inp) as [r|]; [|reflexivity].
  destruct (serverBegun st); [|reflexivity]. cbn [negb].
  destruct (method r) eqn:Em; [|reflexivity].
  destruct (WString_eqb (uri r) (lit "/")); [reflexivity|].
  destruct (WString_eqb (uri r) (lit "/step")); [reflexivity|].
  destruct (WString_eqb (uri r) (lit "/move")).
  { unfold handleMove.
    repeat (match goal with |- context [if ?c then _ else _] => destruct c end;
            try reflexivity). }
  destruct (WString_eqb (uri r) (lit "/quiz")) eqn:Eq.
  { exfalso. apply (Hn r eq_refl Em). apply WString_eqb_spec. exact Eq. }
  destruct (WString_eqb (uri r) (lit "/poll_votes")); reflexivity.
Qed.

(** X11.  Only [/quiz] changes what the display is to show: over any
    iterations of [loop()] none of whose requests is a [GET /quiz], the
    three texts, the two lines of the question and the three scroll flags
    stay as they are, whatever else is requested, sensed or drawn. *)
Theorem only_quiz_changes_contents :
  forall (inps : list LoopInput) (st : State),
    Forall notQuiz inps ->
    contents (display (loops inps st)) = contents (display st).
Proof.
  intros inps. induction inps as [|inp rest IH]; intros st H; [reflexivity|].
  inversion H as [|? ? H1 H2]; subst. cbn [loops]. rewrite (IH _ H2).
  destruct (loop_unfold inp st) as (Hn & _). rewrite Hn.
  destruct (motorAndSensors_display inp (beforeMotor inp st)) as [Ed _].
  rewrite Ed. unfold beforeMotor.
  rewrite refreshLcd_contents, swapPage_contents.
  rewrite (handleClient_notQuiz inp st H1). reflexivity.
Qed.

(** X11 at work: a [/step], a [/poll_votes] and a vote. *)
Lemma only_quiz_changes_contents_witness :
  contents
    (display
       (loops [mkLoopInput (Some (GET "/step" [])) 9000 9000 true HIGH HIGH
                 9000 9000 9000 9000;
               mkLoopInput (Some (GET "/poll_votes" [])) 9500 9500 true
                 HIGH HIGH 9500 9500 9500 9500;
               tick 20000 LOW HIGH]
          booted))
  = contents (display booted).
Proof.
  refine (only_quiz_changes_contents _ booted _).
  apply Forall_cons; [|apply Forall_cons; [|apply Forall_cons;
                                              [|apply Forall_nil]]];
    intros r H Hm; try discriminate H; injection H as <-;
    vm_compute; congruence.
Defined.

Lemma motorAndSensors_withoutRequest (inp : LoopInput) (st : State) :
  motorAndSensors (withoutRequest inp) st = motorAndSensors inp st.
Proof. destruct inp. reflexivity. Qed.

Lemma loop_not_begun (inp : LoopInput) (st : State) :
  serverBegun st = false ->
  reply (loop inp st) = None
  /\ next (loop inp st) = next (loop (withoutRequest inp) st).
Proof.
  intros Hb.
  assert (E : handleClient (request inp) (millis_quiz inp) st = (st, None)).
  { unfold handleClient. destruct (request inp); [|reflexivity].
    rewrite Hb. reflexivity. }
  destruct (loop_unfold inp st) as (Hn & _ & Hr & _).
  destruct (loop_unfold (withoutRequest inp) st) as (Hn' & _).
  rewrite Hr, Hn, Hn', E. split; [reflexivity|].
  rewrite motorAndSensors_withoutRequest.
  unfold beforeMotor, afterRequest. rewrite E. reflexivity.
Qed.

(** X12.  A failed join is final: when [setup] returns without having
    joined the network the server is not started, and from then on no
    request is ever answered or acted upon: every iteration of [loop()]
    replies nothing and does exactly what it would do with no request
    pending, and the server stays stopped. *)
Theorem failed_join_serves_nothing :
  (forall clock1 clock2 st, serverBegun (setup clock1 clock2 false st) = false)
  /\ forall (inps : list LoopInput) (st : State),
      serverBegun st = false ->
      replies inps st = repeat None (length inps)
      /\ loops inps st = loops (map withoutRequest inps) st
      /\ serverBegun (loops inps st) = false.
Proof.
  split; [reflexivity|].
  intros inps. induction inps as [|inp rest IH]; intros st Hb.
  - repeat split. exact Hb.
  - destruct (loop_not_begun inp st Hb) as [Hr Hn].
    assert (Hb' : serverBegun (next (loop inp st)) = false)
      by (rewrite loop_begun; exact Hb).
    destruct (IH _ Hb') as (I1 & I2 & I3).
    cbn [replies loops map length repeat].
    rewrite Hr, I1. split; [reflexivity|]. split; [|exact I3].
    rewrite I2, Hn. reflexivity.
Qed.

(** X12 at work: a [/step] sent to a board that did not join. *)
Lemma failed_join_serves_nothing_witness :
  let st := setup (repeat true 64) (repeat true 64) false initial in
  let inp := mkLoopInput (Some (GET "/step" [])) 9000 9000 true HIGH HIGH
               9000 9000 9000 9000 in
  replies [inp] st = [None]
  /\ AccelStepper.distanceToGo (stepper (loops [inp] st)) = 0.
Proof.
  intros st inp.
  assert (Hb : serverBegun st = false) by reflexivity.
  pose proof (proj2 failed_join_serves_nothing [inp] st Hb) as H.
  split; [exact (proj1 H)|].
  rewrite (proj1 (proj2 H)). reflexivity.
Defined.

End Frames.

Section Pages.

(** X13.  Page timing.  With texts of at most ten million characters (so
    that the interval does not wrap) and modes that fit the texts, the dwell
    interval of the page on show is never below the 4000 ms of a static
    page; for a scrolling question it is 400 ms per character plus 1500 ms,
    for answers of which one scrolls 400 ms per character of the longer one
    plus 1500 ms.  The page test of [loop()] does nothing until more than
    that interval has passed since the last swap; when it has, the other
    page is selected, the swap time is the time read, the three cursors are
    back at 0 and the screen is blank. *)
Theorem page_swapped_only_after_interval :
  forall (now : Z) (st : State),
    modesFit (display st) ->
    Z.of_nat (length (quizText (display st))) <= 10000000 ->
    Z.of_nat (length (ans1Text (display st))) <= 10000000 ->
    Z.of_nat (length (ans2Text (display st))) <= 10000000 ->
    let d := display st in
    let elapsed := wrap_ulong (now - lastPageSwap d) in
    LCD_PAGE_INTERVAL <= currentInterval d
    /\ (showQuestion d = true -> scrollQ d = true ->
        currentInterval d
        = SCROLL_INTERVAL * Z.of_nat (length (quizText d)) + 1500)
    /\ (showQuestion d = false -> scrollA1 d = true \/ scrollA2 d = true ->
        currentInterval d
        = SCROLL_INTERVAL
          * Z.max (Z.of_nat (length (ans1Text d)))
                  (Z.of_nat (length (ans2Text d))) + 1500)
    /\ (elapsed <= currentInterval d -> swapPage now st = st)
    /\ (elapsed > currentInterval d ->
        let st' := swapPage now st in
        showQuestion (display st') = negb (showQuestion d)
        /\ lastPageSwap (display st') = now
        /\ scrollPosQ (display st') = 0 /\ scrollPosA1 (display st') = 0
        /\ scrollPosA2 (display st') = 0
        /\ Lcd.line0 (lcd st') = Lcd.blank /\ Lcd.line1 (lcd st') = Lcd.blank).
Proof.
  intros now st (_ & _ & M3 & M4 & M5) B1 B2 B3 d elapsed.
  assert (HQ : showQuestion d = true -> scrollQ d = true ->
               currentInterval d
               = SCROLL_INTERVAL * Z.of_nat (length (quizText d)) + 1500).
  { intros Hs Hq. unfold currentInterval. rewrite Hs, Hq.
    unfold wrap_ulong, SCROLL_INTERVAL. rewrite Z.mod_small; [lia|].
    fold d in B1. lia. }
  assert (HA : showQuestion d = false -> scrollA1 d = true \/ scrollA2 d = true ->
               currentInterval d
               = SCROLL_INTERVAL
                 * Z.max (Z.of_nat (length (ans1Text d)))
                         (Z.of_nat (length (ans2Text d))) + 1500).
  { intros Hs Ha. unfold currentInterval. rewrite Hs.
    replace (scrollA1 d || scrollA2 d) with true
      by (destruct Ha as [Ha|Ha]; rewrite Ha;
          [reflexivity|symmetry; apply orb_true_r]).
    fold d in B2, B3. unfold wrap_ulong, SCROLL_INTERVAL.
    destruct (length (ans1Text d) <? length (ans2Text d))%nat eqn:E.
    - apply Nat.ltb_lt in E. rewrite Z.mod_small; lia.
    - apply Nat.ltb_ge in E. rewrite Z.mod_small; lia. }
  split; [|split; [exact HQ|split; [exact HA|split]]].
  - fold d in M3, M4, M5. unfold LCD_PAGE_INTERVAL.
    destruct (showQuestion d) eqn:Es.
    + destruct (scrollQ d) eqn:Eq.
      * rewrite (HQ eq_refl eq_refl). specialize (M5 eq_refl).
        unfold SCROLL_INTERVAL. lia.
      * unfold currentInterval. rewrite Es, Eq. unfold LCD_PAGE_INTERVAL. lia.
    + destruct (scrollA1 d) eqn:E1.
      * rewrite (HA eq_refl (or_introl eq_refl)). unfold SCROLL_INTERVAL. lia.
      * destruct (scrollA2 d) eqn:E2.
        -- rewrite (HA eq_refl (or_intror eq_refl)). unfold SCROLL_INTERVAL. lia.
        -- unfold currentInterval. rewrite Es, E1, E2.
           unfold LCD_PAGE_INTERVAL. cbn [orb]. lia.
  - intros He. unfold swapPage. fold d. fold elapsed.
    replace (elapsed >? currentInterval d) with false; [reflexivity|].
    symmetry. rewrite Z.gtb_ltb. apply Z.ltb_ge. exact He.
  - intros He st'. unfold st', swapPage. fold d. fold elapsed.
    apply Z.gt_lt, Z.gtb_lt in He. rewrite He. repeat split.
Qed.

(** X13 at work: the boot page, first looked at after 3.9 s. *)
Lemma page_swapped_only_after_interval_witness :
  swapPage 3900 booted = booted.
Proof.
  refine (proj1 (proj2 (proj2 (proj2
            (page_swapped_only_after_interval 3900 booted _ _ _ _)))) _).
  - unfold modesFit. vm_compute. repeat split; try lia; discriminate.
  - vm_compute. congruence.
  - vm_compute. congruence.
  - vm_compute. congruence.
  - vm_compute. congruence.
Defined.

End Pages.

Section Layout2.

(** X10 at work on the question of 20 characters with spaces at 10 and 15. *)
Lemma static_layout_keeps_whole_question_witness :
  let d' := setQuestion (lit "Preferisci mare o no") initialDisplay in
  (qLine1 d' = lit "Preferisci mare o no" /\ qLine2 d' = []
   /\ (length (lit "Preferisci mare o no") <= 16)%nat)
  \/ (lit "Preferisci mare o no" = qLine1 d' ++ " "%char :: qLine2 d'
      /\ (0 < length (qLine1 d') <= 16)%nat
      /\ (length (qLine2 d') <= 16)%nat
      /\ (16 < length (lit "Preferisci mare o no") <= 32)%nat).
Proof.
  intros d'.
  refine (proj1 (static_layout_keeps_whole_question
                   (lit "Preferisci mare o no") initialDisplay) _).
  reflexivity.
Defined.

End Layout2.

(* ================================================================= *)
(** ** Further properties: composition of requests, the vote reply    *)
(* ================================================================= *)

Section LastWins.

Import AccelStepper.

(** X14.  Move requests do not queue: as long as the motor has not stepped
    in between, the last one decides.  A [/step] after any [/step] or
    [/move] leaves the state a single [/step] would have left, and an
    accepted [/move] after any [/step] or [/move] (accepted or refused)
    leaves the state that [/move] alone would have left. *)
Theorem last_move_request_wins :
  forall (st : State),
    fst (handleStep (fst (handleStep st))) = fst (handleStep st)
    /\ (forall r, fst (handleStep (fst (handleMove r st))) = fst (handleStep st))
    /\ (forall r,
          LONG_MIN < toInt (arg r (lit "steps")) -> ~ moveRejected r ->
          fst (handleMove r (fst (handleStep st))) = fst (handleMove r st)
          /\ forall r0,
               fst (handleMove r (fst (handleMove r0 st)))
               = fst (handleMove r st)).
Proof.
  intros st. split; [reflexivity|]. split.
  - intros r. unfold handleMove.
    repeat (match goal with |- context [if ?c then _ else _] => destruct c end;
            try reflexivity).
  - intros r Hmin Hacc.
    assert (Hgen : forall s,
      fst (handleMove r s)
      = with_stepper (move (toInt (arg r (lit "steps")))
                        (enableOutputs (stepper s))) s).
    { intros s. pose proof (handleMove_cases r s Hmin) as Hc. cbn zeta in Hc.
      destruct Hc as [_ Hc]. destruct (Hc Hacc) as [E _]. exact E. }
    split.
    + rewrite !Hgen. reflexivity.
    + intros r0. rewrite (Hgen (fst (handleMove r0 st))), (Hgen st).
      unfold handleMove.
      repeat (match goal with |- context [if ?c then _ else _] => destruct c end;
              try reflexivity).
Qed.

(** X14 at work: [/move?steps=500] then [/move?steps=-20]. *)
Lemma last_move_request_wins_witness :
  fst (handleMove (moveRequest (lit "-20"))
         (fst (handleMove (moveRequest (lit "500")) booted)))
  = fst (handleMove (moveRequest (lit "-20")) booted).
Proof.
  refine (proj2 (proj2 (proj2 (last_move_request_wins booted))
                   (moveRequest (lit "-20")) _ _)
            (moveRequest (lit "500"))).
  - vm_compute. reflexivity.
  - unfold moveRejected. vm_compute.
    intros [H|[[H _]|H]]; discriminate.
Defined.

End LastWins.

Section VoteReply.

Lemma String_of_long_chars (z : Z) :
  Forall (fun c => isdigit c = true \/ c = "-"%char) (String_of_long z).
Proof.
  assert (Hu : forall d, Forall (fun c => isdigit c = true \/ c = "-"%char)
                           (lit (NilEmpty.string_of_uint d))).
  { induction d; cbn [NilEmpty.string_of_uint]; rewrite ?lit_String;
      constructor; try assumption; left; reflexivity. }
  assert (Hz : forall d, Forall (fun c => isdigit c = true \/ c = "-"%char)
                           (lit (NilZero.string_of_uint d))).
  { intros d. unfold NilZero.string_of_uint.
    destruct d; try apply Hu. repeat constructor. }
  unfold String_of_long. destruct (Z.to_int z) as [d|d];
    cbn [NilZero.string_of_int]; [apply Hz|].
  rewrite lit_String. constructor; [right; reflexivity|apply Hz].
Qed.

Lemma afterChar_skip (c : ascii) (s rest : WString) :
  Forall (fun x => x <> c) s -> afterChar c (s ++ c :: rest) = rest.
Proof.
  induction s as [|x s IH]; intros H; cbn [app afterChar].
  - rewrite Ascii.eqb_refl. reflexivity.
  - inversion H as [|? ? Hx Hs]; subst. apply Ascii.eqb_neq in Hx.
    rewrite Hx. apply IH, Hs.
Qed.

Lemma String_of_long_plain (z : Z) (c : ascii) :
  isdigit c = false -> c <> "-"%char ->
  Forall (fun x => x <> c) (String_of_long z).
Proof.
  intros Hd Hm. eapply Forall_impl; [|apply String_of_long_chars].
  intros x [Hx|Hx] E;
    [rewrite E in Hx; congruence|apply Hm; rewrite <- E; exact Hx].
Qed.

(** X15.  The reply of [/poll_votes] can be read back: for counters that
    are [int] values, reading the integer after the first colon of the body
    and the integer after the colon that follows the comma gives back the
    two counters the handler found, so no two different pairs of counters
    share a reply. *)
Theorem poll_votes_reply_reads_back :
  forall (st : State),
    LONG_MIN <= pendingVotesA (votes st) <= LONG_MAX ->
    LONG_MIN <= pendingVotesB (votes st) <= LONG_MAX ->
    readVotes (body (snd (handlePollVotes st)))
    = (pendingVotesA (votes st), pendingVotesB (votes st)).
Proof.
  intros st HA HB. unfold handlePollVotes. cbn [snd body send].
  set (a := pendingVotesA (votes st)) in *.
  set (b := pendingVotesB (votes st)) in *.
  unfold votesJson, readVotes.
  assert (E1 : afterChar ":"
                 (lit "{" ++ dquote ++ lit "A" ++ dquote ++ lit ":"
                  ++ String_of_long a ++ lit "," ++ dquote ++ lit "B"
                  ++ dquote ++ lit ":" ++ String_of_long b ++ lit "}")
               = String_of_long a
                 ++ ","%char :: dquote ++ lit "B" ++ dquote ++ lit ":"
                 ++ String_of_long b ++ lit "}") by reflexivity.
  assert (E2 : afterChar ","
                 (lit "{" ++ dquote ++ lit "A" ++ dquote ++ lit ":"
                  ++ String_of_long a ++ lit "," ++ dquote ++ lit "B"
                  ++ dquote ++ lit ":" ++ String_of_long b ++ lit "}")
               = dquote ++ lit "B" ++ dquote ++ lit ":"
                 ++ String_of_long b ++ lit "}").
  { change (lit "{" ++ dquote ++ lit "A" ++ dquote ++ lit ":"
            ++ String_of_long a ++ lit "," ++ dquote ++ lit "B"
            ++ dquote ++ lit ":" ++ String_of_long b ++ lit "}")
      with ((lit "{" ++ dquote ++ lit "A" ++ dquote ++ lit ":")
            ++ (String_of_long a
                ++ ","%char :: dquote ++ lit "B" ++ dquote ++ lit ":"
                ++ String_of_long b ++ lit "}")).
    rewrite app_assoc. apply afterChar_skip.
    apply Forall_app. split.
    - repeat constructor; discriminate.
    - apply String_of_long_plain; [reflexivity|discriminate]. }
  rewrite E1, E2. f_equal.
  - apply toInt_String_of_long; [reflexivity|exact HA].
  - change (afterChar ":" (dquote ++ lit "B" ++ dquote ++ lit ":"
                           ++ String_of_long b ++ lit "}"))
      with (String_of_long b ++ lit "}").
    apply toInt_String_of_long; [reflexivity|exact HB].
Qed.

(** X15 at work: 12 votes on one side, 7 on the other. *)
Lemma poll_votes_reply_reads_back_witness :
  readVotes (body (snd (handlePollVotes
                          (with_votes (mkVotes 12 7 HIGH HIGH 5000) booted))))
  = (12, 7).
Proof.
  refine (poll_votes_reply_reads_back
            (with_votes (mkVotes 12 7 HIGH HIGH 5000) booted) _ _);
    vm_compute; split; congruence.
Defined.

End VoteReply.

(* ================================================================= *)
(** ** C5: what the drain reports                                     *)
(* ================================================================= *)

Section Drain.

(** The text [{"A":a,"B":b}] read back. *)
Lemma readVotes_reply (a b : Z) :
  LONG_MIN <= a <= LONG_MAX -> LONG_MIN <= b <= LONG_MAX ->
  readVotes (lit "{" ++ dquote ++ lit "A" ++ dquote ++ lit ":"
             ++ String_of_long a ++ lit "," ++ dquote ++ lit "B"
             ++ dquote ++ lit ":" ++ String_of_long b ++ lit "}")
  = (a, b).
Proof.
  intros HA HB. unfold readVotes.
  assert (E1 : afterChar ":"
                 (lit "{" ++ dquote ++ lit "A" ++ dquote ++ lit ":"
                  ++ String_of_long a ++ lit "," ++ dquote ++ lit "B"
                  ++ dquote ++ lit ":" ++ String_of_long b ++ lit "}")
               = String_of_long a
                 ++ ","%char :: dquote ++ lit "B" ++ dquote ++ lit ":"
                 ++ String_of_long b ++ lit "}") by reflexivity.
  assert (E2 : afterChar ","
                 (lit "{" ++ dquote ++ lit "A" ++ dquote ++ lit ":"
                  ++ String_of_long a ++ lit "," ++ dquote ++ lit "B"
                  ++ dquote ++ lit ":" ++ String_of_long b ++ lit "}")
               = dquote ++ lit "B" ++ dquote ++ lit ":"
                 ++ String_of_long b ++ lit "}").
  { change (lit "{" ++ dquote ++ lit "A" ++ dquote ++ lit ":"
            ++ String_of_long a ++ lit "," ++ dquote ++ lit "B"
            ++ dquote ++ lit ":" ++ String_of_long b ++ lit "}")
      with ((lit "{" ++ dquote ++ lit "A" ++ dquote ++ lit ":")
            ++ (String_of_long a
                ++ ","%char :: dquote ++ lit "B" ++ dquote ++ lit ":"
                ++ String_of_long b ++ lit "}")).
    rewrite app_assoc. apply afterChar_skip.
    apply Forall_app. split.
    - repeat constructor; discriminate.
    - apply String_of_long_plain; [reflexivity|discriminate]. }
  rewrite E1, E2. f_equal.
  - apply toInt_String_of_long; [reflexivity|exact HA].
  - change (afterChar ":" (dquote ++ lit "B" ++ dquote ++ lit ":"
                           ++ String_of_long b ++ lit "}"))
      with (String_of_long b ++ lit "}").
    apply toInt_String_of_long; [reflexivity|exact HB].
Qed.

(** C5.  The drain handler answers, in one reply of status 200 and type
    [application/json], with the text [{"A":a,"B":b}] where [a] and [b] are
    the decimal texts of the two counters as they stand when it is entered,
    and leaves both counters at zero with everything else untouched; a
    second drain right after it reports zero for both.  The counters being
    [int] values, the two integers read out of the reply are the two
    counters.  Through [loop()]: a [/poll_votes] request is answered with
    the counters held at the start of the iteration, and when no sensor
    reads the trigger level from that iteration on, the next [/poll_votes]
    request, however many iterations and other requests later, is answered
    with zero for both. *)
Theorem C5_drain_reports_then_resets :
  forall (st : State),
    let a := pendingVotesA (votes st) in
    let b := pendingVotesB (votes st) in
    let text := fun x y : Z =>
      lit "{" ++ dquote ++ lit "A" ++ dquote ++ lit ":" ++ String_of_long x
      ++ lit "," ++ dquote ++ lit "B" ++ dquote ++ lit ":" ++ String_of_long y
      ++ lit "}" in
    let st' := fst (handlePollVotes st) in
    (snd (handlePollVotes st) = send 200 (lit "application/json") (text a b)
     /\ pendingVotesA (votes st') = 0 /\ pendingVotesB (votes st') = 0
     /\ votes st' = with_pending 0 0 (votes st)
     /\ stepper st' = stepper st /\ display st' = display st
     /\ lcd st' = lcd st
     /\ body (snd (handlePollVotes st')) = text 0 0
     /\ readVotes (body (snd (handlePollVotes st'))) = (0, 0))
    /\ (LONG_MIN <= a <= LONG_MAX -> LONG_MIN <= b <= LONG_MAX ->
        readVotes (body (snd (handlePollVotes st))) = (a, b))
    /\ (forall inp1 mid inp2,
          serverBegun st = true ->
          request inp1 = Some (GET "/poll_votes" []) ->
          request inp2 = Some (GET "/poll_votes" []) ->
          calm inp1 -> Forall calm mid ->
          let reply1 := reply (loop inp1 st) in
          let reply2 := reply (loop inp2 (loops mid (next (loop inp1 st)))) in
          option_map body reply1 = Some (text a b)
          /\ option_map body reply2 = Some (text 0 0)
          /\ (LONG_MIN <= a <= LONG_MAX -> LONG_MIN <= b <= LONG_MAX ->
              option_map (fun r => readVotes (body r)) reply1 = Some (a, b))
          /\ option_map (fun r => readVotes (body r)) reply2 = Some (0, 0)).
Proof.
  intros st a b text st'.
  assert (Hz : readVotes (text 0 0) = (0, 0)).
  { apply readVotes_reply; unfold LONG_MIN, LONG_MAX; lia. }
  split; [|split].
  - split; [reflexivity|]. split; [reflexivity|]. split; [reflexivity|].
    split; [reflexivity|]. split; [reflexivity|]. split; [reflexivity|].
    split; [reflexivity|]. split; [reflexivity|exact Hz].
  - intros HA HB. exact (readVotes_reply a b HA HB).
  - intros inp1 mid inp2 Hb H1 H2 Hc1 Hcm reply1 reply2.
    destruct (loop_unfold inp1 st) as (Hn & _ & Hr & _ & Hv).
    assert (R1 : reply1 = Some (snd (handlePollVotes st))).
    { unfold reply1. rewrite Hr, H1.
      rewrite (handleClient_poll (GET "/poll_votes" []) _ st Hb eq_refl
                 eq_refl).
      reflexivity. }
    assert (Z1 : pendingVotesA (votes (next (loop inp1 st))) = 0
                 /\ pendingVotesB (votes (next (loop inp1 st))) = 0).
    { rewrite Hn.
      destruct (motorAndSensors_calm inp1 (beforeMotor inp1 st) Hc1)
        as [EA EB].
      rewrite EA, EB, Hv. unfold afterRequest. rewrite H1.
      rewrite (handleClient_poll (GET "/poll_votes" []) _ st Hb eq_refl
                 eq_refl).
      split; reflexivity. }
    destruct Z1 as [ZA ZB].
    destruct (loops_calm_zero mid _ Hcm ZA ZB) as [YA YB].
    set (s2 := loops mid (next (loop inp1 st))) in *.
    assert (Hb2 : serverBegun s2 = true).
    { unfold s2. rewrite loops_begun, loop_begun. exact Hb. }
    assert (R2 : option_map body reply2 = Some (text 0 0)).
    { unfold reply2. destruct (loop_unfold inp2 s2) as (_ & _ & Hr2 & _).
      rewrite Hr2, H2.
      rewrite (handleClient_poll (GET "/poll_votes" []) _ s2 Hb2 eq_refl
                 eq_refl).
      unfold handlePollVotes. cbn [snd option_map body send].
      rewrite YA, YB. reflexivity. }
    split; [rewrite R1; reflexivity|]. split; [exact R2|]. split.
    + intros HA HB. rewrite R1. cbn [option_map]. f_equal.
      exact (readVotes_reply a b HA HB).
    + destruct reply2 as [r|]; [|discriminate R2].
      cbn [option_map] in R2 |- *. injection R2 as R2. rewrite R2, Hz.
      reflexivity.
Qed.

(** C5 at work: a vote of sensor 1 is pending, the drain is asked twice with
    one quiet iteration in between, the sensors uncovered.  The first reply
    reads one vote and none, the second none and none. *)
Lemma C5_drain_reports_then_resets_witness :
  let st := with_votes (mkVotes 1 0 LOW HIGH 5000) booted in
  let inp := mkLoopInput (Some (GET "/poll_votes" [])) 9000 9000 false
               HIGH HIGH 9000 9000 9000 9000 in
  let idle := mkLoopInput None 9100 9100 false HIGH HIGH 9100 9100 9100 9100 in
  option_map (fun r => readVotes (body r)) (reply (loop inp st))
  = Some (1, 0)
  /\ option_map (fun r => readVotes (body r))
       (reply (loop inp (loops [idle] (next (loop inp st)))))
     = Some (0, 0).
Proof.
  intros st inp idle.
  assert (Hb : serverBegun st = true) by reflexivity.
  assert (Hc : calm inp) by (split; vm_compute; congruence).
  assert (Hm : Forall calm [idle])
    by (repeat constructor; vm_compute; congruence).
  assert (HA : LONG_MIN <= pendingVotesA (votes st) <= LONG_MAX)
    by (vm_compute; split; congruence).
  assert (HB : LONG_MIN <= pendingVotesB (votes st) <= LONG_MAX)
    by (vm_compute; split; congruence).
  pose proof (proj2 (proj2 (C5_drain_reports_then_resets st))
                inp [idle] inp Hb eq_refl eq_refl Hc Hm) as H.
  exact (conj (proj1 (proj2 (proj2 H)) HA HB) (proj2 (proj2 (proj2 H)))).
Defined.

End Drain.
